(** * Debug-adapter session core: a shallow embedding

    The development follows [packages/debug/src/browser/debug-session.tsx]
    (class [DebugSession]) and the session manager ([DebugSessionManager]).
    JavaScript numbers that carry line numbers, thread ids and counters are
    integers ([Z]); an insertion-ordered [Map] is an association list whose
    order is the insertion order; a plain object used as a record of optional
    fields is a finite map from field names to values. *)

From Stdlib Require Import ZArith List Lia Permutation.
From stdpp Require Import base option list strings pretty gmap.
Import ListNotations.

Local Open Scope Z_scope.

(** ** Insertion-ordered maps (the JavaScript [Map]) *)

Module JsMap.
Section Defs.
Context {K V : Type} `{EqDecision K}.

Definition t := list (K * V).

Definition empty : t := [].

(** [Map.prototype.get] *)
Fixpoint get (k : K) (m : t) : option V :=
  match m with
  | [] => None
  | (k', v) :: m' => if decide (k' = k) then Some v else get k m'
  end.

Definition has (k : K) (m : t) : bool :=
  match get k m with Some _ => true | None => false end.

(** [Map.prototype.set]: an existing key keeps its position, a new key is
    appended at the end. *)
Fixpoint set (k : K) (v : V) (m : t) : t :=
  match m with
  | [] => [(k, v)]
  | (k', v') :: m' =>
      if decide (k' = k) then (k, v) :: m' else (k', v') :: set k v m'
  end.

(** [Map.prototype.delete] *)
Definition delete (k : K) (m : t) : t :=
  List.filter (λ kv, negb (bool_decide (fst kv = k))) m.

Definition keys (m : t) : list K := map fst m.
Definition values (m : t) : list V := map snd m.

End Defs.
Arguments t : clear implicits.
End JsMap.

(** ** Values, errors and results *)

(** The JSON values that occur as fields of the capability set. *)
Inductive JsValue :=
| JBool (b : bool)
| JNum (n : Z)
| JStr (s : string)
| JNull.

(** JavaScript truthiness, as used by [if (capabilities.f)]. *)
Definition truthy (v : option JsValue) : bool :=
  match v with
  | Some (JBool b) => b
  | Some (JNum n) => negb (n =? 0)
  | Some (JStr s) => negb (String.eqb s EmptyString)
  | Some JNull | None => false
  end.

(** What a rejected promise or a [throw] carries. *)
Inductive Error :=
| AdapterError (message : string)
| ConnectionClosed
| TypeError.

Inductive Result (A : Type) :=
| Ok (a : A)
| Throw (e : Error).
Arguments Ok {A} a.
Arguments Throw {A} e.

(** ** The debug protocol's data *)

Module DebugProtocol.

Record Thread := { id : Z; name : string }.

Record SourceBreakpoint := { line : Z; column : option Z }.

(** The adapter's answer for one requested breakpoint; [line] is optional
    in the protocol. *)
Record Breakpoint := { verified : bool; bline : option Z }.

Abbreviation Capabilities := (gmap string JsValue).

End DebugProtocol.

(** The body of a [stopped] event ([StoppedDetails]). An absent
    [preserveFocusHint] reads as [false]. *)
Record StoppedDetails := {
  reason : string;
  threadId : option Z;
  preserveFocusHint : bool
}.

Module DebugConfiguration.
Record t := {
  type : string;
  request : string;
  name : string;
  __resovled : bool;
  __configurationId : option Z;
  __restart : option JsValue
}.
End DebugConfiguration.

(** ** Breakpoints *)

(** A breakpoint as the breakpoint store declares it (the marker's [data]). *)
Module SourceBreakpoint.
Record t := {
  uri : string;
  enabled : bool;
  raw : DebugProtocol.SourceBreakpoint
}.
End SourceBreakpoint.

(** Modelled from the spec: the breakpoint store ([BreakpointManager]) is
    consumed through [findMarkers({uri?})], which lists the declared
    breakpoints of one resource or of all of them, and [getUris()], which
    lists the resources known to the store. *)
Module BreakpointManager.
Record t := { markers : JsMap.t string (list SourceBreakpoint.t) }.

Definition findMarkers (uri : option string) (m : t) : list SourceBreakpoint.t :=
  match uri with
  | Some u => default [] (JsMap.get u (markers m))
  | None => concat (JsMap.values (markers m))
  end.

Definition getUris (m : t) : list string := JsMap.keys (markers m).
End BreakpointManager.

(** Modelled from the spec: [DebugBreakpoint] (model/debug-breakpoint) is a
    logical breakpoint: the list of the declarations it stands for
    ([origins], the first one being its [origin]), and the optional
    verification result of the adapter ([raw]). Its line is the line the
    adapter reported when there is one, else the line its origin requested;
    it is enabled when its origin is; [update] stores the adapter's answer. *)
Module DebugBreakpoint.
Record t := {
  origins : list SourceBreakpoint.t;
  raw : option DebugProtocol.Breakpoint
}.

(** [new DebugBreakpoint(data, ...)] *)
Definition new (data : SourceBreakpoint.t) : t :=
  {| origins := [data]; raw := None |}.

Definition origin (b : t) : option SourceBreakpoint.t := head (origins b).

Definition requested_line (b : t) : option Z :=
  (fun o => DebugProtocol.line (SourceBreakpoint.raw o)) <$> origin b.

Definition reported_line (b : t) : option Z :=
  raw b ≫= DebugProtocol.bline.

(** A breakpoint always has an origin; the last default is never used on a
    breakpoint built by [new]. *)
Definition line (b : t) : Z :=
  match reported_line b with
  | Some l => l
  | None => default 0 (requested_line b)
  end.

Definition enabled (b : t) : bool :=
  match origin b with
  | Some o => SourceBreakpoint.enabled o
  | None => false
  end.

(** [update({ raw })] *)
Definition update (r : DebugProtocol.Breakpoint) (b : t) : t :=
  {| origins := origins b; raw := Some r |}.

(** [primary.origins.push(...more)] *)
Definition push_origins (more : list SourceBreakpoint.t) (b : t) : t :=
  {| origins := origins b ++ more; raw := raw b |}.

(** [b.raw && b.raw.line === b.origin.raw.line] *)
Definition kept_line (b : t) : bool :=
  match reported_line b, requested_line b with
  | Some l, Some l' => bool_decide (l = l')
  | _, _ => false
  end.
End DebugBreakpoint.

(** ** [dedupBreakpoints]

    The elements of [all] are distinct objects (each one is built by [new]
    in [updateBreakpoints]), so [primary !== breakpoint] holds exactly when
    [lines.get(breakpoint.line)] finds an entry. *)
Definition dedup_step (lines : JsMap.t Z DebugBreakpoint.t)
    (breakpoint : DebugBreakpoint.t) : JsMap.t Z DebugBreakpoint.t :=
  match JsMap.get (DebugBreakpoint.line breakpoint) lines with
  | None => JsMap.set (DebugBreakpoint.line breakpoint) breakpoint lines
  | Some found =>
      let '(primary, secondary) :=
        if DebugBreakpoint.kept_line breakpoint
        then (breakpoint, found) else (found, breakpoint) in
      let primary :=
        DebugBreakpoint.push_origins (DebugBreakpoint.origins secondary) primary in
      JsMap.set (DebugBreakpoint.line primary) primary lines
  end.

Definition dedupBreakpoints (all : list DebugBreakpoint.t) : list DebugBreakpoint.t :=
  JsMap.values (fold_left dedup_step all JsMap.empty).

(** ** Requests, responses and the connection *)

Module Request.
Inductive t :=
| initialize (adapterID : string)
| launch (configuration : DebugConfiguration.t)
| attach (configuration : DebugConfiguration.t)
| setBreakpoints (source : string) (sourceModified : bool)
    (breakpoints : list DebugProtocol.SourceBreakpoint)
| configurationDone
| threads
| disconnect (restart : bool)
| restart.
End Request.

Inductive ResponseBody :=
| NoBody
| InitializeBody (capabilities : DebugProtocol.Capabilities)
| SetBreakpointsBody (breakpoints : list DebugProtocol.Breakpoint)
| ThreadsBody (threads : list DebugProtocol.Thread).

(** Events that the session fires on its own connection. *)
Inductive LocalEvent :=
| exited (reason : Error).

(** Modelled from the spec: the connection ([DebugSessionConnection]) has a
    disposal flag and a table of the requests that wait for their response;
    a request on a disposed connection fails at once. [sent] is the log of
    the requests that went to the adapter and [fired] the log of the events
    fired locally, both oldest first. *)
Module DebugSessionConnection.
Record t := {
  disposed : bool;
  sent : list Request.t;
  awaiting : list Request.t;
  fired : list LocalEvent
}.

Definition new : t :=
  {| disposed := false; sent := []; awaiting := []; fired := [] |}.

Definition send (req : Request.t) (c : t) : t :=
  {| disposed := disposed c; sent := sent c ++ [req];
     awaiting := awaiting c; fired := fired c |}.

Definition await (req : Request.t) (c : t) : t :=
  {| disposed := disposed c; sent := sent c;
     awaiting := awaiting c ++ [req]; fired := fired c |}.

Definition answered (c : t) : t :=
  {| disposed := disposed c; sent := sent c;
     awaiting := tail (awaiting c); fired := fired c |}.

Definition fire (e : LocalEvent) (c : t) : t :=
  {| disposed := disposed c; sent := sent c;
     awaiting := awaiting c; fired := fired c ++ [e] |}.

Definition dispose (c : t) : t :=
  {| disposed := true; sent := sent c;
     awaiting := awaiting c; fired := fired c |}.
End DebugSessionConnection.

(** ** Threads *)

(** Modelled from the spec: [DebugThread] (model/debug-thread) carries the
    adapter's thread [raw] and the optional stop details; its contents are
    overwritten by every [update]; it is stopped while it has stop details;
    [clear] drops them. *)
Module DebugThread.
Record t := {
  raw : DebugProtocol.Thread;
  stoppedDetails : option StoppedDetails
}.

Definition stopped (th : t) : bool :=
  match stoppedDetails th with Some _ => true | None => false end.

Definition clear (th : t) : t :=
  {| raw := raw th; stoppedDetails := None |}.
End DebugThread.

(** ** The chain of thread refreshes

    [pendingThreads] is a promise to which every [updateThreads] chains one
    more job. [settled] lists the outcomes of the promises of the chain that
    have settled, oldest first (the chain starts from [Promise.resolve()]);
    [waiting] lists the jobs that have not finished, the first one being the
    job whose [threads] request is in flight. *)
Module PromiseChain.
Record t := {
  settled : list (Result unit);
  waiting : list (option StoppedDetails)
}.

Definition new : t := {| settled := []; waiting := [] |}.

Definition outcome (c : t) : Result unit := List.last (settled c) (Ok tt).

Definition chain (job : option StoppedDetails) (c : t) : t :=
  {| settled := settled c; waiting := waiting c ++ [job] |}.

Definition settle (r : Result unit) (c : t) : t :=
  {| settled := settled c ++ [r]; waiting := tail (waiting c) |}.
End PromiseChain.

(** ** The session *)

Inductive DebugState := Inactive | Initializing | Running | Stopped.

(** The numeric value of the enum, used by comparisons such as
    [state > DebugState.Initializing]. *)
Definition DebugState_value (st : DebugState) : Z :=
  match st with Inactive => 0 | Initializing => 1 | Running => 2 | Stopped => 3 end.

Module DebugSession.

(** Thread objects are shared between the thread map and the current
    thread, and are updated in place: [threadObjects] is the store of the
    objects and a thread is referred to by its index there. The breakpoint
    store is shared with the rest of the program; [breakpoints] is its
    current content. *)
Record t := {
  id : string;
  configuration : DebugConfiguration.t;
  breakpoints : BreakpointManager.t;
  connection : DebugSessionConnection.t;
  shown : list Error;
  _capabilities : DebugProtocol.Capabilities;
  threadObjects : list DebugThread.t;
  _threads : JsMap.t Z nat;
  _currentThread : option nat;
  initialized : bool;
  pendingThreads : PromiseChain.t;
  scheduled : bool;
  _breakpoints : JsMap.t string (list DebugBreakpoint.t);
  didChangeBreakpoints : list string;
  didChange : nat
}.

Definition new (id : string) (configuration : DebugConfiguration.t)
    (breakpoints : BreakpointManager.t) : t :=
  {| id := id; configuration := configuration; breakpoints := breakpoints;
     connection := DebugSessionConnection.new; shown := [];
     _capabilities := ∅; threadObjects := []; _threads := JsMap.empty;
     _currentThread := None; initialized := false;
     pendingThreads := PromiseChain.new; scheduled := false;
     _breakpoints := JsMap.empty; didChangeBreakpoints := []; didChange := 0 |}.

Definition with_breakpoints (x : BreakpointManager.t) (s : t) : t :=
  {| id := id s; configuration := configuration s; breakpoints := x;
     connection := connection s; shown := shown s;
     _capabilities := _capabilities s; threadObjects := threadObjects s;
     _threads := _threads s; _currentThread := _currentThread s;
     initialized := initialized s; pendingThreads := pendingThreads s;
     scheduled := scheduled s; _breakpoints := _breakpoints s;
     didChangeBreakpoints := didChangeBreakpoints s; didChange := didChange s |}.

Definition with_connection (x : DebugSessionConnection.t) (s : t) : t :=
  {| id := id s; configuration := configuration s; breakpoints := breakpoints s;
     connection := x; shown := shown s;
     _capabilities := _capabilities s; threadObjects := threadObjects s;
     _threads := _threads s; _currentThread := _currentThread s;
     initialized := initialized s; pendingThreads := pendingThreads s;
     scheduled := scheduled s; _breakpoints := _breakpoints s;
     didChangeBreakpoints := didChangeBreakpoints s; didChange := didChange s |}.

Definition with_shown (x : list Error) (s : t) : t :=
  {| id := id s; configuration := configuration s; breakpoints := breakpoints s;
     connection := connection s; shown := x;
     _capabilities := _capabilities s; threadObjects := threadObjects s;
     _threads := _threads s; _currentThread := _currentThread s;
     initialized := initialized s; pendingThreads := pendingThreads s;
     scheduled := scheduled s; _breakpoints := _breakpoints s;
     didChangeBreakpoints := didChangeBreakpoints s; didChange := didChange s |}.

Definition with_capabilities (x : DebugProtocol.Capabilities) (s : t) : t :=
  {| id := id s; configuration := configuration s; breakpoints := breakpoints s;
     connection := connection s; shown := shown s;
     _capabilities := x; threadObjects := threadObjects s;
     _threads := _threads s; _currentThread := _currentThread s;
     initialized := initialized s; pendingThreads := pendingThreads s;
     scheduled := scheduled s; _breakpoints := _breakpoints s;
     didChangeBreakpoints := didChangeBreakpoints s; didChange := didChange s |}.

Definition with_threadObjects (x : list DebugThread.t) (s : t) : t :=
  {| id := id s; configuration := configuration s; breakpoints := breakpoints s;
     connection := connection s; shown := shown s;
     _capabilities := _capabilities s; threadObjects := x;
     _threads := _threads s; _currentThread := _currentThread s;
     initialized := initialized s; pendingThreads := pendingThreads s;
     scheduled := scheduled s; _breakpoints := _breakpoints s;
     didChangeBreakpoints := didChangeBreakpoints s; didChange := didChange s |}.

Definition with_threads (x : JsMap.t Z nat) (s : t) : t :=
  {| id := id s; configuration := configuration s; breakpoints := breakpoints s;
     connection := connection s; shown := shown s;
     _capabilities := _capabilities s; threadObjects := threadObjects s;
     _threads := x; _currentThread := _currentThread s;
     initialized := initialized s; pendingThreads := pendingThreads s;
     scheduled := scheduled s; _breakpoints := _breakpoints s;
     didChangeBreakpoints := didChangeBreakpoints s; didChange := didChange s |}.

Definition with_initialized (x : bool) (s : t) : t :=
  {| id := id s; configuration := configuration s; breakpoints := breakpoints s;
     connection := connection s; shown := shown s;
     _capabilities := _capabilities s; threadObjects := threadObjects s;
     _threads := _threads s; _currentThread := _currentThread s;
     initialized := x; pendingThreads := pendingThreads s;
     scheduled := scheduled s; _breakpoints := _breakpoints s;
     didChangeBreakpoints := didChangeBreakpoints s; didChange := didChange s |}.

Definition with_pendingThreads (x : PromiseChain.t) (s : t) : t :=
  {| id := id s; configuration := configuration s; breakpoints := breakpoints s;
     connection := connection s; shown := shown s;
     _capabilities := _capabilities s; threadObjects := threadObjects s;
     _threads := _threads s; _currentThread := _currentThread s;
     initialized := initialized s; pendingThreads := x;
     scheduled := scheduled s; _breakpoints := _breakpoints s;
     didChangeBreakpoints := didChangeBreakpoints s; didChange := didChange s |}.

Definition with_scheduled (x : bool) (s : t) : t :=
  {| id := id s; configuration := configuration s; breakpoints := breakpoints s;
     connection := connection s; shown := shown s;
     _capabilities := _capabilities s; threadObjects := threadObjects s;
     _threads := _threads s; _currentThread := _currentThread s;
     initialized := initialized s; pendingThreads := pendingThreads s;
     scheduled := x; _breakpoints := _breakpoints s;
     didChangeBreakpoints := didChangeBreakpoints s; didChange := didChange s |}.

Definition with__breakpoints (x : JsMap.t string (list DebugBreakpoint.t)) (s : t) : t :=
  {| id := id s; configuration := configuration s; breakpoints := breakpoints s;
     connection := connection s; shown := shown s;
     _capabilities := _capabilities s; threadObjects := threadObjects s;
     _threads := _threads s; _currentThread := _currentThread s;
     initialized := initialized s; pendingThreads := pendingThreads s;
     scheduled := scheduled s; _breakpoints := x;
     didChangeBreakpoints := didChangeBreakpoints s; didChange := didChange s |}.

(** [fireDidChangeBreakpoints(uri)] *)
Definition fireDidChangeBreakpoints (uri : string) (s : t) : t :=
  {| id := id s; configuration := configuration s; breakpoints := breakpoints s;
     connection := connection s; shown := shown s;
     _capabilities := _capabilities s; threadObjects := threadObjects s;
     _threads := _threads s; _currentThread := _currentThread s;
     initialized := initialized s; pendingThreads := pendingThreads s;
     scheduled := scheduled s; _breakpoints := _breakpoints s;
     didChangeBreakpoints := didChangeBreakpoints s ++ [uri];
     didChange := didChange s |}.

(** The setter of [currentThread]: stores the thread and fires
    [onDidChange]. *)
Definition set_currentThread (thread : option nat) (s : t) : t :=
  {| id := id s; configuration := configuration s; breakpoints := breakpoints s;
     connection := connection s; shown := shown s;
     _capabilities := _capabilities s; threadObjects := threadObjects s;
     _threads := _threads s; _currentThread := thread;
     initialized := initialized s; pendingThreads := pendingThreads s;
     scheduled := scheduled s; _breakpoints := _breakpoints s;
     didChangeBreakpoints := didChangeBreakpoints s; didChange := S (didChange s) |}.

End DebugSession.

(** ** Computations of the session

    A method of the session is a function of the session's state that
    returns a value or throws, and the new state. What a request returns is
    decided by the adapter: [adapter] maps the log of the requests sent so
    far, the last one being the request to answer, to its outcome. The
    [threads] request is the exception: its response arrives as an input of
    its own (see [ThreadsResponse]), so that refreshes can overlap with
    other events. [showMessage] is the outcome of [messages.showMessage]. *)

Definition M (St A : Type) : Type := St → Result A * St.

Definition ret {St A} (a : A) : M St A := λ s, (Ok a, s).

Definition throw {St A} (e : Error) : M St A := λ s, (Throw e, s).

Definition bind {St A B} (c : M St A) (k : A → M St B) : M St B :=
  λ s, match c s with
       | (Ok a, s') => k a s'
       | (Throw e, s') => (Throw e, s')
       end.

(** [try { c } catch (e) { h e }] *)
Definition try_catch {St A} (c : M St A) (h : Error → M St A) : M St A :=
  λ s, match c s with
       | (Ok a, s') => (Ok a, s')
       | (Throw e, s') => h e s'
       end.

Definition modify {St} (f : St → St) : M St unit := λ s, (Ok tt, f s).

Definition gets {St A} (f : St → A) : M St A := λ s, (Ok (f s), s).

(** The outcome of a call to a service outside the state. *)
Definition lift {St A} (r : Result A) : M St A := λ s, (r, s).

Declare Scope session_scope.
Delimit Scope session_scope with session.
Notation "'let*' x := c 'in' k" := (bind c (λ x, k))
  (at level 10, x name, c at level 100, k at level 200) : session_scope.
Notation "c1 >>> c2" := (bind c1 (λ _, c2))
  (at level 62, right associativity) : session_scope.
Local Open Scope session_scope.

(** [for (const x of l) { await f x }] *)
Fixpoint for_of {St A} (l : list A) (f : A → M St unit) : M St unit :=
  match l with
  | [] => ret tt
  | x :: l' => f x >>> for_of l' f
  end.

Definition console_error {St} (e : Error) : M St unit := ret tt.

Abbreviation SessionM := (M DebugSession.t).

Section Session.

Variable adapter : list Request.t → Result ResponseBody.
Variable showMessage : Error → Result unit.

(** [sendRequest(command, args)] for the requests that are answered within
    the method that sends them. *)
Definition sendRequest (req : Request.t) : SessionM ResponseBody :=
  λ s,
    if DebugSessionConnection.disposed (DebugSession.connection s)
    then (Throw ConnectionClosed, s)
    else
      let c := DebugSessionConnection.send req (DebugSession.connection s) in
      (adapter (DebugSessionConnection.sent c), DebugSession.with_connection c s).

(** [connection['fire'](kind, ...)] *)
Definition fire (e : LocalEvent) : SessionM unit :=
  modify (λ s, DebugSession.with_connection
                 (DebugSessionConnection.fire e (DebugSession.connection s)) s).

(** [messages.showMessage({ type: Error, text: reason.message || ... })] *)
Definition show_error (reason : Error) : SessionM unit :=
  λ s, (showMessage reason,
        DebugSession.with_shown (DebugSession.shown s ++ [reason]) s).

(** *** Threads *)

(** [get threads()]: the thread objects of the map, in insertion order. *)
Definition get_threads (s : DebugSession.t) : list nat :=
  JsMap.values (DebugSession._threads s).

Definition thread_stopped (s : DebugSession.t) (r : nat) : bool :=
  match DebugSession.threadObjects s !! r with
  | Some th => DebugThread.stopped th
  | None => false
  end.

Definition stoppedThreads (s : DebugSession.t) : list nat :=
  List.filter (thread_stopped s) (get_threads s).

Definition runningThreads (s : DebugSession.t) : list nat :=
  List.filter (λ r, negb (thread_stopped s r)) (get_threads s).

(** [get state()] *)
Definition state (s : DebugSession.t) : DebugState :=
  if DebugSessionConnection.disposed (DebugSession.connection s) then Inactive
  else if negb (DebugSession.initialized s) then Initializing
  else match DebugSession._currentThread s with
       | Some thread => if thread_stopped s thread then Stopped else Running
       | None =>
           match stoppedThreads s with
           | _ :: _ => Stopped
           | [] => Running
           end
       end.

(** [updateCurrentThread(stoppedDetails?)] *)
Definition updateCurrentThread (stoppedDetails : option StoppedDetails)
    (s : DebugSession.t) : DebugSession.t :=
  let current_id :=
    th ← DebugSession._currentThread s ≫= (λ r, DebugSession.threadObjects s !! r);
    Some (DebugProtocol.id (DebugThread.raw th)) in
  let wanted_id :=
    match stoppedDetails with
    | Some d =>
        if negb (preserveFocusHint d)
           && match threadId d with Some i => negb (i =? 0) | None => false end
        then threadId d else current_id
    | None => current_id
    end in
  let found := wanted_id ≫= (λ i, JsMap.get i (DebugSession._threads s)) in
  DebugSession.set_currentThread
    (match found with
     | Some r => Some r
     | None => head (JsMap.values (DebugSession._threads s))
     end) s.

(** [thread.clear()] on the object [r] *)
Definition clear_object (s : DebugSession.t) (r : nat) : DebugSession.t :=
  DebugSession.with_threadObjects
    (alter DebugThread.clear r (DebugSession.threadObjects s)) s.

Definition clearThreads (s : DebugSession.t) : DebugSession.t :=
  updateCurrentThread None (fold_left clear_object (get_threads s) s).

Definition clearThread (threadId : Z) (s : DebugSession.t) : DebugSession.t :=
  updateCurrentThread None
    (match JsMap.get threadId (DebugSession._threads s) with
     | Some r => clear_object s r
     | None => s
     end).

(** One turn of the loop of [doUpdateThreads]: the object known for the id
    in the previous map is taken again, else a new object is made; it is
    put into the new map, and [thread.update({ raw, stoppedDetails })]
    overwrites both of its fields, so that it holds [data] afterwards. *)
Definition doUpdateThreads_step (existing : JsMap.t Z nat)
    (stoppedDetails : option StoppedDetails)
    (s : DebugSession.t) (raw : DebugProtocol.Thread) : DebugSession.t :=
  let id := DebugProtocol.id raw in
  let data :=
    {| DebugThread.raw := raw;
       DebugThread.stoppedDetails :=
         match stoppedDetails with
         | Some d => if bool_decide (threadId d = Some id) then Some d else None
         | None => None
         end |} in
  match JsMap.get id existing with
  | Some r =>
      DebugSession.with_threadObjects (<[r := data]> (DebugSession.threadObjects s))
        (DebugSession.with_threads (JsMap.set id r (DebugSession._threads s)) s)
  | None =>
      let r := length (DebugSession.threadObjects s) in
      DebugSession.with_threadObjects (DebugSession.threadObjects s ++ [data])
        (DebugSession.with_threads (JsMap.set id r (DebugSession._threads s)) s)
  end.

Definition doUpdateThreads (threads : list DebugProtocol.Thread)
    (stoppedDetails : option StoppedDetails) (s : DebugSession.t) : DebugSession.t :=
  let existing := DebugSession._threads s in
  updateCurrentThread stoppedDetails
    (fold_left (doUpdateThreads_step existing stoppedDetails) threads
       (DebugSession.with_threads JsMap.empty s)).

(** The job that [updateThreads] chains, from the point where the outcome
    of its [threads] request is known. On a response without a body,
    [response.body.threads] throws before [doUpdateThreads] is called. On a
    body without a thread list, [doUpdateThreads] has already replaced the
    thread map by an empty one when its loop throws, and
    [updateCurrentThread] is not reached: the map is empty and the current
    thread is the one of before. *)
Definition refresh (stoppedDetails : option StoppedDetails)
    (response : Result ResponseBody) : SessionM unit :=
  try_catch
    (match response with
     | Ok (ThreadsBody threads) => modify (doUpdateThreads threads stoppedDetails)
     | Ok NoBody => throw TypeError
     | Ok _ => modify (DebugSession.with_threads JsMap.empty) >>> throw TypeError
     | Throw e => throw e
     end)
    console_error.

(** A job of the chain settles: [then] runs the job only if the promise
    before it resolved, and passes a rejection on. *)
Definition settle_job (response : Result ResponseBody) (s : DebugSession.t)
    (job : option StoppedDetails) : DebugSession.t :=
  match PromiseChain.outcome (DebugSession.pendingThreads s) with
  | Throw e =>
      DebugSession.with_pendingThreads
        (PromiseChain.settle (Throw e) (DebugSession.pendingThreads s)) s
  | Ok _ =>
      let '(r, s') := refresh job response s in
      DebugSession.with_pendingThreads
        (PromiseChain.settle r (DebugSession.pendingThreads s')) s'
  end.

(** The first waiting job starts: it sends its [threads] request. If the
    promise before it rejected, or the connection is disposed (the request
    fails at once), the waiting jobs settle one after the other without a
    round trip. *)
Definition start_pending (s : DebugSession.t) : DebugSession.t :=
  match PromiseChain.waiting (DebugSession.pendingThreads s) with
  | [] => s
  | jobs =>
      match PromiseChain.outcome (DebugSession.pendingThreads s),
            DebugSessionConnection.disposed (DebugSession.connection s) with
      | Ok _, false =>
          DebugSession.with_connection
            (DebugSessionConnection.await Request.threads
               (DebugSessionConnection.send Request.threads (DebugSession.connection s))) s
      | _, _ => fold_left (settle_job (Throw ConnectionClosed)) jobs s
      end
  end.

(** [updateThreads(stoppedDetails)], up to the point where the call
    returns its promise:
    [this.pendingThreads = this.pendingThreads.then(job)]. The job starts
    at once when nothing is waiting before it. *)
Definition updateThreads (stoppedDetails : option StoppedDetails)
    (s : DebugSession.t) : DebugSession.t :=
  let idle :=
    match PromiseChain.waiting (DebugSession.pendingThreads s) with
    | [] => true
    | _ => false
    end in
  let s :=
    DebugSession.with_pendingThreads
      (PromiseChain.chain stoppedDetails (DebugSession.pendingThreads s)) s in
  if idle then start_pending s else s.

(** The response of the [threads] request in flight arrives (a failure if
    the connection has been disposed in between): the job that sent it
    finishes and the next one starts. *)
Definition threads_response (response : Result ResponseBody)
    (s : DebugSession.t) : DebugSession.t :=
  match PromiseChain.waiting (DebugSession.pendingThreads s),
        DebugSessionConnection.awaiting (DebugSession.connection s) with
  | job :: _, _ :: _ =>
      let response :=
        if DebugSessionConnection.disposed (DebugSession.connection s)
        then Throw ConnectionClosed else response in
      let s :=
        DebugSession.with_connection
          (DebugSessionConnection.answered (DebugSession.connection s)) s in
      start_pending (settle_job response s job)
  | _, _ => s
  end.

(** [scheduleUpdateThreads()]: the debounced refresh is armed; it runs once
    when the quiet period has elapsed. *)
Definition scheduleUpdateThreads (s : DebugSession.t) : DebugSession.t :=
  DebugSession.with_scheduled true s.

Definition debounce_elapsed (s : DebugSession.t) : DebugSession.t :=
  if DebugSession.scheduled s
  then updateThreads None (DebugSession.with_scheduled false s)
  else s.

(** *** Capabilities *)

(** [Object.assign(this._capabilities, capabilities)]: every field of the
    payload is written over the stored set. *)
Definition updateCapabilities (capabilities : DebugProtocol.Capabilities)
    (s : DebugSession.t) : DebugSession.t :=
  DebugSession.with_capabilities (capabilities ∪ DebugSession._capabilities s) s.

(** *** Breakpoints *)

(** [getBreakpoints(uri?)] *)
Definition getBreakpoints (uri : option string) (s : DebugSession.t)
    : list DebugBreakpoint.t :=
  match uri with
  | Some u => default [] (JsMap.get u (DebugSession._breakpoints s))
  | None => concat (JsMap.values (DebugSession._breakpoints s))
  end.

Definition clearBreakpoints (s : DebugSession.t) : DebugSession.t :=
  let uris := JsMap.keys (DebugSession._breakpoints s) in
  fold_left (λ s uri, DebugSession.fireDidChangeBreakpoints uri s) uris
    (DebugSession.with__breakpoints JsMap.empty s).

(** [getAffectedUris(uri?)] *)
Definition getAffectedUris (uri : option string) (s : DebugSession.t) : list string :=
  match uri with
  | Some u => [u]
  | None => BreakpointManager.getUris (DebugSession.breakpoints s)
  end.

(** [response.body.breakpoints.map((raw, index) => enabled[index].update({ raw }))],
    seen from [all]: [enabled] holds the enabled objects of [all] in the
    same order, so the answers go, in order, to the enabled members of
    [all]. *)
Fixpoint update_enabled (all : list DebugBreakpoint.t)
    (raws : list DebugProtocol.Breakpoint) : list DebugBreakpoint.t :=
  match all, raws with
  | [], _ => []
  | _, [] => all
  | b :: rest, r :: raws' =>
      if DebugBreakpoint.enabled b
      then DebugBreakpoint.update r b :: update_enabled rest raws'
      else b :: update_enabled rest raws
  end.

(** The breakpoints of the [setBreakpoints] request:
    [enabled.map(({ origin }) => origin.raw)]. *)
Definition origin_raws (enabled : list DebugBreakpoint.t)
    : list DebugProtocol.SourceBreakpoint :=
  omap (λ b, SourceBreakpoint.raw <$> DebugBreakpoint.origin b) enabled.

(** The body of the loop of [updateBreakpoints] for one resource. The
    source of the request is identified by the resource's URI. An answer
    with more entries than breakpoints sent fails on [enabled[index]]. *)
Definition updateBreakpoints_of (sourceModified : bool) (affectedUri : string)
    : SessionM unit :=
  let* all := gets (λ s, map DebugBreakpoint.new
                     (BreakpointManager.findMarkers (Some affectedUri)
                        (DebugSession.breakpoints s))) in
  let enabled := List.filter DebugBreakpoint.enabled all in
  let* response :=
    sendRequest (Request.setBreakpoints affectedUri sourceModified (origin_raws enabled)) in
  match response with
  | SetBreakpointsBody raws =>
      if (length enabled <? length raws)%nat then throw TypeError
      else
        let distinct := dedupBreakpoints (update_enabled all raws) in
        modify (λ s, DebugSession.fireDidChangeBreakpoints affectedUri
                       (DebugSession.with__breakpoints
                          (JsMap.set affectedUri distinct (DebugSession._breakpoints s)) s))
  | _ => throw TypeError
  end.

Definition updateBreakpoints (uri : option string) (sourceModified : bool) : SessionM unit :=
  let* uris := gets (getAffectedUris uri) in
  for_of uris (updateBreakpoints_of sourceModified).

(** *** Life cycle *)

(** [initialize()]: [this._capabilities = response.body || {}]. *)
Definition initialize : SessionM unit :=
  let* adapterID := gets (λ s, DebugConfiguration.type (DebugSession.configuration s)) in
  let* response := sendRequest (Request.initialize adapterID) in
  modify (DebugSession.with_capabilities
            (match response with
             | InitializeBody capabilities => capabilities
             | _ => ∅
             end)).

Definition launchOrAttach : SessionM unit :=
  try_catch
    (let* configuration := gets DebugSession.configuration in
     if String.eqb (DebugConfiguration.request configuration) "attach"
     then sendRequest (Request.attach configuration) >>> ret tt
     else sendRequest (Request.launch configuration) >>> ret tt)
    (λ reason,
       fire (exited reason) >>>
       show_error reason >>>
       throw reason).

Definition start : SessionM unit := initialize >>> launchOrAttach.

(** [configure()], run without anything else being handled while it waits
    for the adapter; [configure_by_turns] below is the method one [await]
    at a time. Its last step waits for the refresh it has chained; the
    refresh itself ends with [threads_response]. *)
Definition configure : SessionM unit :=
  updateBreakpoints None false >>>
  (let* capabilities := gets DebugSession._capabilities in
   if truthy (capabilities !! "supportsConfigurationDoneRequest")
   then sendRequest Request.configurationDone >>> ret tt
   else ret tt) >>>
  modify (DebugSession.with_initialized true) >>>
  modify (updateThreads None).

Definition disconnect (restart : bool) : SessionM unit :=
  sendRequest (Request.disconnect restart) >>> ret tt.

(** [dispose()]: [toDispose] is taken to dispose its elements from the last
    one to the first, so the connection closes, then the breakpoints and
    the threads are cleared; a second call does nothing. *)
Definition dispose (s : DebugSession.t) : DebugSession.t :=
  if DebugSessionConnection.disposed (DebugSession.connection s) then s
  else
    doUpdateThreads [] None
      (clearBreakpoints
         (DebugSession.with_connection
            (DebugSessionConnection.dispose (DebugSession.connection s)) s)).

End Session.

(** ** Events and inputs of a session *)

Module DebugEvent.
Inductive t :=
| initialized
| continued (allThreadsContinued : option bool) (threadId : Z)
| stopped (body : StoppedDetails)
| thread (reason : string) (threadId : Z)
| capabilities (capabilities : DebugProtocol.Capabilities).
End DebugEvent.

(** What can happen to a session: the adapter delivers an event, the
    [threads] request in flight is answered, the quiet period of the
    debounced refresh elapses, the breakpoint store announces a change of a
    resource (its new content comes with it), the session is disposed. *)
Inductive Input :=
| Deliver (e : DebugEvent.t)
| ThreadsResponse (response : Result ResponseBody)
| DebounceElapsed
| MarkersChanged (uri : string) (store : BreakpointManager.t)
| Dispose.

Section Machine.

Variable adapter : list Request.t → Result ResponseBody.

(** The listeners registered by the constructor. After [stopped], the
    frames of the current thread are fetched once the refresh is done;
    frames belong to the thread objects and are not part of this model.
    The listener of [initialized] is run here up to the refresh it chains,
    as when no other input is handled before the adapter has answered its
    requests; [configure_by_turns] lets other inputs in at every [await]. *)
Definition on_event (e : DebugEvent.t) : SessionM unit :=
  match e with
  | DebugEvent.initialized => configure adapter
  | DebugEvent.continued allThreadsContinued threadId =>
      if bool_decide (allThreadsContinued ≠ Some false)
      then modify clearThreads
      else modify (clearThread threadId)
  | DebugEvent.stopped body => modify (updateThreads (Some body))
  | DebugEvent.thread reason threadId =>
      if String.eqb reason "started" then modify scheduleUpdateThreads
      else if String.eqb reason "exited" then modify (clearThread threadId)
      else ret tt
  | DebugEvent.capabilities capabilities =>
      modify (updateCapabilities capabilities)
  end.

Definition step (s : DebugSession.t) (i : Input) : DebugSession.t :=
  match i with
  | Deliver e =>
      if DebugSessionConnection.disposed (DebugSession.connection s) then s
      else snd (on_event e s)
  | ThreadsResponse response => threads_response response s
  | DebounceElapsed => debounce_elapsed s
  | MarkersChanged uri store =>
      if DebugSessionConnection.disposed (DebugSession.connection s) then s
      else snd (updateBreakpoints adapter (Some uri) true
                  (DebugSession.with_breakpoints store s))
  | Dispose => dispose s
  end.

Definition run (s : DebugSession.t) (inputs : list Input) : DebugSession.t :=
  fold_left step inputs s.

End Machine.

(** ** [configure()], one [await] at a time

    [configure()] is suspended at every request it sends, and the session
    handles what comes in before the answer. A task is [configure()]
    suspended: at the [setBreakpoints] request of the resource
    [affectedUri], with the breakpoint objects [all] made for it and the
    resources [uris] still to visit; at [configurationDone]; at the refresh
    it has chained; or ended by an exception. [answer] is the outcome of
    the request, which the adapter has decided when the request was sent
    and which the task sees when it is resumed. *)
Module ConfigureTask.
Inductive t :=
| awaiting_setBreakpoints (affectedUri : string) (all : list DebugBreakpoint.t)
    (uris : list string) (answer : Result ResponseBody)
| awaiting_configurationDone (answer : Result ResponseBody)
| awaiting_updateThreads
| failed (reason : Error).
End ConfigureTask.

(** What the session handles while [configure()] is suspended: the answer
    to the request of [configure], or an input that concerns the threads.
    The breakpoint store and the capabilities do not change and the session
    is not disposed in between. *)
Module WhileConfiguring.
Inductive t :=
| answer
| stopped (body : StoppedDetails)
| continued (allThreadsContinued : option bool) (threadId : Z)
| thread (reason : string) (threadId : Z)
| threads_response (response : Result ResponseBody)
| debounce_elapsed.

Definition input (x : t) : option Input :=
  match x with
  | answer => None
  | stopped body => Some (Deliver (DebugEvent.stopped body))
  | continued allThreadsContinued threadId =>
      Some (Deliver (DebugEvent.continued allThreadsContinued threadId))
  | thread reason threadId => Some (Deliver (DebugEvent.thread reason threadId))
  | threads_response response => Some (ThreadsResponse response)
  | debounce_elapsed => Some DebounceElapsed
  end.
End WhileConfiguring.

Section Configuring.

Variable adapter : list Request.t → Result ResponseBody.

(** [this.initialized = true; await this.updateThreads(undefined)] *)
Definition configured (s : DebugSession.t) : ConfigureTask.t * DebugSession.t :=
  (ConfigureTask.awaiting_updateThreads,
   updateThreads None (DebugSession.with_initialized true s)).

(** [configure()] from the end of [updateBreakpoints] on. *)
Definition synced (s : DebugSession.t) : ConfigureTask.t * DebugSession.t :=
  if truthy (DebugSession._capabilities s !! "supportsConfigurationDoneRequest")
  then
    let '(answer, s) := sendRequest adapter Request.configurationDone s in
    (ConfigureTask.awaiting_configurationDone answer, s)
  else configured s.

(** The loop of [updateBreakpoints] over the resources [uris], up to its
    first request. *)
Definition sync (uris : list string) (s : DebugSession.t)
    : ConfigureTask.t * DebugSession.t :=
  match uris with
  | [] => synced s
  | affectedUri :: uris =>
      let all := map DebugBreakpoint.new
                   (BreakpointManager.findMarkers (Some affectedUri)
                      (DebugSession.breakpoints s)) in
      let enabled := List.filter DebugBreakpoint.enabled all in
      let '(answer, s) :=
        sendRequest adapter
          (Request.setBreakpoints affectedUri false (origin_raws enabled)) s in
      (ConfigureTask.awaiting_setBreakpoints affectedUri all uris answer, s)
  end.

(** The body of the loop of [updateBreakpoints] after its request. *)
Definition keep_answer (affectedUri : string) (all : list DebugBreakpoint.t)
    (response : ResponseBody) : SessionM unit :=
  match response with
  | SetBreakpointsBody raws =>
      if (length (List.filter DebugBreakpoint.enabled all) <? length raws)%nat
      then throw TypeError
      else
        let distinct := dedupBreakpoints (update_enabled all raws) in
        modify (λ s, DebugSession.fireDidChangeBreakpoints affectedUri
                       (DebugSession.with__breakpoints
                          (JsMap.set affectedUri distinct (DebugSession._breakpoints s)) s))
  | _ => throw TypeError
  end.

(** The answer arrives and [configure()] goes on to its next [await]. *)
Definition resume (task : ConfigureTask.t) (s : DebugSession.t)
    : ConfigureTask.t * DebugSession.t :=
  match task with
  | ConfigureTask.awaiting_setBreakpoints affectedUri all uris answer =>
      match (let* response := lift answer in keep_answer affectedUri all response) s with
      | (Ok _, s) => sync uris s
      | (Throw reason, s) => (ConfigureTask.failed reason, s)
      end
  | ConfigureTask.awaiting_configurationDone answer =>
      match answer with
      | Ok _ => configured s
      | Throw reason => (ConfigureTask.failed reason, s)
      end
  | ConfigureTask.awaiting_updateThreads | ConfigureTask.failed _ => (task, s)
  end.

Definition turn (c : ConfigureTask.t * DebugSession.t) (x : WhileConfiguring.t)
    : ConfigureTask.t * DebugSession.t :=
  match WhileConfiguring.input x with
  | Some i => (fst c, step adapter (snd c) i)
  | None => resume (fst c) (snd c)
  end.

(** The listener of [initialized] calls [configure()]; [turns] is what the
    session handles from then on. *)
Definition configure_by_turns (s : DebugSession.t) (turns : list WhileConfiguring.t)
    : ConfigureTask.t * DebugSession.t :=
  fold_left turn turns (sync (getAffectedUris None s) s).

End Configuring.

(** ** The session manager *)

Module DebugSessionManager.

(** The sessions are objects shared between [_sessions] and
    [_currentSession]: [sessionObjects] is the store of the objects and a
    session is referred to by its index there. [created] lists the ids
    that the debug service has handed out, [stopped] the ids it was asked
    to stop, and [didChangeActive] the active-session changes fired, all
    oldest first. *)
Record t := {
  breakpoints : BreakpointManager.t;
  sessionObjects : list DebugSession.t;
  _sessions : JsMap.t string nat;
  configurationIds : gmap string Z;
  _currentSession : option nat;
  created : list string;
  stopped : list string;
  didChangeActive : list (option nat * option nat)
}.

Definition new (breakpoints : BreakpointManager.t) : t :=
  {| breakpoints := breakpoints; sessionObjects := []; _sessions := JsMap.empty;
     configurationIds := ∅; _currentSession := None; created := [];
     stopped := []; didChangeActive := [] |}.

Definition with_breakpoints (x : BreakpointManager.t) (m : t) : t :=
  {| breakpoints := x; sessionObjects := sessionObjects m;
     _sessions := _sessions m; configurationIds := configurationIds m;
     _currentSession := _currentSession m; created := created m;
     stopped := stopped m; didChangeActive := didChangeActive m |}.

Definition with_sessionObjects (x : list DebugSession.t) (m : t) : t :=
  {| breakpoints := breakpoints m; sessionObjects := x;
     _sessions := _sessions m; configurationIds := configurationIds m;
     _currentSession := _currentSession m; created := created m;
     stopped := stopped m; didChangeActive := didChangeActive m |}.

Definition with_sessions (x : JsMap.t string nat) (m : t) : t :=
  {| breakpoints := breakpoints m; sessionObjects := sessionObjects m;
     _sessions := x; configurationIds := configurationIds m;
     _currentSession := _currentSession m; created := created m;
     stopped := stopped m; didChangeActive := didChangeActive m |}.

Definition with_configurationIds (x : gmap string Z) (m : t) : t :=
  {| breakpoints := breakpoints m; sessionObjects := sessionObjects m;
     _sessions := _sessions m; configurationIds := x;
     _currentSession := _currentSession m; created := created m;
     stopped := stopped m; didChangeActive := didChangeActive m |}.

Definition with_created (x : list string) (m : t) : t :=
  {| breakpoints := breakpoints m; sessionObjects := sessionObjects m;
     _sessions := _sessions m; configurationIds := configurationIds m;
     _currentSession := _currentSession m; created := x;
     stopped := stopped m; didChangeActive := didChangeActive m |}.

Definition with_stopped (x : list string) (m : t) : t :=
  {| breakpoints := breakpoints m; sessionObjects := sessionObjects m;
     _sessions := _sessions m; configurationIds := configurationIds m;
     _currentSession := _currentSession m; created := created m;
     stopped := x; didChangeActive := didChangeActive m |}.

(** What [getBreakpoints] and [restart] take as a first argument. *)
Inductive Arg :=
| ArgURI (uri : string)
| ArgSession (session : DebugSession.t).

Definition with_configuration (c : DebugConfiguration.t) (s : DebugSession.t)
    : DebugSession.t :=
  {| DebugSession.id := DebugSession.id s;
     DebugSession.configuration := c;
     DebugSession.breakpoints := DebugSession.breakpoints s;
     DebugSession.connection := DebugSession.connection s;
     DebugSession.shown := DebugSession.shown s;
     DebugSession._capabilities := DebugSession._capabilities s;
     DebugSession.threadObjects := DebugSession.threadObjects s;
     DebugSession._threads := DebugSession._threads s;
     DebugSession._currentThread := DebugSession._currentThread s;
     DebugSession.initialized := DebugSession.initialized s;
     DebugSession.pendingThreads := DebugSession.pendingThreads s;
     DebugSession.scheduled := DebugSession.scheduled s;
     DebugSession._breakpoints := DebugSession._breakpoints s;
     DebugSession.didChangeBreakpoints := DebugSession.didChangeBreakpoints s;
     DebugSession.didChange := DebugSession.didChange s |}.

Section Manager.

(** The services the manager consumes. [resolveDebugConfiguration] and
    [create] belong to the debug service, [resolve] to the variable
    resolver; [create] sees the ids handed out so far. Every session
    talks to the adapter of its own id. *)
Variable resolveDebugConfiguration : DebugConfiguration.t → Result DebugConfiguration.t.
Variable resolve : DebugConfiguration.t → Result DebugConfiguration.t.
Variable create : list string → DebugConfiguration.t → Result string.
Variable adapter : string → list Request.t → Result ResponseBody.
Variable showMessage : Error → Result unit.

(** [resolveConfiguration(configuration)] *)
Definition resolveConfiguration (configuration : DebugConfiguration.t)
    : M t DebugConfiguration.t :=
  if DebugConfiguration.__resovled configuration then ret configuration
  else
    let* resolvedConfiguration := lift (resolveDebugConfiguration configuration) in
    let* ids := gets configurationIds in
    let configurationId :=
      match ids !! DebugConfiguration.name configuration with
      | Some n => n + 1
      | None => 0
      end in
    modify (with_configurationIds
              (<[DebugConfiguration.name configuration := configurationId]> ids)) >>>
    lift (resolve
            {| DebugConfiguration.type := DebugConfiguration.type resolvedConfiguration;
               DebugConfiguration.request := DebugConfiguration.request resolvedConfiguration;
               DebugConfiguration.name := DebugConfiguration.name resolvedConfiguration;
               DebugConfiguration.__resovled := true;
               DebugConfiguration.__configurationId := Some configurationId;
               DebugConfiguration.__restart := DebugConfiguration.__restart resolvedConfiguration |}).

(** [get sessions()]: the sessions of the map that are not inactive. *)
Definition sessions (m : t) : list nat :=
  List.filter
    (λ r, match sessionObjects m !! r with
          | Some s => DebugState_value (state s) >? DebugState_value Inactive
          | None => false
          end)
    (JsMap.values (_sessions m)).

(** The setter of [currentSession]. *)
Definition set_currentSession (current : option nat) (m : t) : t :=
  if bool_decide (_currentSession m = current) then m
  else
    {| breakpoints := breakpoints m; sessionObjects := sessionObjects m;
       _sessions := _sessions m; configurationIds := configurationIds m;
       _currentSession := current; created := created m;
       stopped := stopped m;
       didChangeActive := didChangeActive m ++ [(_currentSession m, current)] |}.

Definition updateCurrentSession (session : option nat) (m : t) : t :=
  set_currentSession
    (match session with
     | Some r => Some r
     | None => head (sessions m)
     end) m.

Definition currentSession (m : t) : option DebugSession.t :=
  _currentSession m ≫= (λ r, sessionObjects m !! r).

(** [get state()] of the manager *)
Definition manager_state (m : t) : DebugState :=
  match currentSession m with
  | Some session => state session
  | None => Inactive
  end.

(** [remove(sessionId)] *)
Definition remove (sessionId : string) (m : t) : t :=
  let m := with_sessions (JsMap.delete sessionId (_sessions m)) m in
  match currentSession m with
  | Some current =>
      if String.eqb (DebugSession.id current) sessionId
      then updateCurrentSession None m else m
  | None => m
  end.

(** [doDestroy(session)]. Disposing the session clears its threads,
    which fires its [onDidChange]; the manager's listener answers by
    making that session the current one, before [remove] runs. *)
Definition doDestroy (m : t) (r : nat) : t :=
  match sessionObjects m !! r with
  | Some session =>
      let m := with_stopped (stopped m ++ [DebugSession.id session]) m in
      let session' := dispose session in
      let m := with_sessionObjects (<[r := session']> (sessionObjects m)) m in
      let m :=
        if (DebugSession.didChange session <? DebugSession.didChange session')%nat
        then updateCurrentSession (Some r) m else m in
      remove (DebugSession.id session) m
  | None => m
  end.

(** [destroy(sessionId?)]: an absent or empty id destroys every session. *)
Definition destroy (sessionId : option string) (m : t) : t :=
  match sessionId with
  | Some i =>
      if String.eqb i EmptyString then fold_left doDestroy (JsMap.values (_sessions m)) m
      else match JsMap.get i (_sessions m) with
           | Some r => doDestroy m r
           | None => m
           end
  | None => fold_left doDestroy (JsMap.values (_sessions m)) m
  end.

(** A computation of the session object [r], run inside the manager. *)
Definition on_session {A} (r : nat) (c : M DebugSession.t A) : M t A :=
  λ m, match sessionObjects m !! r with
       | Some s =>
           let '(a, s') := c s in
           (a, with_sessionObjects (<[r := s']> (sessionObjects m)) m)
       | None => (Throw TypeError, m)
       end.

(** [doStart(sessionId, debugConfiguration)]. Every session factory
    builds a [DebugSession]. The session is started without waiting for
    it; the listener of [exited] destroys the session when its start
    fires that event. *)
Definition doStart (sessionId : string) (debugConfiguration : DebugConfiguration.t)
    : M t nat :=
  λ m,
    let r := length (sessionObjects m) in
    let session := DebugSession.new sessionId debugConfiguration (breakpoints m) in
    let m := with_sessionObjects (sessionObjects m ++ [session]) m in
    let m := with_sessions (JsMap.set sessionId r (_sessions m)) m in
    let m := snd (on_session r (start (adapter sessionId) showMessage) m) in
    let m :=
      match sessionObjects m !! r with
      | Some s =>
          match DebugSessionConnection.fired (DebugSession.connection s) with
          | [] => m
          | _ :: _ => destroy (Some sessionId) m
          end
      | None => m
      end in
    (Ok r, m).

(** [start(configuration)] *)
Definition manager_start (configuration : DebugConfiguration.t) : M t nat :=
  let* resolvedConfiguration := resolveConfiguration configuration in
  let* sessionId := (λ m, (create (created m) resolvedConfiguration, m)) in
  modify (λ m, with_created (created m ++ [sessionId]) m) >>>
  doStart sessionId resolvedConfiguration.

(** [doRestart(session, restart?)]: the configuration of the session
    is marked and started again. A session holds its configuration by
    value here. In the source the restarted session and the session that
    replaces it share one configuration object, which is written to again
    only by a further [doRestart]: that one also changes the [__restart]
    mark seen by the older session, which this model leaves as it was. *)
Definition doRestart (r : nat) (restart : option JsValue) : M t nat :=
  λ m,
    match sessionObjects m !! r with
    | None => (Throw TypeError, m)
    | Some session =>
        (on_session r (disconnect (adapter (DebugSession.id session)) true) >>>
         let* configuration :=
           on_session r
             (λ s,
                let c := DebugSession.configuration s in
                let c :=
                  {| DebugConfiguration.type := DebugConfiguration.type c;
                     DebugConfiguration.request := DebugConfiguration.request c;
                     DebugConfiguration.name := DebugConfiguration.name c;
                     DebugConfiguration.__resovled := DebugConfiguration.__resovled c;
                     DebugConfiguration.__configurationId :=
                       DebugConfiguration.__configurationId c;
                     DebugConfiguration.__restart := restart |} in
                (Ok c, with_configuration c s)) in
         manager_start configuration) m
    end.

(** [restart(session = this.currentSession)] *)
Definition manager_restart (session : option nat) : M t (option nat) :=
  λ m,
    let session :=
      match session with
      | Some r => Some r
      | None => _currentSession m
      end in
    match session with
    | None => (Ok None, m)
    | Some r =>
        match sessionObjects m !! r with
        | None => (Throw TypeError, m)
        | Some s =>
            if truthy (DebugSession._capabilities s !! "supportsRestartRequest")
            then (on_session r (sendRequest (adapter (DebugSession.id s)) Request.restart)
                  >>> ret (Some r)) m
            else (let* r' := doRestart r None in ret (Some r')) m
        end
    end.

(** [getBreakpoints(arg?, arg2?)] *)
Definition getBreakpoints (arg : option Arg) (arg2 : option DebugSession.t)
    (m : t) : list DebugBreakpoint.t :=
  let uri := match arg with Some (ArgURI u) => Some u | _ => None end in
  let session :=
    match arg with
    | Some (ArgSession s) => Some s
    | _ => match arg2 with
           | Some s => Some s
           | None => currentSession m
           end
    end in
  let declared :=
    map DebugBreakpoint.new (BreakpointManager.findMarkers uri (breakpoints m)) in
  match session with
  | Some s =>
      if DebugState_value (state s) >? DebugState_value Initializing
      then getBreakpoints None s
      else declared
  | None => declared
  end.

(** *** Inputs of the manager

    A caller starts, restarts or destroys a session; a session receives
    an input of its own; the adapter of a session reports [terminated]
    or [exited]; the breakpoint store changes. *)
Inductive ManagerInput :=
| Start (configuration : DebugConfiguration.t)
| Restart (session : option nat)
| Destroy (sessionId : option string)
| ToSession (r : nat) (i : Input)
| Terminated (r : nat) (restart : option JsValue)
| Exited (r : nat)
| StoreChanged (uri : string) (store : BreakpointManager.t).

Definition listening (m : t) (r : nat) : option DebugSession.t :=
  s ← sessionObjects m !! r;
  if DebugSessionConnection.disposed (DebugSession.connection s)
  then None else Some s.

Definition manager_step (m : t) (i : ManagerInput) : t :=
  match i with
  | Start configuration => snd (manager_start configuration m)
  | Restart session => snd (manager_restart session m)
  | Destroy sessionId => destroy sessionId m
  | ToSession r i =>
      match sessionObjects m !! r with
      | Some s =>
          let s' := step (adapter (DebugSession.id s)) s i in
          let m := with_sessionObjects (<[r := s']> (sessionObjects m)) m in
          if (DebugSession.didChange s <? DebugSession.didChange s')%nat
          then updateCurrentSession (Some r) m else m
      | None => m
      end
  | Terminated r restart =>
      match listening m r with
      | Some s =>
          if truthy restart then snd (doRestart r restart m)
          else snd (on_session r (disconnect (adapter (DebugSession.id s)) false) m)
      | None => m
      end
  | Exited r =>
      match listening m r with
      | Some s => destroy (Some (DebugSession.id s)) m
      | None => m
      end
  | StoreChanged uri store =>
      let m := with_breakpoints store m in
      with_sessionObjects
        (map (λ s, step (adapter (DebugSession.id s)) s (MarkersChanged uri store))
           (sessionObjects m)) m
  end.

Definition manager_run (m : t) (inputs : list ManagerInput) : t :=
  fold_left manager_step inputs m.

End Manager.

End DebugSessionManager.

(** * Vocabulary of the properties *)

(** ** Breakpoints *)

(** A breakpoint stands for at least one declaration. *)
Definition has_origin (b : DebugBreakpoint.t) : Prop :=
  DebugBreakpoint.origins b ≠ [].

Definition on_line (l : Z) (b : DebugBreakpoint.t) : bool :=
  bool_decide (DebugBreakpoint.line b = l).

(** What [dedup_step] does to the entry of one line when one more
    breakpoint of that line arrives. *)
Definition merge (found : option DebugBreakpoint.t) (breakpoint : DebugBreakpoint.t)
    : option DebugBreakpoint.t :=
  match found with
  | None => Some breakpoint
  | Some p =>
      Some (if DebugBreakpoint.kept_line breakpoint
            then DebugBreakpoint.push_origins (DebugBreakpoint.origins p) breakpoint
            else DebugBreakpoint.push_origins (DebugBreakpoint.origins breakpoint) p)
  end.

(** The table of [dedupBreakpoints] is keyed by the lines of its entries. *)
Definition lines_ok (lines : JsMap.t Z DebugBreakpoint.t) : Prop :=
  NoDup (JsMap.keys lines) ∧
  Forall (λ kv, DebugBreakpoint.line (snd kv) = fst kv ∧ has_origin (snd kv)) lines.

(** The reading of the [setBreakpoints] request that deduplicates before
    sending: the enabled members of the line-deduplicated set of the
    declared breakpoints. *)
Definition deduplicated_enabled (declared : list SourceBreakpoint.t)
    : list DebugProtocol.SourceBreakpoint :=
  origin_raws
    (List.filter DebugBreakpoint.enabled
       (dedupBreakpoints (map DebugBreakpoint.new declared))).

(** ** Life cycle *)

(** The request by which [launchOrAttach] starts the debuggee. *)
Definition launch_request (c : DebugConfiguration.t) : Request.t :=
  if String.eqb (DebugConfiguration.request c) "attach"
  then Request.attach c else Request.launch c.

(** The [setBreakpoints] request of the first sync of a resource. *)
Definition first_sync_request (store : BreakpointManager.t) (uri : string) : Request.t :=
  Request.setBreakpoints uri false
    (map SourceBreakpoint.raw
       (List.filter SourceBreakpoint.enabled
          (BreakpointManager.findMarkers (Some uri) store))).

(** The adapter answers every [setBreakpoints] request with no more results
    than breakpoints requested, and accepts [configurationDone]. *)
Definition acknowledges (adapter : list Request.t → Result ResponseBody) : Prop :=
  (∀ log uri sourceModified bps,
     ∃ raws, adapter (log ++ [Request.setBreakpoints uri sourceModified bps])
             = Ok (SetBreakpointsBody raws) ∧ (length raws ≤ length bps)%nat) ∧
  (∀ log, ∃ body, adapter (log ++ [Request.configurationDone]) = Ok body).

(** No refresh is waiting, and the chain of refreshes has not rejected. *)
Definition chain_idle (s : DebugSession.t) : Prop :=
  PromiseChain.waiting (DebugSession.pendingThreads s) = [] ∧
  PromiseChain.outcome (DebugSession.pendingThreads s) = Ok tt.

(** The requests of [configure], in order: the first sync of every resource
    of the store, then [configurationDone] when the capability is set. *)
Definition configure_requests (store : BreakpointManager.t) (supported : bool)
    : list Request.t :=
  map (first_sync_request store) (BreakpointManager.getUris store)
  ++ (if supported then [Request.configurationDone] else []).

(** The requests sent so far, those of the thread refreshes left out. *)
Definition own_requests (s : DebugSession.t) : list Request.t :=
  List.filter (λ r, match r with Request.threads => false | _ => true end)
    (DebugSessionConnection.sent (DebugSession.connection s)).

(** The number of refreshes chained so far. *)
Definition chained (s : DebugSession.t) : nat :=
  (length (PromiseChain.settled (DebugSession.pendingThreads s))
   + length (PromiseChain.waiting (DebugSession.pendingThreads s)))%nat.

(** The number of answers among the turns. *)
Definition answers (turns : list WhileConfiguring.t) : nat :=
  length (List.filter (λ x, match x with WhileConfiguring.answer => true | _ => false end)
            turns).

(** The refreshes chained by an input that is not of [configure]:
    [stopped] chains one, and so does the debounced refresh if it is
    armed; [scheduled] tells whether it is. *)
Definition chains_refresh (scheduled : bool) (x : WhileConfiguring.t) : nat :=
  match x with
  | WhileConfiguring.stopped _ => 1
  | WhileConfiguring.debounce_elapsed => if scheduled then 1 else 0
  | _ => 0
  end.

Definition schedules (scheduled : bool) (x : WhileConfiguring.t) : bool :=
  match x with
  | WhileConfiguring.thread reason _ => scheduled || String.eqb reason "started"
  | WhileConfiguring.debounce_elapsed => false
  | _ => scheduled
  end.

Fixpoint refreshes_meanwhile (scheduled : bool) (turns : list WhileConfiguring.t) : nat :=
  match turns with
  | [] => 0
  | x :: turns =>
      (chains_refresh scheduled x + refreshes_meanwhile (schedules scheduled x) turns)%nat
  end.

(** What the thread refreshes leave alone of what [configure] reads. *)
Definition configure_view (s : DebugSession.t)
    : BreakpointManager.t * DebugProtocol.Capabilities * bool * list Request.t * bool :=
  (DebugSession.breakpoints s, DebugSession._capabilities s,
   DebugSessionConnection.disposed (DebugSession.connection s),
   own_requests s, DebugSession.initialized s).

(** The task of [configure] after [k] answers of an adapter that
    acknowledges the requests. *)
Definition task_after (store : BreakpointManager.t) (supported : bool) (k : nat)
    (task : ConfigureTask.t) : Prop :=
  match BreakpointManager.getUris store !! k with
  | Some uri =>
      let all := map DebugBreakpoint.new (BreakpointManager.findMarkers (Some uri) store) in
      ∃ raws,
        task = ConfigureTask.awaiting_setBreakpoints uri all
                 (drop (S k) (BreakpointManager.getUris store))
                 (Ok (SetBreakpointsBody raws)) ∧
        (length raws ≤ length (List.filter DebugBreakpoint.enabled all))%nat
  | None =>
      if supported && (k =? length (BreakpointManager.getUris store))%nat
      then ∃ body, task = ConfigureTask.awaiting_configurationDone (Ok body)
      else task = ConfigureTask.awaiting_updateThreads
  end.

(** [configure], called in the session [s0], after [k] answers. *)
Definition configuring (s0 : DebugSession.t) (k : nat)
    (c : ConfigureTask.t * DebugSession.t) : Prop :=
  let store := DebugSession.breakpoints s0 in
  let supported :=
    truthy (DebugSession._capabilities s0 !! "supportsConfigurationDoneRequest") in
  let expected := configure_requests store supported in
  configure_view (snd c)
  = (store, DebugSession._capabilities s0, false,
     own_requests s0 ++ take (S k) expected,
     DebugSession.initialized s0 || (length expected <=? k)%nat) ∧
  task_after store supported k (fst c).

(** The task of a [configure] that has got to the refresh, or has thrown. *)
Definition ended (result : Result unit * DebugSession.t)
    : ConfigureTask.t * DebugSession.t :=
  match result with
  | (Ok _, s) => (ConfigureTask.awaiting_updateThreads, s)
  | (Throw reason, s) => (ConfigureTask.failed reason, s)
  end.

(** [s'] differs from [s] only in that the requests [log] have been sent,
    and in the breakpoints kept per resource and the breakpoint
    notifications. *)
Definition resynced (log : list Request.t) (s s' : DebugSession.t) : Prop :=
  ∃ kept notified,
    s' = {| DebugSession.id := DebugSession.id s;
            DebugSession.configuration := DebugSession.configuration s;
            DebugSession.breakpoints := DebugSession.breakpoints s;
            DebugSession.connection :=
              {| DebugSessionConnection.disposed :=
                   DebugSessionConnection.disposed (DebugSession.connection s);
                 DebugSessionConnection.sent :=
                   DebugSessionConnection.sent (DebugSession.connection s) ++ log;
                 DebugSessionConnection.awaiting :=
                   DebugSessionConnection.awaiting (DebugSession.connection s);
                 DebugSessionConnection.fired :=
                   DebugSessionConnection.fired (DebugSession.connection s) |};
            DebugSession.shown := DebugSession.shown s;
            DebugSession._capabilities := DebugSession._capabilities s;
            DebugSession.threadObjects := DebugSession.threadObjects s;
            DebugSession._threads := DebugSession._threads s;
            DebugSession._currentThread := DebugSession._currentThread s;
            DebugSession.initialized := DebugSession.initialized s;
            DebugSession.pendingThreads := DebugSession.pendingThreads s;
            DebugSession.scheduled := DebugSession.scheduled s;
            DebugSession._breakpoints := kept;
            DebugSession.didChangeBreakpoints := notified;
            DebugSession.didChange := DebugSession.didChange s |}.

(** ** Invariants of a session *)

(** The refresh chain never rejects, and a [threads] request is in flight
    exactly while a refresh is waiting: one request, that of the first
    waiting refresh. *)
Definition chain_ok (s : DebugSession.t) : Prop :=
  Forall (λ r, r = Ok tt) (PromiseChain.settled (DebugSession.pendingThreads s)) ∧
  DebugSessionConnection.awaiting (DebugSession.connection s)
  = match PromiseChain.waiting (DebugSession.pendingThreads s) with
    | [] => []
    | _ :: _ => [Request.threads]
    end.

(** The current thread is a thread of the map; there is none only when the
    map is empty. *)
Definition current_ok (s : DebugSession.t) : Prop :=
  match DebugSession._currentThread s with
  | Some r => In r (get_threads s)
  | None => get_threads s = []
  end.

(** [s'] has the refresh chain and the connection state of [s]. *)
Definition same_chain (s s' : DebugSession.t) : Prop :=
  DebugSession.pendingThreads s' = DebugSession.pendingThreads s ∧
  DebugSessionConnection.awaiting (DebugSession.connection s')
  = DebugSessionConnection.awaiting (DebugSession.connection s) ∧
  DebugSessionConnection.disposed (DebugSession.connection s')
  = DebugSessionConnection.disposed (DebugSession.connection s).

(** [s'] has the thread map, the thread objects and the current thread of
    [s]. *)
Definition same_threads (s s' : DebugSession.t) : Prop :=
  DebugSession._threads s' = DebugSession._threads s ∧
  DebugSession.threadObjects s' = DebugSession.threadObjects s ∧
  DebugSession._currentThread s' = DebugSession._currentThread s.

(** What the inputs keep of this: the current thread is a thread of the
    map unless the map is empty (a [threads] response without a thread list
    empties the map and leaves the current thread), and with no current
    thread the map is empty. *)
Definition current_known (s : DebugSession.t) : Prop :=
  match DebugSession._currentThread s with
  | Some r => In r (get_threads s) ∨ get_threads s = []
  | None => get_threads s = []
  end.

(** The invariant of the sessions that the inputs can reach. *)
Definition session_inv (s : DebugSession.t) : Prop := chain_ok s ∧ current_known s.

(** ** Numbering of the configurations *)

(** The disambiguator that the next unresolved configuration of a name
    gets: [has(name) ? get(name) + 1 : 0]. *)
Definition next_configurationId (name : string) (m : DebugSessionManager.t) : Z :=
  match DebugSessionManager.configurationIds m !! name with
  | Some n => n + 1
  | None => 0
  end.

(** A caller starts a configuration that is not resolved yet, or destroys
    sessions. *)
Definition starts_or_destroys (i : DebugSessionManager.ManagerInput) : Prop :=
  match i with
  | DebugSessionManager.Start c => DebugConfiguration.__resovled c = false
  | DebugSessionManager.Destroy _ => True
  | _ => False
  end.

Section Numbering.

Variable resolveDebugConfiguration : DebugConfiguration.t → Result DebugConfiguration.t.
Variable resolve : DebugConfiguration.t → Result DebugConfiguration.t.
Variable create : list string → DebugConfiguration.t → Result string.
Variable adapter : string → list Request.t → Result ResponseBody.
Variable showMessage : Error → Result unit.

(** The services answer, and the variable resolver leaves the disambiguator
    in place. *)
Definition services_answer : Prop :=
  (∀ c, ∃ rc, resolveDebugConfiguration c = Ok rc) ∧
  (∀ c, ∃ c', resolve c = Ok c' ∧
              DebugConfiguration.__configurationId c' = DebugConfiguration.__configurationId c) ∧
  (∀ ids c, ∃ id, create ids c = Ok id).

(** The disambiguators of the sessions that the starts of the
    configurations named [name] produce along the inputs, in start order:
    each one is read from the configuration of the session that [start]
    returns. *)
Fixpoint started_ids (name : string) (m : DebugSessionManager.t)
    (inputs : list DebugSessionManager.ManagerInput) : list (option Z) :=
  match inputs with
  | [] => []
  | i :: rest =>
      match i with
      | DebugSessionManager.Start c =>
          if String.eqb (DebugConfiguration.name c) name
          then
            match DebugSessionManager.manager_start
                    resolveDebugConfiguration resolve create adapter showMessage c m with
            | (Ok r, m') =>
                [s ← DebugSessionManager.sessionObjects m' !! r;
                 DebugConfiguration.__configurationId (DebugSession.configuration s)]
            | (Throw _, _) => []
            end
          else []
      | _ => []
      end
      ++ started_ids name
           (DebugSessionManager.manager_step
              resolveDebugConfiguration resolve create adapter showMessage m i) rest
  end.

End Numbering.

(** How many of the inputs start a configuration of the name. *)
Definition starts_of (name : string) (inputs : list DebugSessionManager.ManagerInput) : nat :=
  length
    (List.filter
       (λ i, match i with
             | DebugSessionManager.Start c => String.eqb (DebugConfiguration.name c) name
             | _ => false
             end) inputs).

(** [m'] has the numbering table of [m], and its session objects have the
    configurations of those of [m]. *)
Definition same_configurations (m m' : DebugSessionManager.t) : Prop :=
  DebugSessionManager.configurationIds m' = DebugSessionManager.configurationIds m ∧
  map DebugSession.configuration (DebugSessionManager.sessionObjects m')
  = map DebugSession.configuration (DebugSessionManager.sessionObjects m).

(** ** Sample data *)

Module Samples.

(** A declaration of the store on a line of a resource. *)
Definition declare (uri : string) (line : Z) (enabled : bool) : SourceBreakpoint.t :=
  {| SourceBreakpoint.uri := uri;
     SourceBreakpoint.enabled := enabled;
     SourceBreakpoint.raw :=
       {| DebugProtocol.line := line; DebugProtocol.column := None |} |}.

(** The breakpoint of a declaration after the adapter verified it on line
    [l]. *)
Definition answered_at (l : Z) (data : SourceBreakpoint.t) : DebugBreakpoint.t :=
  DebugBreakpoint.update
    {| DebugProtocol.verified := true; DebugProtocol.bline := Some l |}
    (DebugBreakpoint.new data).

(** Declared on lines 3 and 4 and both moved to line 5 by the adapter. *)
Definition moved_3_5 : DebugBreakpoint.t := answered_at 5 (declare "file:///a.js" 3 true).
Definition moved_4_5 : DebugBreakpoint.t := answered_at 5 (declare "file:///a.js" 4 true).

(** Declared on line 5 and verified there. *)
Definition kept_5 : DebugBreakpoint.t := answered_at 5 (declare "file:///a.js" 5 true).

(** Declared on line 9, disabled, never sent. *)
Definition unsent_9 : DebugBreakpoint.t :=
  DebugBreakpoint.new (declare "file:///a.js" 9 false).

(** Two enabled declarations on line 5 of one resource (at columns 1 and
    8), and a disabled one on line 9. *)
Definition on_5_column (c : Z) : SourceBreakpoint.t :=
  {| SourceBreakpoint.uri := "file:///a.js";
     SourceBreakpoint.enabled := true;
     SourceBreakpoint.raw :=
       {| DebugProtocol.line := 5; DebugProtocol.column := Some c |} |}.

Definition store_a : BreakpointManager.t :=
  {| BreakpointManager.markers :=
       [("file:///a.js", [on_5_column 1; on_5_column 8; declare "file:///a.js" 9 false])] |}.

Definition node_launch (name : string) : DebugConfiguration.t :=
  {| DebugConfiguration.type := "node";
     DebugConfiguration.request := "launch";
     DebugConfiguration.name := name;
     DebugConfiguration.__resovled := false;
     DebugConfiguration.__configurationId := None;
     DebugConfiguration.__restart := None |}.

(** An adapter that acknowledges every request: it verifies every
    breakpoint on the line it was requested on and reports the threads 1
    and 7. *)
Definition threads_1_7 : list DebugProtocol.Thread :=
  [{| DebugProtocol.id := 1; DebugProtocol.name := "main" |};
   {| DebugProtocol.id := 7; DebugProtocol.name := "worker" |}].

Definition obliging_adapter (log : list Request.t) : Result ResponseBody :=
  match List.last log Request.threads with
  | Request.initialize _ =>
      Ok (InitializeBody {[ "supportsConfigurationDoneRequest" := JBool true ]})
  | Request.setBreakpoints _ _ bps =>
      Ok (SetBreakpointsBody
            (map (λ b, {| DebugProtocol.verified := true;
                          DebugProtocol.bline := Some (DebugProtocol.line b) |}) bps))
  | Request.threads => Ok (ThreadsBody threads_1_7)
  | _ => Ok NoBody
  end.

(** An adapter that acknowledges [initialize] and rejects everything else. *)
Definition refusing_adapter (log : list Request.t) : Result ResponseBody :=
  match List.last log Request.threads with
  | Request.initialize _ => Ok (InitializeBody ∅)
  | _ => Throw (AdapterError "cannot launch")
  end.

Definition session_a : DebugSession.t :=
  DebugSession.new "s1" (node_launch "X") store_a.

(** The session after a successful [start]. *)
Definition session_started : DebugSession.t :=
  snd (start obliging_adapter (λ _, Ok tt) session_a).

(** [stopped] on thread 7, asking to leave the focus where it is. *)
Definition stopped_7_keep_focus : StoppedDetails :=
  {| reason := "breakpoint"; threadId := Some 7; preserveFocusHint := true |}.

(** The session is configured and learns of the threads 1 and 7; then
    thread 7 stops at a breakpoint while the focus stays on thread 1. *)
Definition worker_stops : list Input :=
  [Deliver DebugEvent.initialized;
   ThreadsResponse (Ok (ThreadsBody threads_1_7));
   Deliver (DebugEvent.stopped stopped_7_keep_focus);
   ThreadsResponse (Ok (ThreadsBody threads_1_7))].

(** Services that answer at once: configurations resolve to themselves and
    the debug service hands out the ids "s", "ss", "sss", ... *)
Definition resolves (c : DebugConfiguration.t) : Result DebugConfiguration.t := Ok c.

Definition creates (ids : list string) (c : DebugConfiguration.t) : Result string :=
  Ok (fold_right String.append EmptyString (repeat "s" (S (length ids)))).

Definition obliging_adapters (sessionId : string) : list Request.t → Result ResponseBody :=
  obliging_adapter.

(** Three starts of "X", the destruction of every session, a fourth start. *)
Definition three_starts_destroy_start : list DebugSessionManager.ManagerInput :=
  [DebugSessionManager.Start (node_launch "X");
   DebugSessionManager.Start (node_launch "X");
   DebugSessionManager.Start (node_launch "X");
   DebugSessionManager.Destroy None;
   DebugSessionManager.Start (node_launch "X")].

End Samples.

(** * Vocabulary of the further properties *)

(** The elements of a list in the order of their first occurrence: what the
    keys of a [Map] are after [set] has been called with each element. *)
Definition first_occurrences (l : list Z) : list Z :=
  fold_left (λ seen x, if decide (x ∈ seen) then seen else seen ++ [x]) l [].

(** Every id of the thread map names a thread object of the store whose
    [raw.id] is that id. *)
Definition threads_wf (s : DebugSession.t) : Prop :=
  ∀ id r, JsMap.get id (DebugSession._threads s) = Some r →
    ∃ th, DebugSession.threadObjects s !! r = Some th ∧
          DebugProtocol.id (DebugThread.raw th) = id.

(** The stop details that a refresh writes on the thread of an id:
    [stoppedDetails && stoppedDetails.threadId === id ? stoppedDetails : undefined]. *)
Definition details_for (stoppedDetails : option StoppedDetails) (id : Z)
    : option StoppedDetails :=
  match stoppedDetails with
  | Some d => if bool_decide (threadId d = Some id) then Some d else None
  | None => None
  end.

(** The stop details move the focus:
    [stoppedDetails && !stoppedDetails.preserveFocusHint && !!stoppedDetails.threadId]. *)
Definition moves_focus (stoppedDetails : option StoppedDetails) : bool :=
  match stoppedDetails with
  | Some d =>
      negb (preserveFocusHint d)
      && match threadId d with Some i => negb (i =? 0) | None => false end
  | None => false
  end.

(** A computation started in [s] stops at the first request that the
    adapter rejects: it adds requests to the log, and a request among them,
    other than those of a thread refresh, that the adapter rejects is the
    last one added and its error is what the computation throws. *)
Definition stops_at_rejection {A} (adapter : list Request.t → Result ResponseBody)
    (s : DebugSession.t) (result : Result A * DebugSession.t) : Prop :=
  ∃ added,
    DebugSessionConnection.sent (DebugSession.connection (snd result))
    = DebugSessionConnection.sent (DebugSession.connection s) ++ added ∧
    ∀ l req rest e,
      added = l ++ req :: rest → req ≠ Request.threads →
      adapter (DebugSessionConnection.sent (DebugSession.connection s) ++ l ++ [req])
      = Throw e →
      fst result = Throw e ∧ rest = [].

(** [thread.raw.id] of the thread object [r], if the store has it. *)
Definition thread_id (s : DebugSession.t) (r : nat) : option Z :=
  th ← DebugSession.threadObjects s !! r;
  Some (DebugProtocol.id (DebugThread.raw th)).

(** ** Further functions of the source *)

(** The numbers of the source are doubles. A double with an integer value
    is written as that integer; [round_to_double m] is the double nearest
    to the integer [m], the even significand winning a tie: every integer
    up to 2^53 in magnitude is a double, and further up the doubles are the
    multiples of the power of two that leaves 53 bits. The largest double
    (below 2^1024) is out of the reach of the counters that use this. *)
Definition round_to_double (m : Z) : Z :=
  let a := Z.abs m in
  if a <=? 2 ^ 53 then m
  else
    let q := 2 ^ (Z.log2 a - 52) in
    let d := a / q in
    let r := a mod q in
    let d' :=
      if 2 * r <? q then d
      else if q <? 2 * r then d + 1
      else if Z.even d then d else d + 1 in
    Z.sgn m * (d' * q).

(** [get label()] of a session: the name of the configuration, followed
    by the disambiguator plus one in parentheses, unless the disambiguator
    is absent or 0. The sum is a sum of doubles, the exact sum rounded. The
    decimal notation is the one of the source for numbers below 10^21. *)
Definition label (s : DebugSession.t) : string :=
  let c := DebugSession.configuration s in
  match DebugConfiguration.__configurationId c with
  | Some n =>
      if n =? 0 then DebugConfiguration.name c
      else DebugConfiguration.name c +:+ " (" +:+ pretty (round_to_double (n + 1)) +:+ ")"
  | None => DebugConfiguration.name c
  end.

(** [get breakpointUris()] *)
Definition breakpointUris (s : DebugSession.t) : list string :=
  JsMap.keys (DebugSession._breakpoints s).

(** [updateBreakpoints(previous, current)] of the manager: the resources
    of the breakpoint changes it fires, oldest first, each one with
    [current] as its session. [affectedUri] is the set of the resources
    seen. *)
Definition manager_updateBreakpoints (previous current : option DebugSession.t)
    : list string :=
  snd (fold_left
         (λ '(affectedUri, fired) uriString,
            if decide (uriString ∈ affectedUri) then (affectedUri, fired)
            else ({[uriString]} ∪ affectedUri, fired ++ [uriString]))
         (flat_map (λ session, match session with
                               | Some s => breakpointUris s
                               | None => []
                               end) [previous; current])
         ((∅ : gset string), [])).

(** ** The file dialog of the Electron front end *)

Module ElectronFileDialogService.

Inductive Property := openFile | openDirectory | multiSelections.

(** [OpenFileDialogProps]: every field may be absent; the keys of
    [filters] come in the order of [Object.keys]. *)
Record OpenFileDialogProps := {
  title : option string;
  filters : option (list (string * list string));
  openLabel : option string;
  canSelectFiles : option bool;
  canSelectFolders : option bool;
  canSelectMany : option bool
}.

Record FileFilter := { name : string; extensions : list string }.

Record OpenDialogOptions := {
  dialogTitle : option string;
  defaultPath : string;
  dialogFilters : list FileFilter;
  properties : list Property;
  buttonLabel : option string
}.

Section Service.

(** [FileUri.fsPath] *)
Variable fsPath : string → string.

(** [toDialogOptions(uri, props)], as the three fields it returns. *)
Definition toDialogOptions (uri : string) (props : OpenFileDialogProps)
    : option string * string * list FileFilter :=
  (title props, fsPath uri,
   match filters props with
   | Some fs => map (λ kv, {| name := fst kv; extensions := snd kv |}) fs
   | None => []
   end).

(** [toOpenDialogOptions(uri, props)] *)
Definition toOpenDialogOptions (uri : string) (props : OpenFileDialogProps)
    : OpenDialogOptions :=
  let properties :=
    (if bool_decide (canSelectFiles props ≠ Some false)
        && bool_decide (canSelectFolders props ≠ Some true)
     then [openFile] else [])
    ++ (if bool_decide (canSelectFolders props = Some true)
           && bool_decide (canSelectFiles props = Some false)
        then [openDirectory] else [])
    ++ (if bool_decide (canSelectMany props = Some true)
        then [multiSelections] else []) in
  let '(t, path, fs) := toDialogOptions uri props in
  {| dialogTitle := t; defaultPath := path; dialogFilters := fs;
     properties := properties; buttonLabel := openLabel props |}.

End Service.

End ElectronFileDialogService.

(** ** The tree views of the plugin side

    [TreeViewExtImpl] keeps a counter for the ids it hands out and a cache
    from ids to the elements of the data provider. The provider is given
    by the outcomes of its two methods; a falsy result of its
    [getChildren] reads as [None] (an empty array is not falsy). The
    provider may take its time over a tree item: [settles k value] is the
    number of ticks after which the tree item asked for by the callback of
    index [k], for the element [value], settles. *)
Module TreeViewExtImpl.

(** [iconPath] is a string or something else (a URI, a pair of them, a
    theme icon). *)
Inductive IconPath := IconString (path : string) | IconOther.

(** [theia.TreeItem], as far as [getChildren] reads it; [resourceUri] is
    given by its path. *)
Record TreeItem := {
  label : option string;
  resourceUri : option string;
  iconPath : option IconPath;
  tooltip : option string;
  collapsibleState : option Z
}.

Record TreeViewItem := {
  id : string;
  itemLabel : string;
  icon : option string;
  itemTooltip : option string;
  itemCollapsibleState : option Z
}.

(** The character [/]. *)
Definition slash : Ascii.ascii := Ascii.ascii_of_nat 47.

Fixpoint has_slash (s : string) : bool :=
  match s with
  | EmptyString => false
  | String a s' => Ascii.eqb a slash || has_slash s'
  end.

(** [label.indexOf('/') >= 0 ? label.substring(label.lastIndexOf('/') + 1) : label] *)
Fixpoint after_last_slash (s : string) : string :=
  match s with
  | EmptyString => EmptyString
  | String a s' =>
      if has_slash s' then after_last_slash s'
      else if Ascii.eqb a slash then s' else String a s'
  end.

Section View.

Variable T : Type.

Record t := {
  idCounter : Z;
  cache : JsMap.t string T
}.

Definition new : t := {| idCounter := 0; cache := JsMap.empty |}.

Variable provider_getChildren : option T → Result (option (list T)).
Variable provider_getTreeItem : T → Result TreeItem.
Variable settles : nat → T → nat.
Variable decodeURIComponent : string → Result string.

(** [generateId()]: [this.idCounter++] adds one to a double. *)
Definition generateId : M t string :=
  λ v, let n := round_to_double (idCounter v + 1) in
       (Ok ("item-" +:+ pretty n), {| idCounter := n; cache := cache v |}).

(** The label of the item [id]: the label of the tree item; if that is
    not set, the last segment of the decoded path of the resource; if
    that is empty or there is no resource, the id. *)
Definition label_of (id : string) (treeItem : TreeItem) : Result string :=
  match label treeItem with
  | Some (String a l) => Ok (String a l)
  | _ =>
      match resourceUri treeItem with
      | Some path =>
          match decodeURIComponent path with
          | Ok decoded =>
              Ok (match after_last_slash decoded with
                  | EmptyString => id
                  | segment => segment
                  end)
          | Throw e => Throw e
          end
      | None => Ok id
      end
  end.

(** What a callback of [result.map] does before it waits for the tree
    item: it generates the id and caches the element. *)
Definition remember (value : T) : M t (string * T) :=
  let* id := generateId in
  modify (λ v, {| idCounter := idCounter v;
                  cache := JsMap.set id value (cache v) |}) >>>
  ret (id, value).

(** What the callback does from there: it asks for the tree item and
    converts it. *)
Definition toTreeViewItem (remembered : string * T) : Result TreeViewItem :=
  let '(id, value) := remembered in
  match provider_getTreeItem value with
  | Throw e => Throw e
  | Ok treeItem =>
      match label_of id treeItem with
      | Throw e => Throw e
      | Ok l =>
          Ok {| id := id;
                itemLabel := l;
                icon := match iconPath treeItem with
                        | Some (IconString path) => Some path
                        | _ => None
                        end;
                itemTooltip := tooltip treeItem;
                itemCollapsibleState := collapsibleState treeItem |}
      end
  end.

Fixpoint map_m {A B} (f : A → M t B) (l : list A) : M t (list B) :=
  match l with
  | [] => ret []
  | x :: l' =>
      let* y := f x in
      let* ys := map_m f l' in
      ret (y :: ys)
  end.

(** A callback whose tree item has settled takes its place behind the
    callbacks that were resumed before it: those whose tree item settled
    earlier, or at the same tick and asked earlier. *)
Fixpoint resume_after {A} (x : nat * A) (resumed : list (nat * A)) : list (nat * A) :=
  match resumed with
  | [] => [x]
  | y :: resumed' =>
      if (fst x <? fst y)%nat then x :: resumed
      else y :: resume_after x resumed'
  end.

(** The callbacks in the order in which they are resumed. *)
Definition completion_order (remembered : list (string * T)) : list (string * T) :=
  map snd
    (fold_left (λ resumed x, resume_after x resumed)
       (imap (λ k p, (settles k (snd p), p)) remembered) []).

(** [Promise.all] with [treeItems.push] in every callback, over the
    outcomes of the callbacks in the order in which they end: the values in
    that order, or the first rejection. *)
Fixpoint all {A} (l : list (Result A)) : Result (list A) :=
  match l with
  | [] => Ok []
  | Throw e :: _ => Throw e
  | Ok x :: l' =>
      match all l' with
      | Ok xs => Ok (x :: xs)
      | Throw e => Throw e
      end
  end.

(** [getChildren(itemId)]: [result.map] runs every callback up to its
    first [await], so all the ids are generated and all the elements are
    cached before a tree item is looked at. Every callback pushes its item
    when it is resumed, so the items come in the order in which the tree
    items have settled. *)
Definition getChildren (itemId : string) : M t (option (list TreeViewItem)) :=
  let* cachedElement := gets (λ v, JsMap.get itemId (cache v)) in
  let* result := lift (provider_getChildren cachedElement) in
  match result with
  | Some values =>
      let* remembered := map_m remember values in
      let* treeItems :=
        lift (all (map toTreeViewItem (completion_order remembered))) in
      ret (Some treeItems)
  | None => ret None
  end.

End View.

Arguments idCounter {T}.
Arguments cache {T}.

End TreeViewExtImpl.

(** The ids that a view hands out after the counter has reached [c], as
    long as the counter stays within the integers that adding one reaches:
    item-(c+1), item-(c+2), ..., [k] of them. *)
Definition item_ids (c : Z) (k : nat) : list string :=
  map (λ j, "item-" +:+ pretty (c + 1 + Z.of_nat j)) (seq 0 k).

(** Every id of the cache has been handed out: it is item-n for an [n]
    from 1 up to the counter. *)
Definition cache_wf {T} (v : TreeViewExtImpl.t T) : Prop :=
  0 ≤ TreeViewExtImpl.idCounter v ∧
  ∀ id, In id (JsMap.keys (TreeViewExtImpl.cache v)) →
    ∃ n, 0 < n ≤ TreeViewExtImpl.idCounter v ∧ id = "item-" +:+ pretty n.

(** ** Further sample data *)

Module MoreSamples.

(** An adapter that announces the [restart] request in its capabilities
    and acknowledges every request. *)
Definition restartable_adapter (sessionId : string) (log : list Request.t)
    : Result ResponseBody :=
  match List.last log Request.threads with
  | Request.initialize _ => Ok (InitializeBody {[ "supportsRestartRequest" := JBool true ]})
  | _ => Ok NoBody
  end.

(** The manager after one successful start of "X", and the session it
    made. *)
Definition one_session (adapter : string → list Request.t → Result ResponseBody)
    : DebugSessionManager.t :=
  snd (DebugSessionManager.manager_start Samples.resolves Samples.resolves Samples.creates
         adapter (λ _, Ok tt) (Samples.node_launch "X")
         (DebugSessionManager.new Samples.store_a)).

Definition its_session (adapter : string → list Request.t → Result ResponseBody)
    : DebugSession.t :=
  default Samples.session_a
    (DebugSessionManager.sessionObjects (one_session adapter) !! 0%nat).

(** A data provider over file names: the root has the children [src] and
    [README.md], [src] has the child [a.ts], and nothing else has
    children. The tree items carry no label, only the resource. *)
Definition files_getChildren (element : option string) : Result (option (list string)) :=
  match element with
  | None => Ok (Some ["src"; "README.md"])
  | Some "src" => Ok (Some ["a.ts"])
  | Some _ => Ok None
  end.

Definition files_getTreeItem (element : string) : Result TreeViewExtImpl.TreeItem :=
  Ok {| TreeViewExtImpl.label := None;
        TreeViewExtImpl.resourceUri := Some ("/workspace/" +:+ element);
        TreeViewExtImpl.iconPath := None;
        TreeViewExtImpl.tooltip := Some element;
        TreeViewExtImpl.collapsibleState :=
          if String.eqb element "src" then Some 1 else None |}.

(** The paths of the sample have nothing to decode. *)
Definition plain_path (path : string) : Result string := Ok path.

(** The tree item of [src] takes a tick, the others are there at once. *)
Definition src_takes_a_tick (k : nat) (element : string) : nat :=
  if String.eqb element "src" then 1%nat else 0%nat.

(** Every tree item is there at once. *)
Definition at_once (k : nat) (element : string) : nat := 0%nat.

End MoreSamples.

(** * Properties *)

(** ** Insertion-ordered maps *)

Section JsMapFacts.
Context {K V : Type} `{EqDecision K}.
Implicit Types (m : JsMap.t K V) (k : K) (v : V).

Lemma get_set_eq k v m : JsMap.get k (JsMap.set k v m) = Some v.
Proof.
  induction m as [|[k' v'] m IH]; simpl.
  - by rewrite decide_True.
  - destruct (decide (k' = k)); simpl.
    + by rewrite decide_True.
    + by rewrite decide_False.
Qed.

Lemma get_set_ne k k' v m : k ≠ k' → JsMap.get k' (JsMap.set k v m) = JsMap.get k' m.
Proof.
  intros Hne. induction m as [|[k0 v0] m IH]; simpl.
  - by rewrite decide_False.
  - destruct (decide (k0 = k)) as [->|]; simpl.
    + by rewrite !decide_False.
    + destruct (decide (k0 = k')); done.
Qed.

Lemma get_None_keys k m : JsMap.get k m = None ↔ ¬ In k (JsMap.keys m).
Proof.
  induction m as [|[k' v'] m IH]; simpl; [tauto|].
  destruct (decide (k' = k)) as [->|Hne].
  - split; [done | intros H'; exfalso; apply H'; by left].
  - rewrite IH. split; [intros H' [?|?]; done | tauto].
Qed.

Lemma get_Some_In k v m : JsMap.get k m = Some v → In (k, v) m.
Proof.
  induction m as [|[k' v'] m IH]; simpl; [done|].
  destruct (decide (k' = k)) as [->|Hne]; [intros [= ->]; by left | auto].
Qed.

Lemma In_get k v m : NoDup (JsMap.keys m) → In (k, v) m → JsMap.get k m = Some v.
Proof.
  induction m as [|[k' v'] m IH]; simpl; [done|].
  intros Hnd [Heq|Hin].
  - injection Heq as -> ->. by rewrite decide_True.
  - apply NoDup_cons in Hnd as [Hni Hnd].
    destruct (decide (k' = k)) as [->|Hne]; [|auto].
    exfalso. apply Hni. apply list_elem_of_In.
    change k with (fst (k, v)). by apply in_map.
Qed.

Lemma keys_set_has k v v0 m :
  JsMap.get k m = Some v0 → JsMap.keys (JsMap.set k v m) = JsMap.keys m.
Proof.
  induction m as [|[k' v'] m IH]; simpl; [done|].
  destruct (decide (k' = k)) as [->|Hne]; simpl; [done|].
  intros Hg. unfold JsMap.keys in *. simpl. f_equal. by apply IH.
Qed.

Lemma keys_set_new k v m :
  JsMap.get k m = None → JsMap.keys (JsMap.set k v m) = JsMap.keys m ++ [k].
Proof.
  induction m as [|[k' v'] m IH]; simpl; [done|].
  destruct (decide (k' = k)) as [->|Hne]; simpl; [done|].
  intros Hg. unfold JsMap.keys in *. simpl. f_equal. by apply IH.
Qed.

Lemma NoDup_keys_set k v m : NoDup (JsMap.keys m) → NoDup (JsMap.keys (JsMap.set k v m)).
Proof.
  intros Hnd. destruct (JsMap.get k m) as [v0|] eqn:Hg.
  - by rewrite (keys_set_has _ _ _ _ Hg).
  - rewrite (keys_set_new _ _ _ Hg).
    apply NoDup_app. split_and!; [done | | apply NoDup_singleton].
    intros x Hx Hx'. apply list_elem_of_singleton in Hx' as ->.
    apply get_None_keys in Hg. apply Hg. by apply list_elem_of_In.
Qed.

Lemma In_keys_set k k' v m :
  In k' (JsMap.keys (JsMap.set k v m)) ↔ k' = k ∨ In k' (JsMap.keys m).
Proof.
  destruct (JsMap.get k m) as [v0|] eqn:Hg.
  - rewrite (keys_set_has _ _ _ _ Hg). split; [tauto|].
    intros [->|?]; [|done].
    apply get_Some_In in Hg. change k with (fst (k, v0)). by apply in_map.
  - rewrite (keys_set_new _ _ _ Hg), in_app_iff. simpl. intuition.
Qed.

(** With distinct keys, the values of the map are what [get] finds. *)
Lemma In_values m v :
  NoDup (JsMap.keys m) → In v (JsMap.values m) ↔ ∃ k, JsMap.get k m = Some v.
Proof.
  intros Hnd. unfold JsMap.values. rewrite in_map_iff. split.
  - intros [[k v'] [Hv Hin]]. simpl in Hv. subst v'. exists k. by apply In_get.
  - intros [k Hg]. exists (k, v). split; [done|]. by apply get_Some_In.
Qed.

End JsMapFacts.

(** ** [dedupBreakpoints] *)

Lemma origin_push_origins more b :
  has_origin b →
  DebugBreakpoint.origin (DebugBreakpoint.push_origins more b) = DebugBreakpoint.origin b.
Proof.
  unfold has_origin, DebugBreakpoint.origin, DebugBreakpoint.push_origins. simpl.
  by destruct (DebugBreakpoint.origins b).
Qed.

Lemma line_push_origins more b :
  has_origin b →
  DebugBreakpoint.line (DebugBreakpoint.push_origins more b) = DebugBreakpoint.line b.
Proof.
  intros Hb. unfold DebugBreakpoint.line, DebugBreakpoint.requested_line.
  by rewrite origin_push_origins.
Qed.

Lemma has_origin_push_origins more b :
  has_origin b → has_origin (DebugBreakpoint.push_origins more b).
Proof.
  unfold has_origin, DebugBreakpoint.push_origins. simpl.
  by destruct (DebugBreakpoint.origins b).
Qed.

Lemma Forall_set {V} (P : Z * V → Prop) k v (m : JsMap.t Z V) :
  Forall P m → P (k, v) → Forall P (JsMap.set k v m).
Proof.
  intros Hm Hkv. induction m as [|[k' v'] m IH]; simpl.
  - by constructor.
  - apply Forall_cons in Hm as [Hh Ht].
    destruct (decide (k' = k)); constructor; auto.
Qed.

Lemma lines_ok_entry lines l p :
  lines_ok lines → JsMap.get l lines = Some p →
  DebugBreakpoint.line p = l ∧ has_origin p.
Proof.
  intros [_ Hall] Hg. apply get_Some_In in Hg.
  rewrite List.Forall_forall in Hall. by apply Hall in Hg.
Qed.

Lemma merge_line found b p :
  (∀ q, found = Some q → DebugBreakpoint.line q = DebugBreakpoint.line b ∧ has_origin q) →
  has_origin b → merge found b = Some p →
  DebugBreakpoint.line p = DebugBreakpoint.line b ∧ has_origin p.
Proof.
  intros Hq Hb. destruct found as [q|]; simpl.
  - destruct (Hq q eq_refl) as [Hl Ho].
    destruct (DebugBreakpoint.kept_line b); intros [= <-].
    + split; [by apply line_push_origins | by apply has_origin_push_origins].
    + split; [by rewrite line_push_origins | by apply has_origin_push_origins].
  - by intros [= <-].
Qed.

(** One turn of the loop, seen through [merge]. *)
Lemma dedup_step_set lines b :
  lines_ok lines → has_origin b →
  ∃ p, merge (JsMap.get (DebugBreakpoint.line b) lines) b = Some p ∧
       dedup_step lines b = JsMap.set (DebugBreakpoint.line b) p lines.
Proof.
  intros Hok Hb. unfold dedup_step, merge.
  destruct (JsMap.get (DebugBreakpoint.line b) lines) as [q|] eqn:Hg.
  - destruct (lines_ok_entry _ _ _ Hok Hg) as [Hl Ho].
    destruct (DebugBreakpoint.kept_line b); eexists; split; try done.
    + by rewrite line_push_origins.
    + by rewrite line_push_origins, Hl.
  - by eexists.
Qed.

Lemma dedup_step_ok lines b :
  lines_ok lines → has_origin b → lines_ok (dedup_step lines b).
Proof.
  intros Hok Hb. destruct (dedup_step_set lines b Hok Hb) as (p & Hm & ->).
  split.
  - apply NoDup_keys_set, Hok.
  - apply Forall_set; [apply Hok|]. simpl.
    eapply merge_line; [|done|done].
    intros q Hq. by apply (lines_ok_entry lines).
Qed.

Lemma get_dedup_step lines b l :
  lines_ok lines → has_origin b →
  JsMap.get l (dedup_step lines b) =
    if on_line l b then merge (JsMap.get l lines) b else JsMap.get l lines.
Proof.
  intros Hok Hb. destruct (dedup_step_set lines b Hok Hb) as (p & Hm & ->).
  unfold on_line. case_bool_decide as Hl.
  - subst l. by rewrite get_set_eq.
  - by rewrite get_set_ne.
Qed.

Lemma dedup_fold_ok all lines :
  lines_ok lines → Forall has_origin all → lines_ok (fold_left dedup_step all lines).
Proof.
  revert lines. induction all as [|b all IH]; intros lines Hok Hall; simpl; [done|].
  apply Forall_cons in Hall as [Hb Hall]. apply IH; [|done]. by apply dedup_step_ok.
Qed.

(** The entry of a line is the fold of [merge] over the breakpoints of that
    line, in the order of the input. *)
Lemma get_dedup_fold all lines l :
  lines_ok lines → Forall has_origin all →
  JsMap.get l (fold_left dedup_step all lines) =
    fold_left merge (List.filter (on_line l) all) (JsMap.get l lines).
Proof.
  revert lines. induction all as [|b all IH]; intros lines Hok Hall; simpl; [done|].
  apply Forall_cons in Hall as [Hb Hall].
  rewrite IH; [|by apply dedup_step_ok|done].
  rewrite get_dedup_step by done. by destruct (on_line l b).
Qed.

Lemma lines_ok_empty : lines_ok JsMap.empty.
Proof. split; [apply NoDup_nil_2 | constructor]. Qed.

Lemma fold_merge_Some bs p0 : ∃ p, fold_left merge bs (Some p0) = Some p.
Proof.
  revert p0. induction bs as [|b bs IH]; intros p0; simpl; [by eexists|]. apply IH.
Qed.

Lemma fold_merge_None_inv bs : fold_left merge bs None = None → bs = [].
Proof.
  destruct bs as [|b bs]; [done|]. simpl.
  destruct (fold_merge_Some bs b) as [p ->]. done.
Qed.

(** The entry of a line carries the origins of every breakpoint merged into
    it. *)
Lemma fold_merge_origins bs p0 p :
  fold_left merge bs (Some p0) = Some p →
  Permutation (DebugBreakpoint.origins p)
    (DebugBreakpoint.origins p0 ++ flat_map DebugBreakpoint.origins bs).
Proof.
  revert p0. induction bs as [|b bs IH]; intros p0; simpl.
  - intros [= ->]. by rewrite app_nil_r.
  - intros Hf. apply IH in Hf. rewrite Hf. rewrite app_assoc.
    apply Permutation_app_tail.
    destruct (DebugBreakpoint.kept_line b); simpl; [apply Permutation_app_comm | done].
Qed.

Lemma dedup_lines all :
  Forall has_origin all →
  map DebugBreakpoint.line (dedupBreakpoints all)
  = JsMap.keys (fold_left dedup_step all JsMap.empty).
Proof.
  intros Hall. unfold dedupBreakpoints, JsMap.values, JsMap.keys.
  destruct (dedup_fold_ok all JsMap.empty lines_ok_empty Hall) as [_ HF].
  induction HF as [|[k v] m [Hl _] _ IH]; simpl; [done|]. simpl in Hl. by rewrite Hl, IH.
Qed.

Lemma In_dedup all p :
  Forall has_origin all →
  In p (dedupBreakpoints all) ↔
  fold_left merge (List.filter (on_line (DebugBreakpoint.line p)) all) None = Some p.
Proof.
  intros Hall.
  pose proof (dedup_fold_ok all JsMap.empty lines_ok_empty Hall) as Hok.
  unfold dedupBreakpoints. rewrite In_values by apply Hok. split.
  - intros [k Hg]. destruct (lines_ok_entry _ _ _ Hok Hg) as [<- _].
    by rewrite get_dedup_fold in Hg by (done || apply lines_ok_empty).
  - intros Hf. exists (DebugBreakpoint.line p).
    by rewrite get_dedup_fold by (done || apply lines_ok_empty).
Qed.

(** C3. [dedupBreakpoints] keeps exactly one entry per line of its input:
    the lines of the output are pairwise distinct, they are the lines of the
    input, and the origin list of the entry of a line consists of the
    origins of every input breakpoint of that line (each as often as it
    occurs there), so no breakpoint that collapsed into the line is lost. *)
Theorem dedupBreakpoints_one_entry_per_line (all : list DebugBreakpoint.t) :
  Forall has_origin all →
  NoDup (map DebugBreakpoint.line (dedupBreakpoints all)) ∧
  (∀ l, In l (map DebugBreakpoint.line (dedupBreakpoints all))
        ↔ In l (map DebugBreakpoint.line all)) ∧
  (∀ p, In p (dedupBreakpoints all) →
        Permutation (DebugBreakpoint.origins p)
          (flat_map DebugBreakpoint.origins
             (List.filter (on_line (DebugBreakpoint.line p)) all))).
Proof.
  intros Hall.
  pose proof (dedup_fold_ok all JsMap.empty lines_ok_empty Hall) as Hok.
  split_and!.
  - rewrite dedup_lines by done. apply Hok.
  - intros l. rewrite dedup_lines by done.
    assert (JsMap.get l (fold_left dedup_step all JsMap.empty) = None
            ↔ List.filter (on_line l) all = []) as Hnone.
    { rewrite get_dedup_fold by (done || apply lines_ok_empty). simpl. split.
      - apply fold_merge_None_inv.
      - by intros ->. }
    rewrite get_None_keys in Hnone.
    destruct (in_dec Z.eq_dec l (JsMap.keys (fold_left dedup_step all JsMap.empty)))
      as [Hin|Hni].
    + split; [intros _|done].
      destruct (List.filter (on_line l) all) as [|b bs] eqn:Hf; [tauto|].
      assert (In b (List.filter (on_line l) all)) as Hb by (rewrite Hf; by left).
      apply filter_In in Hb as [Hb Hl]. unfold on_line in Hl.
      apply bool_decide_eq_true in Hl as <-. by apply in_map.
    + split; [done|]. intros Hl. exfalso.
      apply in_map_iff in Hl as (b & <- & Hb).
      apply Hnone in Hni.
      assert (In b (List.filter (on_line (DebugBreakpoint.line b)) all)) as Hb'.
      { apply filter_In. split; [done|]. unfold on_line. by apply bool_decide_eq_true. }
      by rewrite Hni in Hb'.
  - intros p Hp. apply In_dedup in Hp; [|done].
    destruct (List.filter (on_line (DebugBreakpoint.line p)) all) as [|b bs]; [done|].
    simpl in Hp. apply fold_merge_origins in Hp. by rewrite Hp.
Qed.

(** *** The choice of the primary *)








Lemma dedupBreakpoints_one_entry_per_line_witness :
  let all := [Samples.moved_3_5; Samples.kept_5; Samples.unsent_9] in
  Forall has_origin all ∧
  (NoDup (map DebugBreakpoint.line (dedupBreakpoints all)) ∧
   (∀ l, In l (map DebugBreakpoint.line (dedupBreakpoints all))
         ↔ In l (map DebugBreakpoint.line all)) ∧
   (∀ p, In p (dedupBreakpoints all) →
         Permutation (DebugBreakpoint.origins p)
           (flat_map DebugBreakpoint.origins
              (List.filter (on_line (DebugBreakpoint.line p)) all)))).
Proof.
  intros all.
  assert (Forall has_origin all) as Hall by (repeat constructor; done).
  exact (conj Hall (dedupBreakpoints_one_entry_per_line all Hall)).
Defined.

(** The lists that [updateBreakpoints] hands to [dedupBreakpoints] are made
    of breakpoints with an origin. *)
Lemma has_origin_update_enabled declared raws :
  Forall has_origin (update_enabled (map DebugBreakpoint.new declared) raws).
Proof.
  revert raws. induction declared as [|d ds IH]; intros raws; simpl; [constructor|].
  destruct raws as [|r raws].
  - constructor; [done|]. specialize (IH []).
    by destruct (map DebugBreakpoint.new ds).
  - destruct (DebugBreakpoint.enabled (DebugBreakpoint.new d)); by constructor.
Qed.



(** ** [updateBreakpoints] *)

Lemma origin_raws_new (declared : list SourceBreakpoint.t) :
  origin_raws (List.filter DebugBreakpoint.enabled (map DebugBreakpoint.new declared))
  = map SourceBreakpoint.raw (List.filter SourceBreakpoint.enabled declared).
Proof.
  induction declared as [|d ds IH]; simpl; [done|].
  unfold DebugBreakpoint.enabled at 1. simpl.
  destruct (SourceBreakpoint.enabled d); simpl; [|done].
  unfold origin_raws in *. simpl. by rewrite IH.
Qed.

Lemma length_enabled_new (declared : list SourceBreakpoint.t) :
  length (List.filter DebugBreakpoint.enabled (map DebugBreakpoint.new declared))
  = length (List.filter SourceBreakpoint.enabled declared).
Proof.
  induction declared as [|d ds IH]; simpl; [done|].
  unfold DebugBreakpoint.enabled at 1. simpl.
  destruct (SourceBreakpoint.enabled d); simpl; by rewrite ?IH.
Qed.

(** What the resync of one resource does, step by step. *)
Lemma updateBreakpoints_of_run adapter sourceModified uri s :
  DebugSessionConnection.disposed (DebugSession.connection s) = false →
  let declared := BreakpointManager.findMarkers (Some uri) (DebugSession.breakpoints s) in
  let request :=
    Request.setBreakpoints uri sourceModified
      (map SourceBreakpoint.raw (List.filter SourceBreakpoint.enabled declared)) in
  let s1 :=
    DebugSession.with_connection
      (DebugSessionConnection.send request (DebugSession.connection s)) s in
  updateBreakpoints_of adapter sourceModified uri s =
    match adapter (DebugSessionConnection.sent (DebugSession.connection s) ++ [request]) with
    | Ok (SetBreakpointsBody raws) =>
        if (length (List.filter SourceBreakpoint.enabled declared) <? length raws)%nat
        then (Throw TypeError, s1)
        else (Ok tt,
              DebugSession.fireDidChangeBreakpoints uri
                (DebugSession.with__breakpoints
                   (JsMap.set uri
                      (dedupBreakpoints (update_enabled (map DebugBreakpoint.new declared) raws))
                      (DebugSession._breakpoints s1)) s1))
    | Ok _ => (Throw TypeError, s1)
    | Throw e => (Throw e, s1)
    end.
Proof.
  intros Hd declared request s1.
  unfold updateBreakpoints_of, bind, gets, sendRequest. rewrite Hd.
  rewrite origin_raws_new, length_enabled_new. fold declared. fold request. simpl.
  destruct (adapter _) as [[]|]; try done.
  by destruct (_ <? _)%nat.
Qed.

(** C2, as amended. A resync of a resource sends one [setBreakpoints]
    request whose breakpoints are all the enabled declarations of the
    resource, in the order of the store, not deduplicated; when the adapter
    answers with no more results than breakpoints sent, the session keeps
    for the resource the deduplicated list of all the declarations, with the
    adapter's results applied. *)
Theorem updateBreakpoints_sends_enabled_declarations
    (adapter : list Request.t → Result ResponseBody)
    (uri : string) (sourceModified : bool) (s : DebugSession.t) :
  DebugSessionConnection.disposed (DebugSession.connection s) = false →
  let declared := BreakpointManager.findMarkers (Some uri) (DebugSession.breakpoints s) in
  let enabled := List.filter SourceBreakpoint.enabled declared in
  let request := Request.setBreakpoints uri sourceModified (map SourceBreakpoint.raw enabled) in
  let s' := snd (updateBreakpoints adapter (Some uri) sourceModified s) in
  DebugSessionConnection.sent (DebugSession.connection s')
    = DebugSessionConnection.sent (DebugSession.connection s) ++ [request] ∧
  ∀ raws,
    adapter (DebugSessionConnection.sent (DebugSession.connection s) ++ [request])
      = Ok (SetBreakpointsBody raws) →
    (length raws ≤ length enabled)%nat →
    DebugSession._breakpoints s'
      = JsMap.set uri
          (dedupBreakpoints (update_enabled (map DebugBreakpoint.new declared) raws))
          (DebugSession._breakpoints s).
Proof.
  intros Hd declared enabled request s'.
  assert (s' = snd (updateBreakpoints_of adapter sourceModified uri s)) as ->.
  { unfold s', updateBreakpoints, bind, gets, getAffectedUris. simpl.
    unfold bind, ret. by destruct (updateBreakpoints_of _ _ _ _) as [[[]|] ?]. }
  rewrite updateBreakpoints_of_run by done. fold declared enabled request.
  split.
  - destruct (adapter _) as [[]|]; try done. by destruct (_ <? _)%nat.
  - intros raws -> Hlen.
    destruct (Nat.ltb_spec (length enabled) (length raws)); [lia|done].
Qed.

Lemma updateBreakpoints_sends_enabled_declarations_witness :
  DebugSessionConnection.disposed (DebugSession.connection Samples.session_a) = false ∧
  (let declared :=
     BreakpointManager.findMarkers (Some "file:///a.js")
       (DebugSession.breakpoints Samples.session_a) in
   let enabled := List.filter SourceBreakpoint.enabled declared in
   let request :=
     Request.setBreakpoints "file:///a.js" true (map SourceBreakpoint.raw enabled) in
   let s' := snd (updateBreakpoints Samples.obliging_adapter (Some "file:///a.js") true
                    Samples.session_a) in
   DebugSessionConnection.sent (DebugSession.connection s')
     = DebugSessionConnection.sent (DebugSession.connection Samples.session_a) ++ [request] ∧
   ∀ raws,
     Samples.obliging_adapter
       (DebugSessionConnection.sent (DebugSession.connection Samples.session_a) ++ [request])
       = Ok (SetBreakpointsBody raws) →
     (length raws ≤ length enabled)%nat →
     DebugSession._breakpoints s'
       = JsMap.set "file:///a.js"
           (dedupBreakpoints (update_enabled (map DebugBreakpoint.new declared) raws))
           (DebugSession._breakpoints Samples.session_a)).
Proof.
  exact (conj eq_refl
    (updateBreakpoints_sends_enabled_declarations Samples.obliging_adapter
       "file:///a.js" true Samples.session_a eq_refl)).
Defined.

(** C2, counterexample. The store declares two enabled breakpoints on line 5
    of a resource. The request carries both of them, not the single one
    that deduplication by line would leave. *)
Lemma updateBreakpoints_sends_two_on_one_line :
  ¬ (∀ (adapter : list Request.t → Result ResponseBody) uri sourceModified s,
       DebugSessionConnection.disposed (DebugSession.connection s) = false →
       DebugSessionConnection.sent
         (DebugSession.connection (snd (updateBreakpoints adapter (Some uri) sourceModified s)))
       = DebugSessionConnection.sent (DebugSession.connection s) ++
         [Request.setBreakpoints uri sourceModified
            (deduplicated_enabled
               (BreakpointManager.findMarkers (Some uri) (DebugSession.breakpoints s)))]).
Proof.
  intros H.
  specialize (H Samples.obliging_adapter "file:///a.js" true Samples.session_a eq_refl).
  vm_compute in H. discriminate H.
Qed.

Example updateBreakpoints_request_of_store_a :
  DebugSessionConnection.sent
    (DebugSession.connection
       (snd (updateBreakpoints Samples.obliging_adapter (Some "file:///a.js") true
               Samples.session_a)))
  = [Request.setBreakpoints "file:///a.js" true
       [{| DebugProtocol.line := 5; DebugProtocol.column := Some 1 |};
        {| DebugProtocol.line := 5; DebugProtocol.column := Some 8 |}]].
Proof. reflexivity. Qed.

(** ** Capabilities *)

(** C9. Processing a [capabilities] event writes the fields of the payload
    over the stored capability set: a field of the payload takes the
    payload's value, and every field that the payload does not mention keeps
    the value it had. *)
Theorem capabilities_event_merges
    (adapter : list Request.t → Result ResponseBody)
    (capabilities : DebugProtocol.Capabilities) (s : DebugSession.t) (field : string) :
  DebugSession._capabilities
    (snd (on_event adapter (DebugEvent.capabilities capabilities) s)) !! field
  = match capabilities !! field with
    | Some v => Some v
    | None => DebugSession._capabilities s !! field
    end.
Proof.
  simpl. unfold updateCapabilities. simpl. rewrite lookup_union.
  by destruct (capabilities !! field), (DebugSession._capabilities s !! field).
Qed.

(** ** [getBreakpoints] of the manager *)

Lemma state_past_Initializing (s : DebugSession.t) :
  (DebugState_value (state s) >? DebugState_value Initializing)
  = negb (DebugSessionConnection.disposed (DebugSession.connection s))
    && DebugSession.initialized s.
Proof.
  unfold state.
  destruct (DebugSessionConnection.disposed _); [done|].
  destruct (DebugSession.initialized s); simpl; [|done].
  destruct (DebugSession._currentThread s) as [r|].
  - by destruct (thread_stopped s r).
  - by destruct (stoppedThreads s).
Qed.

(** C10. Called with a URI, [getBreakpoints] of the manager takes the given
    session, or else the current one. If that session is past Initializing
    (its connection is open and it is configured), the result is the
    session's breakpoints of every resource, whatever the URI; otherwise, or
    without a session, it is the store's declarations for the URI. *)
Theorem manager_getBreakpoints_ignores_uri_of_live_session
    (m : DebugSessionManager.t) (uri : string) (given : option DebugSession.t) :
  DebugSessionManager.getBreakpoints (Some (DebugSessionManager.ArgURI uri)) given m
  = let declared :=
      map DebugBreakpoint.new
        (BreakpointManager.findMarkers (Some uri) (DebugSessionManager.breakpoints m)) in
    match (match given with
           | Some s => Some s
           | None => DebugSessionManager.currentSession m
           end) with
    | Some s =>
        if negb (DebugSessionConnection.disposed (DebugSession.connection s))
           && DebugSession.initialized s
        then concat (JsMap.values (DebugSession._breakpoints s))
        else declared
    | None => declared
    end.
Proof.
  unfold DebugSessionManager.getBreakpoints. simpl.
  destruct given as [s|]; [|destruct (DebugSessionManager.currentSession m) as [s|]];
    try done; by rewrite state_past_Initializing.
Qed.

(** ** [start] *)

(** C6, as amended. When the adapter accepts [initialize] and rejects the
    [launch] or [attach] request, [start] fires one local [exited] event
    that carries the reason and asks for the error message to be shown; the
    log of requests shows [initialize] and one [launch] or [attach]
    request, so nothing was tried again. [start] ends by throwing: the
    reason itself when the message has been shown, and the error of
    [messages.showMessage] when that call rejects. *)
Theorem start_failure_fires_exited_and_rethrows
    (adapter : list Request.t → Result ResponseBody)
    (showMessage : Error → Result unit)
    (s : DebugSession.t) (body : ResponseBody) (reason : Error) :
  let c := DebugSession.connection s in
  let init := Request.initialize (DebugConfiguration.type (DebugSession.configuration s)) in
  let go := launch_request (DebugSession.configuration s) in
  DebugSessionConnection.disposed c = false →
  adapter (DebugSessionConnection.sent c ++ [init]) = Ok body →
  adapter (DebugSessionConnection.sent c ++ [init; go]) = Throw reason →
  let result := start adapter showMessage s in
  let c' := DebugSession.connection (snd result) in
  DebugSessionConnection.fired c' = DebugSessionConnection.fired c ++ [exited reason] ∧
  DebugSessionConnection.sent c' = DebugSessionConnection.sent c ++ [init; go] ∧
  DebugSession.shown (snd result) = DebugSession.shown s ++ [reason] ∧
  fst result = match showMessage reason with
               | Ok _ => Throw reason
               | Throw e => Throw e
               end.
Proof.
  intros c init go Hd Hinit Hgo.
  change (DebugSessionConnection.sent c ++ [init; go])
    with (DebugSessionConnection.sent c ++ [init] ++ [go]) in *.
  rewrite app_assoc in Hgo. subst c.
  unfold start, initialize, launchOrAttach, bind, try_catch, gets, modify, fire,
    show_error, throw, sendRequest, ret.
  rewrite Hd. simpl. fold init. rewrite Hinit. simpl.
  subst go. unfold launch_request in *.
  destruct (String.eqb _ "attach"); simpl; rewrite Hd; simpl; rewrite Hgo; simpl;
    destruct (showMessage reason) as [[]|e]; simpl; by rewrite <- app_assoc.
Qed.

Lemma start_failure_fires_exited_and_rethrows_witness :
  let s := Samples.session_a in
  let showMessage := λ _ : Error, Ok tt in
  let reason := AdapterError "cannot launch" in
  let c := DebugSession.connection s in
  let init := Request.initialize (DebugConfiguration.type (DebugSession.configuration s)) in
  let go := launch_request (DebugSession.configuration s) in
  DebugSessionConnection.disposed c = false ∧
  Samples.refusing_adapter (DebugSessionConnection.sent c ++ [init]) = Ok (InitializeBody ∅) ∧
  Samples.refusing_adapter (DebugSessionConnection.sent c ++ [init; go]) = Throw reason ∧
  (let result := start Samples.refusing_adapter showMessage s in
   let c' := DebugSession.connection (snd result) in
   DebugSessionConnection.fired c' = DebugSessionConnection.fired c ++ [exited reason] ∧
   DebugSessionConnection.sent c' = DebugSessionConnection.sent c ++ [init; go] ∧
   DebugSession.shown (snd result) = DebugSession.shown s ++ [reason] ∧
   fst result = match showMessage reason with
                | Ok _ => Throw reason
                | Throw e => Throw e
                end).
Proof.
  intros s showMessage reason c init go.
  exact (conj eq_refl (conj eq_refl (conj eq_refl
    (start_failure_fires_exited_and_rethrows Samples.refusing_adapter showMessage s
       (InitializeBody ∅) reason eq_refl eq_refl eq_refl)))).
Defined.

(** C6, counterexample. The launch request is rejected and the message
    service rejects too: [start] throws the error of the message service,
    not the launch failure. *)
Lemma start_failure_rethrows_message_error :
  ¬ (∀ (adapter : list Request.t → Result ResponseBody)
       (showMessage : Error → Result unit) (s : DebugSession.t)
       (body : ResponseBody) (reason : Error),
       let c := DebugSession.connection s in
       let init :=
         Request.initialize (DebugConfiguration.type (DebugSession.configuration s)) in
       let go := launch_request (DebugSession.configuration s) in
       DebugSessionConnection.disposed c = false →
       adapter (DebugSessionConnection.sent c ++ [init]) = Ok body →
       adapter (DebugSessionConnection.sent c ++ [init; go]) = Throw reason →
       fst (start adapter showMessage s) = Throw reason).
Proof.
  intros H.
  specialize (H Samples.refusing_adapter
                (λ _, Throw (AdapterError "no message service"))
                Samples.session_a (InitializeBody ∅) (AdapterError "cannot launch")
                eq_refl eq_refl eq_refl).
  discriminate H.
Qed.

(** ** [configure] *)

Lemma resynced_refl s : resynced [] s s.
Proof.
  exists (DebugSession._breakpoints s), (DebugSession.didChangeBreakpoints s).
  rewrite app_nil_r. by destruct s as [? ? ? [] ? ? ? ? ? ? ? ? ? ? ?].
Qed.

Lemma resynced_trans log1 log2 s1 s2 s3 :
  resynced log1 s1 s2 → resynced log2 s2 s3 → resynced (log1 ++ log2) s1 s3.
Proof.
  intros (k1 & n1 & ->) (k2 & n2 & ->). exists k2, n2. simpl. by rewrite app_assoc.
Qed.

Lemma updateBreakpoints_of_acknowledged adapter uri s :
  acknowledges adapter →
  DebugSessionConnection.disposed (DebugSession.connection s) = false →
  ∃ s', updateBreakpoints_of adapter false uri s = (Ok tt, s') ∧
        resynced [first_sync_request (DebugSession.breakpoints s) uri] s s'.
Proof.
  intros [Hack _] Hd. rewrite updateBreakpoints_of_run by done.
  destruct (Hack (DebugSessionConnection.sent (DebugSession.connection s)) uri false
              (map SourceBreakpoint.raw
                 (List.filter SourceBreakpoint.enabled
                    (BreakpointManager.findMarkers (Some uri) (DebugSession.breakpoints s)))))
    as (raws & -> & Hlen).
  rewrite length_map in Hlen.
  destruct (Nat.ltb_spec
              (length (List.filter SourceBreakpoint.enabled
                         (BreakpointManager.findMarkers (Some uri) (DebugSession.breakpoints s))))
              (length raws)); [lia|].
  eexists. split; [done|]. by eexists _, _.
Qed.

Lemma for_of_updateBreakpoints_acknowledged adapter uris s :
  acknowledges adapter →
  DebugSessionConnection.disposed (DebugSession.connection s) = false →
  ∃ s', for_of uris (updateBreakpoints_of adapter false) s = (Ok tt, s') ∧
        resynced (map (first_sync_request (DebugSession.breakpoints s)) uris) s s'.
Proof.
  intros Hack. revert s. induction uris as [|uri uris IH]; intros s Hd; simpl.
  - exists s. split; [done | apply resynced_refl].
  - destruct (updateBreakpoints_of_acknowledged adapter uri s Hack Hd) as (s1 & Hrun & Hres).
    unfold bind. rewrite Hrun.
    assert (DebugSessionConnection.disposed (DebugSession.connection s1) = false
            ∧ DebugSession.breakpoints s1 = DebugSession.breakpoints s) as [Hd1 Hb1].
    { by destruct Hres as (k & n & ->). }
    destruct (IH s1 Hd1) as (s2 & Hrun2 & Hres2).
    exists s2. split; [done|]. rewrite Hb1 in Hres2.
    by apply (resynced_trans [_] _ s s1 s2).
Qed.

Lemma bind_ok {St A B} (c : M St A) (k : A → M St B) s a s' :
  c s = (Ok a, s') → bind c k s = k a s'.
Proof. unfold bind. by intros ->. Qed.

(** [configure] on an open connection with no refresh under way and an
    adapter that acknowledges the requests: the first syncs, then
    [configurationDone] if the capability is set, then the refresh, whose
    [threads] request ends the log. *)
Lemma configure_acknowledged
    (adapter : list Request.t → Result ResponseBody) (s : DebugSession.t) :
  acknowledges adapter →
  DebugSessionConnection.disposed (DebugSession.connection s) = false →
  chain_idle s →
  let supported :=
    truthy (DebugSession._capabilities s !! "supportsConfigurationDoneRequest") in
  let before_refresh :=
    DebugSessionConnection.sent (DebugSession.connection s)
    ++ map (first_sync_request (DebugSession.breakpoints s))
         (BreakpointManager.getUris (DebugSession.breakpoints s))
    ++ (if supported then [Request.configurationDone] else []) in
  let result := configure adapter s in
  fst result = Ok tt ∧
  DebugSessionConnection.sent (DebugSession.connection (snd result))
    = before_refresh ++ [Request.threads] ∧
  DebugSessionConnection.awaiting (DebugSession.connection (snd result))
    = DebugSessionConnection.awaiting (DebugSession.connection s) ++ [Request.threads] ∧
  DebugSession.initialized (snd result) = true ∧
  ∃ configured,
    DebugSession.initialized configured = true ∧
    DebugSessionConnection.sent (DebugSession.connection configured) = before_refresh ∧
    snd result = updateThreads None configured.
Proof.
  intros Hack Hd [Hw Ho] supported before_refresh.
  destruct (for_of_updateBreakpoints_acknowledged adapter
              (BreakpointManager.getUris (DebugSession.breakpoints s)) s Hack Hd)
    as (s1 & Hsync & (kept & notified & Hs1)).
  assert (updateBreakpoints adapter None false s = (Ok tt, s1)) as Hub by exact Hsync.
  set (s2 := if supported
             then DebugSession.with_connection
                    (DebugSessionConnection.send Request.configurationDone
                       (DebugSession.connection s1)) s1
             else s1).
  assert ((let* capabilities := gets DebugSession._capabilities in
           if truthy (capabilities !! "supportsConfigurationDoneRequest")
           then sendRequest adapter Request.configurationDone >>> ret tt
           else ret tt) s1 = (Ok tt, s2)) as Hdone.
  { unfold bind, gets, sendRequest, ret. subst s1 s2. simpl. fold supported.
    destruct supported; [|done]. rewrite Hd.
    destruct Hack as [_ Hdone].
    match goal with
    | |- context [adapter (?l ++ [Request.configurationDone])] =>
        by destruct (Hdone l) as [body ->]
    end. }
  unfold configure.
  rewrite (bind_ok _ _ _ _ _ Hub), (bind_ok _ _ _ _ _ Hdone).
  unfold bind, modify. simpl.
  assert (DebugSessionConnection.sent (DebugSession.connection s2) = before_refresh
          ∧ DebugSessionConnection.disposed (DebugSession.connection s2) = false
          ∧ DebugSessionConnection.awaiting (DebugSession.connection s2)
            = DebugSessionConnection.awaiting (DebugSession.connection s)
          ∧ DebugSession.pendingThreads s2 = DebugSession.pendingThreads s)
    as (Hsent & Hd2 & Haw & Hp).
  { subst s1 s2 before_refresh. destruct supported; simpl;
      rewrite <- ?app_assoc, ?app_nil_r; done. }
  assert (updateThreads None (DebugSession.with_initialized true s2)
          = DebugSession.with_connection
              (DebugSessionConnection.await Request.threads
                 (DebugSessionConnection.send Request.threads (DebugSession.connection s2)))
              (DebugSession.with_pendingThreads
                 (PromiseChain.chain None (DebugSession.pendingThreads s2))
                 (DebugSession.with_initialized true s2))) as Hrefresh.
  { unfold updateThreads, start_pending. simpl. rewrite Hp, Hw. simpl.
    unfold PromiseChain.outcome in *. simpl. by rewrite Ho, Hd2. }
  split_and!.
  - done.
  - rewrite Hrefresh. simpl. by rewrite Hsent.
  - rewrite Hrefresh. simpl. by rewrite Haw.
  - by rewrite Hrefresh.
  - exists (DebugSession.with_initialized true s2). by split_and!.
Qed.

Lemma acknowledges_obliging : acknowledges Samples.obliging_adapter.
Proof.
  split.
  - intros log uri sm bps. unfold Samples.obliging_adapter. rewrite last_last.
    eexists. split; [done|]. by rewrite length_map.
  - intros log. unfold Samples.obliging_adapter. rewrite last_last. by eexists.
Qed.

Example configure_log_of_session_started :
  DebugSessionConnection.sent
    (DebugSession.connection
       (snd (on_event Samples.obliging_adapter DebugEvent.initialized Samples.session_started)))
  = [Request.initialize "node";
     Request.launch (Samples.node_launch "X");
     Request.setBreakpoints "file:///a.js" false
       [{| DebugProtocol.line := 5; DebugProtocol.column := Some 1 |};
        {| DebugProtocol.line := 5; DebugProtocol.column := Some 8 |}];
     Request.configurationDone;
     Request.threads].
Proof. reflexivity. Qed.

(** ** What the operations of a session leave alone *)

Lemma same_chain_refl s : same_chain s s.
Proof. by repeat split. Qed.

Lemma same_chain_trans s1 s2 s3 :
  same_chain s1 s2 → same_chain s2 s3 → same_chain s1 s3.
Proof. intros (? & ? & ?) (? & ? & ?). repeat split; congruence. Qed.

Lemma same_threads_refl s : same_threads s s.
Proof. by repeat split. Qed.

Lemma same_threads_trans s1 s2 s3 :
  same_threads s1 s2 → same_threads s2 s3 → same_threads s1 s3.
Proof. intros (? & ? & ?) (? & ? & ?). repeat split; congruence. Qed.

Lemma chain_ok_same s s' : same_chain s s' → chain_ok s → chain_ok s'.
Proof. intros (Hp & Ha & _) [? ?]. unfold chain_ok. by rewrite Hp, Ha. Qed.

Lemma current_ok_same s s' : same_threads s s' → current_ok s → current_ok s'.
Proof.
  intros (Ht & _ & Hc). unfold current_ok, get_threads. by rewrite Ht, Hc.
Qed.

Create HintDb session.
#[local] Hint Resolve same_chain_refl same_threads_refl : session.

(** [updateCurrentThread] always leaves a current thread of the map. *)
Lemma current_ok_updateCurrentThread stoppedDetails s :
  current_ok (updateCurrentThread stoppedDetails s).
Proof.
  unfold current_ok, updateCurrentThread, get_threads. simpl.
  match goal with |- context [?w ≫= (λ i, JsMap.get i _)] => destruct w as [i|] end; simpl.
  - destruct (JsMap.get i (DebugSession._threads s)) as [r|] eqn:Hg.
    + apply get_Some_In in Hg. change r with (snd (i, r)). by apply in_map.
    + destruct (JsMap.values (DebugSession._threads s)); simpl; [done | by left].
  - destruct (JsMap.values (DebugSession._threads s)); simpl; [done | by left].
Qed.

Lemma same_chain_updateCurrentThread stoppedDetails s :
  same_chain s (updateCurrentThread stoppedDetails s).
Proof. by repeat split. Qed.

Lemma same_chain_clear_objects l s : same_chain s (fold_left clear_object l s).
Proof.
  revert s. induction l as [|r l IH]; intros s; simpl; [auto with session|].
  eapply same_chain_trans; [|apply IH]. by repeat split.
Qed.

Lemma threads_clear_objects l s :
  DebugSession._threads (fold_left clear_object l s) = DebugSession._threads s.
Proof. revert s. induction l as [|r l IH]; intros s; simpl; [done|]. by rewrite IH. Qed.

Lemma same_chain_clearThreads s : same_chain s (clearThreads s).
Proof.
  eapply same_chain_trans; [apply same_chain_clear_objects|].
  apply same_chain_updateCurrentThread.
Qed.

Lemma same_chain_clearThread threadId s : same_chain s (clearThread threadId s).
Proof.
  unfold clearThread. eapply same_chain_trans; [|apply same_chain_updateCurrentThread].
  destruct (JsMap.get _ _); by repeat split.
Qed.

Lemma same_chain_doUpdateThreads threads stoppedDetails s :
  same_chain s (doUpdateThreads threads stoppedDetails s).
Proof.
  unfold doUpdateThreads.
  eapply same_chain_trans; [|apply same_chain_updateCurrentThread].
  generalize (DebugSession._threads s) at 1. intros existing.
  assert (same_chain s (DebugSession.with_threads JsMap.empty s)) as H0 by (by repeat split).
  revert H0. generalize (DebugSession.with_threads JsMap.empty s). 
  induction threads as [|raw threads IH]; intros s1 H1; simpl; [done|].
  apply IH. eapply same_chain_trans; [exact H1|].
  unfold doUpdateThreads_step. destruct (JsMap.get _ existing); by repeat split.
Qed.

(** The job of a refresh never throws. *)
Lemma refresh_resolves stoppedDetails response s :
  fst (refresh stoppedDetails response s) = Ok tt.
Proof. unfold refresh, try_catch. by destruct response as [[]|]. Qed.

Lemma refresh_cases stoppedDetails response s :
  snd (refresh stoppedDetails response s) =
    match response with
    | Ok (ThreadsBody threads) => doUpdateThreads threads stoppedDetails s
    | Ok NoBody | Throw _ => s
    | Ok _ => DebugSession.with_threads JsMap.empty s
    end.
Proof. unfold refresh, try_catch. by destruct response as [[]|]. Qed.

Lemma same_chain_refresh stoppedDetails response s :
  same_chain s (snd (refresh stoppedDetails response s)).
Proof.
  rewrite refresh_cases.
  destruct response as [[]|]; auto using same_chain_doUpdateThreads with session;
    by repeat split.
Qed.

Lemma current_ok_known s : current_ok s → current_known s.
Proof.
  unfold current_ok, current_known. destruct (DebugSession._currentThread s); auto.
Qed.

Lemma current_known_same s s' : same_threads s s' → current_known s → current_known s'.
Proof.
  intros (Ht & _ & Hc). unfold current_known, get_threads. by rewrite Ht, Hc.
Qed.

Lemma current_known_emptied s :
  current_known s → current_known (DebugSession.with_threads JsMap.empty s).
Proof.
  unfold current_known, get_threads. simpl.
  destruct (DebugSession._currentThread s); auto.
Qed.

Lemma current_known_refresh stoppedDetails response s :
  current_known s → current_known (snd (refresh stoppedDetails response s)).
Proof.
  rewrite refresh_cases. destruct response as [[]|]; try done;
    try apply current_known_emptied.
  intros _. apply current_ok_known, current_ok_updateCurrentThread.
Qed.

Lemma outcome_resolved (c : PromiseChain.t) :
  Forall (λ r, r = Ok tt) (PromiseChain.settled c) → PromiseChain.outcome c = Ok tt.
Proof.
  unfold PromiseChain.outcome. intros H.
  induction H as [|r l -> _ IH]; simpl; [done|]. by destruct l.
Qed.

(** A job that settles adds one resolved promise to the chain and leaves
    the queue; the connection is as before. *)
Lemma settle_job_chain response s job :
  Forall (λ r, r = Ok tt) (PromiseChain.settled (DebugSession.pendingThreads s)) →
  let s' := settle_job response s job in
  PromiseChain.settled (DebugSession.pendingThreads s')
    = PromiseChain.settled (DebugSession.pendingThreads s) ++ [Ok tt] ∧
  PromiseChain.waiting (DebugSession.pendingThreads s')
    = tail (PromiseChain.waiting (DebugSession.pendingThreads s)) ∧
  DebugSessionConnection.awaiting (DebugSession.connection s')
    = DebugSessionConnection.awaiting (DebugSession.connection s) ∧
  DebugSessionConnection.disposed (DebugSession.connection s')
    = DebugSessionConnection.disposed (DebugSession.connection s).
Proof.
  intros Hok. unfold settle_job. rewrite (outcome_resolved _ Hok).
  pose proof (refresh_resolves job response s) as Hr.
  pose proof (same_chain_refresh job response s) as (Hp & Ha & Hd).
  destruct (refresh job response s) as [r s1]. simpl in *. subst r.
  by rewrite Hp.
Qed.

Lemma settle_job_threads response s job :
  DebugSession._threads (settle_job response s job)
    = DebugSession._threads (snd (refresh job response s)) ∧
  DebugSession.threadObjects (settle_job response s job)
    = DebugSession.threadObjects (snd (refresh job response s)) ∧
  DebugSession._currentThread (settle_job response s job)
    = DebugSession._currentThread (snd (refresh job response s))
  ∨ same_threads s (settle_job response s job).
Proof.
  unfold settle_job. destruct (PromiseChain.outcome _).
  - left. by destruct (refresh job response s).
  - right. by repeat split.
Qed.

Lemma current_known_settle_job response s job :
  current_known s → current_known (settle_job response s job).
Proof.
  intros Hc. destruct (settle_job_threads response s job) as [(Ht & _ & Hcur)|Hs].
  - pose proof (current_known_refresh job response s Hc) as Hc'.
    unfold current_known, get_threads in *. by rewrite Ht, Hcur.
  - by apply (current_known_same s).
Qed.

(** A job whose request fails leaves the threads as they are. *)
Lemma same_threads_settle_job_failed e s job :
  same_threads s (settle_job (Throw e) s job).
Proof.
  destruct (settle_job_threads (Throw e) s job) as [(Ht & Ho & Hcur)|Hs]; [|done].
  by rewrite refresh_cases in Ht, Ho, Hcur.
Qed.

Lemma fold_settle_job_chain response jobs s :
  Forall (λ r, r = Ok tt) (PromiseChain.settled (DebugSession.pendingThreads s)) →
  let s' := fold_left (settle_job response) jobs s in
  PromiseChain.settled (DebugSession.pendingThreads s')
    = PromiseChain.settled (DebugSession.pendingThreads s)
      ++ repeat (Ok tt) (length jobs) ∧
  PromiseChain.waiting (DebugSession.pendingThreads s')
    = drop (length jobs) (PromiseChain.waiting (DebugSession.pendingThreads s)) ∧
  DebugSessionConnection.awaiting (DebugSession.connection s')
    = DebugSessionConnection.awaiting (DebugSession.connection s) ∧
  DebugSessionConnection.disposed (DebugSession.connection s')
    = DebugSessionConnection.disposed (DebugSession.connection s).
Proof.
  revert s. induction jobs as [|job jobs IH]; intros s Hok; simpl.
  - by rewrite app_nil_r.
  - destruct (settle_job_chain response s job Hok) as (Hs & Hw & Ha & Hd).
    destruct (IH (settle_job response s job)) as (Hs' & Hw' & Ha' & Hd').
    { rewrite Hs. apply Forall_app. split; [done | by repeat constructor]. }
    rewrite Hs', Hw', Ha', Hd', Hs, Hw. split_and!; try done.
    + by rewrite <- app_assoc.
    + destruct (PromiseChain.waiting (DebugSession.pendingThreads s)); simpl;
        by rewrite ?drop_nil.
Qed.

Lemma fold_settle_job_failed_threads e jobs s :
  same_threads s (fold_left (settle_job (Throw e)) jobs s).
Proof.
  revert s. induction jobs as [|job jobs IH]; intros s; simpl; [auto with session|].
  eapply same_threads_trans; [|apply IH]. apply same_threads_settle_job_failed.
Qed.

Lemma Forall_repeat_resolved (l : list (Result unit)) n :
  Forall (λ r, r = Ok tt) l → Forall (λ r, r = Ok tt) (l ++ repeat (Ok tt) n).
Proof.
  intros H. apply Forall_app. split; [done|].
  induction n; simpl; by constructor.
Qed.

(** When nothing is in flight, starting the first waiting refresh gives a
    well-formed chain again. *)
Lemma chain_ok_start_pending s :
  Forall (λ r, r = Ok tt) (PromiseChain.settled (DebugSession.pendingThreads s)) →
  DebugSessionConnection.awaiting (DebugSession.connection s) = [] →
  chain_ok (start_pending s) ∧
  (length (PromiseChain.settled (DebugSession.pendingThreads s))
   ≤ length (PromiseChain.settled (DebugSession.pendingThreads (start_pending s))))%nat.
Proof.
  intros Hok Ha. unfold start_pending, chain_ok.
  destruct (PromiseChain.waiting (DebugSession.pendingThreads s)) as [|job jobs] eqn:Hw.
  { rewrite Hw. by rewrite Ha. }
  rewrite (outcome_resolved _ Hok).
  destruct (DebugSessionConnection.disposed (DebugSession.connection s)).
  - destruct (fold_settle_job_chain (Throw ConnectionClosed) (job :: jobs) s Hok)
      as (Hs & Hw' & Ha' & _).
    rewrite Hs, Hw', Ha', Hw, Ha. simpl. rewrite drop_all. split_and!; try done.
    + by apply (Forall_repeat_resolved _ (S (length jobs))).
    + rewrite length_app. lia.
  - simpl. rewrite Hw, Ha. by split_and!.
Qed.

Lemma same_threads_start_pending s : same_threads s (start_pending s).
Proof.
  unfold start_pending.
  destruct (PromiseChain.waiting _) as [|job jobs]; [auto with session|].
  destruct (PromiseChain.outcome (DebugSession.pendingThreads s)),
    (DebugSessionConnection.disposed (DebugSession.connection s));
    try (by repeat split); apply fold_settle_job_failed_threads.
Qed.

Lemma chain_ok_updateThreads stoppedDetails s :
  chain_ok s → chain_ok (updateThreads stoppedDetails s).
Proof.
  intros [Hok Ha]. unfold updateThreads.
  destruct (PromiseChain.waiting (DebugSession.pendingThreads s)) as [|job jobs] eqn:Hw.
  - by apply chain_ok_start_pending.
  - split; simpl; [done|]. by rewrite Hw, Ha.
Qed.

Lemma same_threads_updateThreads stoppedDetails s :
  same_threads s (updateThreads stoppedDetails s).
Proof.
  unfold updateThreads. destruct (PromiseChain.waiting _); [|by repeat split].
  eapply same_threads_trans; [|apply same_threads_start_pending]. by repeat split.
Qed.

Lemma chain_ok_threads_response response s :
  chain_ok s → chain_ok (threads_response response s).
Proof.
  intros [Hok Ha]. unfold threads_response.
  destruct (PromiseChain.waiting (DebugSession.pendingThreads s)) as [|job jobs] eqn:Hw;
    [by split; rewrite ?Hw|].
  rewrite Ha.
  match goal with |- chain_ok (start_pending (settle_job ?r ?s1 job)) =>
    destruct (settle_job_chain r s1 job Hok) as (Hs' & Hw' & Ha' & Hd') end.
  apply chain_ok_start_pending.
  - rewrite Hs'. apply Forall_app. split; [done | by repeat constructor].
  - rewrite Ha'. simpl. by rewrite Ha.
Qed.

Lemma current_known_threads_response response s :
  current_known s → current_known (threads_response response s).
Proof.
  intros Hc. unfold threads_response.
  destruct (PromiseChain.waiting _) as [|job jobs]; [done|].
  destruct (DebugSessionConnection.awaiting _); [done|].
  eapply current_known_same; [apply same_threads_start_pending|].
  by apply current_known_settle_job.
Qed.

(** ** The invariant along the inputs *)

Lemma session_inv_same s s' :
  same_chain s s' → same_threads s s' → session_inv s → session_inv s'.
Proof.
  intros Hc Ht [? ?]. split; [by apply (chain_ok_same s) | by apply (current_known_same s)].
Qed.

Lemma bind_inv {St A B} (P : St → Prop) (c : M St A) (k : A → M St B) s :
  (∀ s, P s → P (snd (c s))) → (∀ a s, P s → P (snd (k a s))) →
  P s → P (snd (bind c k s)).
Proof.
  intros Hc Hk Hs. unfold bind. specialize (Hc s Hs).
  destruct (c s) as [[a|e] s1]; simpl in *; [by apply Hk | done].
Qed.

Lemma for_of_inv {St A} (P : St → Prop) (f : A → M St unit) l :
  (∀ x s, P s → P (snd (f x s))) → ∀ s, P s → P (snd (for_of l f s)).
Proof.
  intros Hf. induction l as [|x l IH]; intros s Hs; simpl; [done|].
  apply bind_inv; auto.
Qed.

Lemma session_inv_sendRequest adapter req s :
  session_inv s → session_inv (snd (sendRequest adapter req s)).
Proof.
  unfold sendRequest. destruct (DebugSessionConnection.disposed _) eqn:Hd; [done|].
  apply session_inv_same; by repeat split.
Qed.

Lemma session_inv_updateBreakpoints_of adapter sourceModified uri s :
  session_inv s → session_inv (snd (updateBreakpoints_of adapter sourceModified uri s)).
Proof.
  intros Hs. unfold updateBreakpoints_of.
  apply bind_inv; [done | | done]. intros all s1 Hs1.
  apply bind_inv; [apply session_inv_sendRequest | | done]. intros response s2 Hs2.
  destruct response; try done. destruct (_ <? _)%nat; [done|].
  simpl. revert Hs2. apply session_inv_same; by repeat split.
Qed.

Lemma session_inv_updateBreakpoints adapter uri sourceModified s :
  session_inv s → session_inv (snd (updateBreakpoints adapter uri sourceModified s)).
Proof.
  intros Hs. unfold updateBreakpoints. apply bind_inv; [done | | done].
  intros uris s1 Hs1. apply for_of_inv; [|done].
  intros. by apply session_inv_updateBreakpoints_of.
Qed.

Lemma session_inv_updateThreads stoppedDetails s :
  session_inv s → session_inv (updateThreads stoppedDetails s).
Proof.
  intros [Hc Ht]. split; [by apply chain_ok_updateThreads|].
  eapply current_known_same; [apply same_threads_updateThreads | done].
Qed.

Lemma session_inv_configure adapter s :
  session_inv s → session_inv (snd (configure adapter s)).
Proof.
  intros Hs. unfold configure.
  apply bind_inv; [intros; by apply session_inv_updateBreakpoints | | done].
  intros _ s1 Hs1. apply bind_inv; [| | done].
  - intros s2 Hs2. apply bind_inv; [done | | done]. intros caps s3 Hs3.
    destruct (truthy _); [|done].
    apply bind_inv; [apply session_inv_sendRequest | done | done].
  - intros _ s2 Hs2. apply bind_inv; [| | done].
    + intros s3. simpl. apply session_inv_same; by repeat split.
    + intros _ s3 Hs3. simpl. by apply session_inv_updateThreads.
Qed.

Lemma session_inv_current s :
  chain_ok s → ∀ stoppedDetails s1,
  same_chain s s1 → session_inv (updateCurrentThread stoppedDetails s1).
Proof.
  intros Hc sd s1 Hs. split; [|apply current_ok_known, current_ok_updateCurrentThread].
  eapply chain_ok_same; [|exact Hc].
  eapply same_chain_trans; [exact Hs | apply same_chain_updateCurrentThread].
Qed.

Lemma session_inv_clearThreads s : session_inv s → session_inv (clearThreads s).
Proof.
  intros [Hc _]. apply (session_inv_current s Hc). apply same_chain_clear_objects.
Qed.

Lemma session_inv_clearThread threadId s :
  session_inv s → session_inv (clearThread threadId s).
Proof.
  intros [Hc _]. apply (session_inv_current s Hc).
  destruct (JsMap.get _ _); by repeat split.
Qed.

Lemma session_inv_on_event adapter e s :
  session_inv s → session_inv (snd (on_event adapter e s)).
Proof.
  intros Hs. destruct e as [|atc tid|body|reason tid|caps]; simpl.
  - by apply session_inv_configure.
  - case_bool_decide; simpl; [by apply session_inv_clearThreads
                             | by apply session_inv_clearThread].
  - by apply session_inv_updateThreads.
  - destruct (String.eqb reason "started"); simpl.
    { revert Hs. apply session_inv_same; by repeat split. }
    destruct (String.eqb reason "exited"); simpl; [|done].
    by apply session_inv_clearThread.
  - revert Hs. apply session_inv_same; by repeat split.
Qed.

Lemma same_chain_clearBreakpoints s : same_chain s (clearBreakpoints s).
Proof.
  unfold clearBreakpoints.
  assert (same_chain s (DebugSession.with__breakpoints JsMap.empty s)) as H0
    by (by repeat split).
  revert H0. generalize (DebugSession.with__breakpoints JsMap.empty s).
  induction (JsMap.keys (DebugSession._breakpoints s)) as [|u us IH]; intros s1 H1;
    simpl; [done|].
  apply IH. eapply same_chain_trans; [exact H1|]. by repeat split.
Qed.

Lemma session_inv_dispose s : session_inv s → session_inv (dispose s).
Proof.
  intros Hs. unfold dispose.
  destruct (DebugSessionConnection.disposed _); [done|].
  destruct Hs as [[Hok Ha] _].
  split; [|apply current_ok_known, current_ok_updateCurrentThread].
  set (s1 := DebugSession.with_connection _ s).
  assert (chain_ok s1) as Hc1 by (by split).
  eapply chain_ok_same; [|exact Hc1].
  eapply same_chain_trans; [apply same_chain_clearBreakpoints|].
  apply same_chain_doUpdateThreads.
Qed.

Lemma session_inv_step adapter s i : session_inv s → session_inv (step adapter s i).
Proof.
  intros Hs. destruct i as [e|response| |uri store|]; simpl.
  - destruct (DebugSessionConnection.disposed _); [done|].
    by apply session_inv_on_event.
  - destruct Hs. split; [by apply chain_ok_threads_response
                        | by apply current_known_threads_response].
  - unfold debounce_elapsed. destruct (DebugSession.scheduled s); [|done].
    apply session_inv_updateThreads. revert Hs. apply session_inv_same; by repeat split.
  - destruct (DebugSessionConnection.disposed _); [done|].
    apply session_inv_updateBreakpoints.
    revert Hs. apply session_inv_same; by repeat split.
  - by apply session_inv_dispose.
Qed.

Lemma session_inv_new id configuration breakpoints :
  session_inv (DebugSession.new id configuration breakpoints).
Proof. by repeat split. Qed.

Lemma session_inv_run adapter inputs s :
  session_inv s → session_inv (run adapter s inputs).
Proof.
  revert s. induction inputs as [|i inputs IH]; intros s Hs; simpl; [done|].
  apply IH. by apply session_inv_step.
Qed.

(** ** The refresh chain *)

Lemma same_threads_threads_response_failed e s :
  same_threads s (threads_response (Throw e) s).
Proof.
  unfold threads_response.
  destruct (PromiseChain.waiting _) as [|job jobs]; [auto with session|].
  destruct (DebugSessionConnection.awaiting _); [auto with session|].
  eapply same_threads_trans; [|apply same_threads_start_pending].
  assert (∃ e', (if DebugSessionConnection.disposed (DebugSession.connection s)
                 then Throw ConnectionClosed else Throw e) = Throw e') as [e' ->]
    by (destruct (DebugSessionConnection.disposed _); by eexists).
  eapply same_threads_trans; [|apply same_threads_settle_job_failed]. by repeat split.
Qed.

Lemma threads_response_settles response s :
  chain_ok s → PromiseChain.waiting (DebugSession.pendingThreads s) ≠ [] →
  (length (PromiseChain.settled (DebugSession.pendingThreads s))
   < length (PromiseChain.settled
               (DebugSession.pendingThreads (threads_response response s))))%nat.
Proof.
  intros [Hok Ha] Hw. unfold threads_response.
  destruct (PromiseChain.waiting (DebugSession.pendingThreads s)) as [|job jobs]; [done|].
  rewrite Ha.
  match goal with |- context [start_pending (settle_job ?r ?s1 job)] =>
    destruct (settle_job_chain r s1 job Hok) as (Hs' & Hw' & Ha' & Hd');
    destruct (chain_ok_start_pending (settle_job r s1 job)) as [_ Hle]
  end.
  - rewrite Hs'. apply Forall_app. split; [done | by repeat constructor].
  - rewrite Ha'. simpl. by rewrite Ha.
  - rewrite Hs', length_app in Hle. simpl in *. lia.
Qed.

(** C7. In every session that the inputs can reach: every promise of the
    refresh chain that has settled has resolved, none has rejected; at most
    one [threads] request is in flight, and one is in flight exactly while a
    refresh is waiting; a call of [updateThreads] made while a refresh is
    waiting sends nothing and queues its refresh behind the waiting ones;
    the answer to the request in flight settles at least one more promise;
    and when that answer is a failure, the thread map, the thread objects
    and the current thread stay exactly as they were. *)
Theorem updateThreads_resolves_serialized
    (adapter : list Request.t → Result ResponseBody)
    (id : string) (configuration : DebugConfiguration.t) (store : BreakpointManager.t)
    (inputs : list Input) :
  let s := run adapter (DebugSession.new id configuration store) inputs in
  let chain := DebugSession.pendingThreads s in
  let in_flight := DebugSessionConnection.awaiting (DebugSession.connection s) in
  Forall (λ r, r = Ok tt) (PromiseChain.settled chain) ∧
  (length in_flight ≤ 1)%nat ∧
  (in_flight = [] ↔ PromiseChain.waiting chain = []) ∧
  (∀ stoppedDetails,
     PromiseChain.waiting chain ≠ [] →
     DebugSessionConnection.sent (DebugSession.connection (updateThreads stoppedDetails s))
       = DebugSessionConnection.sent (DebugSession.connection s) ∧
     PromiseChain.waiting (DebugSession.pendingThreads (updateThreads stoppedDetails s))
       = PromiseChain.waiting chain ++ [stoppedDetails]) ∧
  (∀ response,
     PromiseChain.waiting chain ≠ [] →
     (length (PromiseChain.settled chain)
      < length (PromiseChain.settled
                  (DebugSession.pendingThreads (step adapter s (ThreadsResponse response)))))%nat) ∧
  (∀ e, same_threads s (step adapter s (ThreadsResponse (Throw e)))).
Proof.
  intros s chain in_flight.
  destruct (session_inv_run adapter inputs _ (session_inv_new id configuration store))
    as [Hchain _].
  fold s in Hchain. pose proof Hchain as [Hok Ha]. fold chain in_flight in Hok, Ha.
  split_and!.
  - done.
  - rewrite Ha. destruct (PromiseChain.waiting chain); simpl; lia.
  - rewrite Ha. by destruct (PromiseChain.waiting chain).
  - intros sd Hw. unfold updateThreads. subst chain.
    destruct (PromiseChain.waiting (DebugSession.pendingThreads s)) eqn:Hq; [done|].
    simpl. by rewrite Hq.
  - intros response Hw. by apply threads_response_settles.
  - intros e. apply same_threads_threads_response_failed.
Qed.

Lemma updateThreads_resolves_serialized_witness :
  let s := run Samples.obliging_adapter
             (DebugSession.new "s1" (Samples.node_launch "X") Samples.store_a)
             [Deliver DebugEvent.initialized;
              Deliver (DebugEvent.stopped Samples.stopped_7_keep_focus)] in
  let chain := DebugSession.pendingThreads s in
  let in_flight := DebugSessionConnection.awaiting (DebugSession.connection s) in
  PromiseChain.waiting chain ≠ [] ∧
  (Forall (λ r, r = Ok tt) (PromiseChain.settled chain) ∧
   (length in_flight ≤ 1)%nat ∧
   (in_flight = [] ↔ PromiseChain.waiting chain = []) ∧
   (∀ stoppedDetails,
      PromiseChain.waiting chain ≠ [] →
      DebugSessionConnection.sent (DebugSession.connection (updateThreads stoppedDetails s))
        = DebugSessionConnection.sent (DebugSession.connection s) ∧
      PromiseChain.waiting (DebugSession.pendingThreads (updateThreads stoppedDetails s))
        = PromiseChain.waiting chain ++ [stoppedDetails]) ∧
   (∀ response,
      PromiseChain.waiting chain ≠ [] →
      (length (PromiseChain.settled chain)
       < length (PromiseChain.settled
                   (DebugSession.pendingThreads
                      (step Samples.obliging_adapter s (ThreadsResponse response)))))%nat) ∧
   (∀ e, same_threads s (step Samples.obliging_adapter s (ThreadsResponse (Throw e))))).
Proof.
  intros s chain in_flight.
  assert (PromiseChain.waiting chain ≠ []) as Hw by (vm_compute; discriminate).
  exact (conj Hw
    (updateThreads_resolves_serialized Samples.obliging_adapter "s1"
       (Samples.node_launch "X") Samples.store_a
       [Deliver DebugEvent.initialized;
        Deliver (DebugEvent.stopped Samples.stopped_7_keep_focus)])).
Defined.

(** Two refreshes are asked for while the first [threads] request is
    unanswered: one request only has been sent, and the two later refreshes
    wait; an answer lets the next request go. *)
Example refreshes_queue_behind_the_request_in_flight :
  let s := run Samples.obliging_adapter Samples.session_a
             [Deliver DebugEvent.initialized;
              Deliver (DebugEvent.stopped Samples.stopped_7_keep_focus);
              Deliver (DebugEvent.thread "started" 8);
              DebounceElapsed] in
  let s' := step Samples.obliging_adapter s
              (ThreadsResponse (Ok (ThreadsBody Samples.threads_1_7))) in
  List.filter (λ r, match r with Request.threads => true | _ => false end)
    (DebugSessionConnection.sent (DebugSession.connection s)) = [Request.threads] ∧
  PromiseChain.waiting (DebugSession.pendingThreads s)
    = [None; Some Samples.stopped_7_keep_focus; None] ∧
  List.filter (λ r, match r with Request.threads => true | _ => false end)
    (DebugSessionConnection.sent (DebugSession.connection s'))
    = [Request.threads; Request.threads] ∧
  PromiseChain.waiting (DebugSession.pendingThreads s')
    = [Some Samples.stopped_7_keep_focus; None] ∧
  PromiseChain.settled (DebugSession.pendingThreads s') = [Ok tt].
Proof. vm_compute. by repeat split. Qed.

(** ** The derived state *)



(** A [threads] response whose body has no thread list: the map is emptied
    and the current thread, the stopped thread 7, stays; the state is
    Stopped although the session lists no thread. *)
Example state_follows_the_thread_of_before :
  let stopped_7 := {| reason := "step"; threadId := Some 7; preserveFocusHint := false |} in
  let s := run Samples.obliging_adapter Samples.session_a
             [Deliver DebugEvent.initialized;
              ThreadsResponse (Ok (ThreadsBody Samples.threads_1_7));
              Deliver (DebugEvent.stopped stopped_7);
              ThreadsResponse (Ok (ThreadsBody Samples.threads_1_7));
              Deliver (DebugEvent.stopped stopped_7);
              ThreadsResponse (Ok (InitializeBody ∅))] in
  get_threads s = [] ∧
  DebugSession._currentThread s = Some 1%nat ∧
  thread_stopped s 1 = true ∧
  state s = Stopped.
Proof. vm_compute. by repeat split. Qed.

(** After [Samples.worker_stops] the thread map holds the objects 0
    (thread 1, running, current) and 1 (thread 7, stopped). *)
Example worker_stops_threads :
  let s := run Samples.obliging_adapter Samples.session_a Samples.worker_stops in
  DebugSession._threads s = [(1, 0%nat); (7, 1%nat)] ∧
  DebugSession._currentThread s = Some 0%nat ∧
  thread_stopped s 0 = false ∧
  thread_stopped s 1 = true ∧
  state s = Running.
Proof. vm_compute. by repeat split. Qed.


(** ** The numbering of configurations *)

Lemma configuration_clearBreakpoints s :
  DebugSession.configuration (clearBreakpoints s) = DebugSession.configuration s.
Proof.
  unfold clearBreakpoints.
  change (DebugSession.configuration s)
    with (DebugSession.configuration (DebugSession.with__breakpoints JsMap.empty s)).
  generalize (DebugSession.with__breakpoints JsMap.empty s).
  induction (JsMap.keys (DebugSession._breakpoints s)) as [|u us IH]; intros s1; simpl;
    [done|]. by rewrite IH.
Qed.

Lemma configuration_dispose s :
  DebugSession.configuration (dispose s) = DebugSession.configuration s.
Proof.
  unfold dispose. destruct (DebugSessionConnection.disposed _); [done|].
  unfold doUpdateThreads. simpl. by rewrite configuration_clearBreakpoints.
Qed.

Lemma configuration_sendRequest adapter req s :
  DebugSession.configuration (snd (sendRequest adapter req s)) = DebugSession.configuration s.
Proof. unfold sendRequest. by destruct (DebugSessionConnection.disposed _). Qed.

Lemma configuration_start adapter showMessage s :
  DebugSession.configuration (snd (start adapter showMessage s)) = DebugSession.configuration s.
Proof.
  unfold start.
  apply (bind_inv (λ s', DebugSession.configuration s' = DebugSession.configuration s));
    [| |done].
  - intros s1 H1. unfold initialize.
    apply (bind_inv (λ s', DebugSession.configuration s' = DebugSession.configuration s));
      [done| |done].
    intros a s2 H2.
    apply (bind_inv (λ s', DebugSession.configuration s' = DebugSession.configuration s));
      [|done|done].
    intros s3 H3. by rewrite configuration_sendRequest.
  - intros _ s1 H1.
    unfold launchOrAttach, try_catch, bind, gets, fire, show_error, modify, throw, ret.
    destruct (String.eqb _ "attach");
      match goal with
      | |- context [sendRequest adapter ?req s1] =>
          pose proof (configuration_sendRequest adapter req s1) as Hc;
          destruct (sendRequest adapter req s1) as [[b|e] s2]
      end; simpl in *; try congruence; destruct (showMessage e); simpl; congruence.
Qed.

Section ManagerFacts.

Variable resolveDebugConfiguration : DebugConfiguration.t → Result DebugConfiguration.t.
Variable resolve : DebugConfiguration.t → Result DebugConfiguration.t.
Variable create : list string → DebugConfiguration.t → Result string.
Variable adapter : string → list Request.t → Result ResponseBody.
Variable showMessage : Error → Result unit.

Lemma same_configurations_refl m : same_configurations m m.
Proof. by split. Qed.

Lemma same_configurations_trans m1 m2 m3 :
  same_configurations m1 m2 → same_configurations m2 m3 → same_configurations m1 m3.
Proof. intros [? ?] [? ?]. split; congruence. Qed.

Lemma same_configurations_set_currentSession current m :
  same_configurations m (DebugSessionManager.set_currentSession current m).
Proof. unfold DebugSessionManager.set_currentSession. by case_bool_decide. Qed.

Lemma same_configurations_remove sessionId m :
  same_configurations m (DebugSessionManager.remove sessionId m).
Proof.
  unfold DebugSessionManager.remove.
  destruct (DebugSessionManager.currentSession _) as [current|]; [|done].
  destruct (String.eqb _ _); [|done].
  apply (same_configurations_set_currentSession _
           (DebugSessionManager.with_sessions _ m)).
Qed.

Lemma same_configurations_doDestroy m r :
  same_configurations m (DebugSessionManager.doDestroy m r).
Proof.
  unfold DebugSessionManager.doDestroy.
  destruct (DebugSessionManager.sessionObjects m !! r) as [session|] eqn:Hr;
    [|apply same_configurations_refl].
  eapply same_configurations_trans; [|apply same_configurations_remove].
  set (m1 := DebugSessionManager.with_sessionObjects _ _).
  assert (same_configurations m m1) as H1.
  { split; [done|]. simpl. rewrite list_fmap_insert, configuration_dispose.
    apply list_insert_id. by rewrite list_lookup_fmap, Hr. }
  destruct (_ <? _)%nat; [|done].
  eapply same_configurations_trans; [exact H1|].
  apply same_configurations_set_currentSession.
Qed.

Lemma same_configurations_destroy_all rs m :
  same_configurations m (fold_left DebugSessionManager.doDestroy rs m).
Proof.
  revert m. induction rs as [|r rs IH]; intros m; simpl; [apply same_configurations_refl|].
  eapply same_configurations_trans; [apply same_configurations_doDestroy | apply IH].
Qed.

Lemma same_configurations_destroy sessionId m :
  same_configurations m (DebugSessionManager.destroy sessionId m).
Proof.
  unfold DebugSessionManager.destroy. destruct sessionId as [i|].
  - destruct (String.eqb i EmptyString); [apply same_configurations_destroy_all|].
    destruct (JsMap.get i _); [apply same_configurations_doDestroy
                              | apply same_configurations_refl].
  - apply same_configurations_destroy_all.
Qed.

(** A started session keeps the configuration it was made with, and the
    numbering table is not touched by [doStart]. *)
Lemma doStart_configuration sessionId c m :
  ∃ r m' s,
    DebugSessionManager.doStart adapter showMessage sessionId c m = (Ok r, m') ∧
    DebugSessionManager.sessionObjects m' !! r = Some s ∧
    DebugSession.configuration s = c ∧
    DebugSessionManager.configurationIds m' = DebugSessionManager.configurationIds m.
Proof.
  unfold DebugSessionManager.doStart.
  set (r := length (DebugSessionManager.sessionObjects m)).
  set (session := DebugSession.new sessionId c (DebugSessionManager.breakpoints m)).
  set (m2 := DebugSessionManager.with_sessions _ _).
  set (m3 := snd (DebugSessionManager.on_session r _ m2)).
  assert (DebugSessionManager.configurationIds m3 = DebugSessionManager.configurationIds m
          ∧ map DebugSession.configuration (DebugSessionManager.sessionObjects m3)
            = map DebugSession.configuration (DebugSessionManager.sessionObjects m) ++ [c])
    as [Hids Hcfg].
  { subst m3. unfold DebugSessionManager.on_session. subst m2. simpl.
    assert ((DebugSessionManager.sessionObjects m ++ [session]) !! r = Some session) as Hr.
    { subst r. by rewrite lookup_app_r, Nat.sub_diag by lia. }
    rewrite Hr.
    pose proof (configuration_start (adapter sessionId) showMessage session) as Hc.
    destruct (start (adapter sessionId) showMessage session) as [a s']. simpl in *.
    split; [done|].
    rewrite list_fmap_insert, Hc, fmap_app. simpl.
    apply list_insert_id. subst r.
    by rewrite lookup_app_r, length_fmap, Nat.sub_diag by (rewrite length_fmap; lia). }
  set (m4 := match DebugSessionManager.sessionObjects m3 !! r with
             | Some s =>
                 match DebugSessionConnection.fired (DebugSession.connection s) with
                 | [] => m3
                 | _ :: _ => DebugSessionManager.destroy (Some sessionId) m3
                 end
             | None => m3
             end).
  assert (same_configurations m3 m4) as [Hids4 Hcfg4].
  { subst m4. destruct (_ !! r) as [s|]; [|apply same_configurations_refl].
    destruct (DebugSessionConnection.fired _);
      [apply same_configurations_refl | apply same_configurations_destroy]. }
  assert (map DebugSession.configuration (DebugSessionManager.sessionObjects m4) !! r
          = Some c) as Hr4.
  { rewrite Hcfg4, Hcfg. subst r.
    by rewrite lookup_app_r, length_fmap, Nat.sub_diag by (rewrite length_fmap; lia). }
  rewrite list_lookup_fmap in Hr4.
  destruct (DebugSessionManager.sessionObjects m4 !! r) as [s4|] eqn:Hs4; [|done].
  exists r, m4, s4. split_and!; try done.
  - by injection Hr4.
  - by rewrite Hids4, Hids.
Qed.

End ManagerFacts.

Section NumberingFacts.

Variable resolveDebugConfiguration : DebugConfiguration.t → Result DebugConfiguration.t.
Variable resolve : DebugConfiguration.t → Result DebugConfiguration.t.
Variable create : list string → DebugConfiguration.t → Result string.
Variable adapter : string → list Request.t → Result ResponseBody.
Variable showMessage : Error → Result unit.

Hypothesis services : services_answer resolveDebugConfiguration resolve create.

Lemma manager_start_fresh c m :
  DebugConfiguration.__resovled c = false →
  ∃ r m' s,
    DebugSessionManager.manager_start
      resolveDebugConfiguration resolve create adapter showMessage c m = (Ok r, m') ∧
    DebugSessionManager.sessionObjects m' !! r = Some s ∧
    DebugConfiguration.__configurationId (DebugSession.configuration s)
      = Some (next_configurationId (DebugConfiguration.name c) m) ∧
    DebugSessionManager.configurationIds m'
      = <[DebugConfiguration.name c := next_configurationId (DebugConfiguration.name c) m]>
          (DebugSessionManager.configurationIds m).
Proof.
  intros Hfresh. destruct services as (Hres & Hvar & Hcreate).
  unfold DebugSessionManager.manager_start, DebugSessionManager.resolveConfiguration.
  rewrite Hfresh. destruct (Hres c) as [rc Hrc].
  unfold bind, lift, gets, modify. rewrite Hrc. simpl.
  fold (next_configurationId (DebugConfiguration.name c) m).
  match goal with |- context [resolve ?x] => destruct (Hvar x) as (c' & -> & Hid) end.
  simpl in Hid.
  match goal with |- context [create ?ids c'] => destruct (Hcreate ids c') as [sid ->] end.
  simpl.
  match goal with |- context [DebugSessionManager.doStart _ _ sid c' ?m1] =>
    destruct (doStart_configuration adapter showMessage sid c' m1)
      as (r & m' & s & -> & Hs & Hc & Hids) end.
  exists r, m', s. split_and!; try done. by rewrite Hc, Hid.
Qed.

Lemma next_configurationId_same name m m' :
  same_configurations m m' → next_configurationId name m' = next_configurationId name m.
Proof. intros [Hids _]. unfold next_configurationId. by rewrite Hids. Qed.

Lemma started_ids_from name inputs m :
  Forall starts_or_destroys inputs →
  started_ids resolveDebugConfiguration resolve create adapter showMessage name m inputs
  = map (λ k, Some (next_configurationId name m + Z.of_nat k))
      (seq 0 (starts_of name inputs)).
Proof.
  intros Hin. revert m. induction Hin as [|i inputs Hi _ IH]; intros m; [done|].
  destruct i as [c|?|sid|? ?|? ?|?|? ?]; try done.
  - (* a start *)
    simpl in Hi. cbn [started_ids DebugSessionManager.manager_step].
    destruct (manager_start_fresh c m Hi) as (r & m' & s & Hstart & Hs & Hid & Hids).
    rewrite Hstart. cbn [snd]. rewrite IH. unfold starts_of. cbn [List.filter].
    destruct (String.eqb_spec (DebugConfiguration.name c) name) as [<-|Hne].
    + rewrite Hs. cbn [mbind option_bind length seq map app]. rewrite Hid.
      rewrite Z.add_0_r. f_equal.
      rewrite <- seq_shift, map_map. apply map_ext. intros k.
      unfold next_configurationId at 1. rewrite Hids, lookup_insert_eq.
      f_equal. lia.
    + cbn [app]. apply map_ext. intros k. f_equal. f_equal.
      unfold next_configurationId. by rewrite Hids, lookup_insert_ne.
  - (* a destroy *)
    cbn [started_ids DebugSessionManager.manager_step app].
    rewrite IH. unfold starts_of. cbn [List.filter].
    apply map_ext. intros k. f_equal. f_equal.
    apply next_configurationId_same, same_configurations_destroy.
Qed.

(** C8. Along any sequence of starts of configurations that are not
    resolved yet, mixed with destructions of sessions, and with services
    that answer: the sessions started from the configurations of one name
    carry the disambiguators 0, 1, 2, ... in start order, so a start that
    follows the destruction of the earlier sessions gets the next number and
    no number is used twice; and a configuration that is marked resolved
    goes through [resolveConfiguration] as it is, with the numbering table
    untouched. *)
Theorem configuration_numbering (store : BreakpointManager.t) (name : string)
    (inputs : list DebugSessionManager.ManagerInput) :
  Forall starts_or_destroys inputs →
  started_ids resolveDebugConfiguration resolve create adapter showMessage name
    (DebugSessionManager.new store) inputs
  = map (λ k, Some (Z.of_nat k)) (seq 0 (starts_of name inputs)) ∧
  ∀ c m, DebugConfiguration.__resovled c = true →
         DebugSessionManager.resolveConfiguration resolveDebugConfiguration resolve c m
         = (Ok c, m).
Proof.
  intros Hin. split.
  - by rewrite started_ids_from.
  - intros c m Hc. unfold DebugSessionManager.resolveConfiguration. by rewrite Hc.
Qed.

End NumberingFacts.

Lemma services_answer_samples :
  services_answer Samples.resolves Samples.resolves Samples.creates.
Proof. split_and!; intros; by eexists. Qed.

Lemma configuration_numbering_witness :
  let inputs := Samples.three_starts_destroy_start in
  let showMessage := λ _ : Error, Ok tt in
  services_answer Samples.resolves Samples.resolves Samples.creates ∧
  Forall starts_or_destroys inputs ∧
  (started_ids Samples.resolves Samples.resolves Samples.creates
     Samples.obliging_adapters showMessage "X"
     (DebugSessionManager.new Samples.store_a) inputs
   = map (λ k, Some (Z.of_nat k)) (seq 0 (starts_of "X" inputs)) ∧
   ∀ c m, DebugConfiguration.__resovled c = true →
          DebugSessionManager.resolveConfiguration Samples.resolves Samples.resolves c m
          = (Ok c, m)).
Proof.
  intros inputs showMessage.
  assert (Forall starts_or_destroys inputs) as Hin by (repeat constructor).
  exact (conj services_answer_samples (conj Hin
    (configuration_numbering Samples.resolves Samples.resolves Samples.creates
       Samples.obliging_adapters showMessage services_answer_samples
       Samples.store_a "X" inputs Hin))).
Defined.

Example numbering_of_three_starts_destroy_start :
  started_ids Samples.resolves Samples.resolves Samples.creates
    Samples.obliging_adapters (λ _, Ok tt) "X"
    (DebugSessionManager.new Samples.store_a) Samples.three_starts_destroy_start
  = [Some 0; Some 1; Some 2; Some 3].
Proof. vm_compute. reflexivity. Qed.

(** A restart through [doRestart] starts the session's own configuration,
    which is resolved: the new session carries the disambiguator of the old
    one. *)
Example restart_keeps_disambiguator :
  let m1 := DebugSessionManager.manager_run Samples.resolves Samples.resolves Samples.creates
              Samples.obliging_adapters (λ _, Ok tt)
              (DebugSessionManager.new Samples.store_a)
              [DebugSessionManager.Start (Samples.node_launch "X");
               DebugSessionManager.Restart (Some 0%nat)] in
  map (λ s, DebugConfiguration.__configurationId (DebugSession.configuration s))
    (DebugSessionManager.sessionObjects m1)
  = [Some 0; Some 0].
Proof. vm_compute. reflexivity. Qed.

(** ** [configure], one [await] at a time *)

(** What the operations on the threads leave alone: an observation [f] of
    the session that the updates of the thread objects, the thread map, the
    current thread and the refresh chain, and the traffic of the [threads]
    requests do not change. *)
Section ObservationFrame.

Context {A : Type} (f : DebugSession.t → A).

Hypothesis f_threadObjects : ∀ x s, f (DebugSession.with_threadObjects x s) = f s.
Hypothesis f_threads : ∀ x s, f (DebugSession.with_threads x s) = f s.
Hypothesis f_currentThread : ∀ x s, f (DebugSession.set_currentThread x s) = f s.
Hypothesis f_pendingThreads : ∀ x s, f (DebugSession.with_pendingThreads x s) = f s.
Hypothesis f_threads_request :
  ∀ s, f (DebugSession.with_connection
            (DebugSessionConnection.await Request.threads
               (DebugSessionConnection.send Request.threads (DebugSession.connection s))) s)
       = f s.
Hypothesis f_answered :
  ∀ s, f (DebugSession.with_connection
            (DebugSessionConnection.answered (DebugSession.connection s)) s) = f s.

Lemma observed_updateCurrentThread stoppedDetails s :
  f (updateCurrentThread stoppedDetails s) = f s.
Proof. unfold updateCurrentThread. apply f_currentThread. Qed.

Lemma observed_clear_objects l s : f (fold_left clear_object l s) = f s.
Proof.
  revert s. induction l as [|r l IH]; intros s; simpl; [done|].
  rewrite IH. apply f_threadObjects.
Qed.

Lemma observed_clearThreads s : f (clearThreads s) = f s.
Proof.
  unfold clearThreads. by rewrite observed_updateCurrentThread, observed_clear_objects.
Qed.

Lemma observed_clearThread threadId s : f (clearThread threadId s) = f s.
Proof.
  unfold clearThread. rewrite observed_updateCurrentThread.
  destruct (JsMap.get _ _); [apply f_threadObjects | done].
Qed.

Lemma observed_doUpdateThreads threads stoppedDetails s :
  f (doUpdateThreads threads stoppedDetails s) = f s.
Proof.
  unfold doUpdateThreads. rewrite observed_updateCurrentThread.
  generalize (DebugSession._threads s) at 1. intros existing.
  rewrite <- (f_threads JsMap.empty s).
  generalize (DebugSession.with_threads JsMap.empty s).
  induction threads as [|raw threads IH]; intros s1; simpl; [done|].
  rewrite IH. unfold doUpdateThreads_step.
  destruct (JsMap.get _ existing); by rewrite f_threadObjects, f_threads.
Qed.

Lemma observed_refresh stoppedDetails response s :
  f (snd (refresh stoppedDetails response s)) = f s.
Proof.
  rewrite refresh_cases.
  destruct response as [[]|]; auto using observed_doUpdateThreads.
Qed.

Lemma observed_settle_job response s job : f (settle_job response s job) = f s.
Proof.
  unfold settle_job. destruct (PromiseChain.outcome _); [|apply f_pendingThreads].
  pose proof (observed_refresh job response s) as H.
  destruct (refresh job response s) as [r s1]. simpl in H.
  by rewrite f_pendingThreads.
Qed.

Lemma observed_fold_settle_job response jobs s :
  f (fold_left (settle_job response) jobs s) = f s.
Proof.
  revert s. induction jobs as [|job jobs IH]; intros s; simpl; [done|].
  by rewrite IH, observed_settle_job.
Qed.

Lemma observed_start_pending s : f (start_pending s) = f s.
Proof.
  unfold start_pending. destruct (PromiseChain.waiting _) as [|job jobs]; [done|].
  destruct (PromiseChain.outcome (DebugSession.pendingThreads s)),
    (DebugSessionConnection.disposed (DebugSession.connection s));
    auto using observed_fold_settle_job.
Qed.

Lemma observed_updateThreads stoppedDetails s : f (updateThreads stoppedDetails s) = f s.
Proof.
  unfold updateThreads. destruct (PromiseChain.waiting _);
    by rewrite ?observed_start_pending, f_pendingThreads.
Qed.

Lemma observed_threads_response response s : f (threads_response response s) = f s.
Proof.
  unfold threads_response. destruct (PromiseChain.waiting _) as [|job jobs]; [done|].
  destruct (DebugSessionConnection.awaiting _); [done|].
  by rewrite observed_start_pending, observed_settle_job, f_answered.
Qed.

End ObservationFrame.

Ltac configure_view_frame lem :=
  apply (lem _ configure_view); intros; try reflexivity;
  unfold configure_view, own_requests; simpl;
  rewrite List.filter_app; simpl; by rewrite app_nil_r.

Lemma configure_view_updateThreads stoppedDetails s :
  configure_view (updateThreads stoppedDetails s) = configure_view s.
Proof. configure_view_frame @observed_updateThreads. Qed.

Lemma configure_view_threads_response response s :
  configure_view (threads_response response s) = configure_view s.
Proof. configure_view_frame @observed_threads_response. Qed.

Lemma configure_view_clearThreads s : configure_view (clearThreads s) = configure_view s.
Proof. configure_view_frame @observed_clearThreads. Qed.

Lemma configure_view_clearThread threadId s :
  configure_view (clearThread threadId s) = configure_view s.
Proof. configure_view_frame @observed_clearThread. Qed.

Lemma scheduled_updateThreads stoppedDetails s :
  DebugSession.scheduled (updateThreads stoppedDetails s) = DebugSession.scheduled s.
Proof. by apply (observed_updateThreads DebugSession.scheduled). Qed.

Lemma scheduled_threads_response response s :
  DebugSession.scheduled (threads_response response s) = DebugSession.scheduled s.
Proof. by apply (observed_threads_response DebugSession.scheduled). Qed.

Lemma scheduled_clearThreads s :
  DebugSession.scheduled (clearThreads s) = DebugSession.scheduled s.
Proof. by apply (observed_clearThreads DebugSession.scheduled). Qed.

Lemma scheduled_clearThread threadId s :
  DebugSession.scheduled (clearThread threadId s) = DebugSession.scheduled s.
Proof. by apply (observed_clearThread DebugSession.scheduled). Qed.

(** The refreshes chained: a refresh that settles stays counted. *)
Lemma settle_job_pending response s job :
  ∃ r, DebugSession.pendingThreads (settle_job response s job)
       = PromiseChain.settle r (DebugSession.pendingThreads s).
Proof.
  unfold settle_job. destruct (PromiseChain.outcome _) as [[]|e].
  - pose proof (same_chain_refresh job response s) as (Hp & _).
    destruct (refresh job response s) as [r s1]. simpl in *. exists r. by rewrite Hp.
  - by eexists.
Qed.

Lemma chained_same s s' : same_chain s s' → chained s' = chained s.
Proof. intros (Hp & _). unfold chained. by rewrite Hp. Qed.

Lemma chained_fold_settle_job response jobs s :
  (length jobs ≤ length (PromiseChain.waiting (DebugSession.pendingThreads s)))%nat →
  chained (fold_left (settle_job response) jobs s) = chained s.
Proof.
  revert s. induction jobs as [|job jobs IH]; intros s Hlen; simpl; [done|].
  destruct (settle_job_pending response s job) as [r Hp].
  simpl in Hlen. rewrite IH.
  - unfold chained. rewrite Hp. simpl. rewrite length_app. simpl.
    destruct (PromiseChain.waiting (DebugSession.pendingThreads s)); simpl in *; lia.
  - rewrite Hp. simpl.
    destruct (PromiseChain.waiting (DebugSession.pendingThreads s)); simpl in *; lia.
Qed.

Lemma chained_start_pending s : chained (start_pending s) = chained s.
Proof.
  unfold start_pending.
  destruct (PromiseChain.waiting (DebugSession.pendingThreads s)) as [|job jobs] eqn:Hw;
    [done|].
  destruct (PromiseChain.outcome (DebugSession.pendingThreads s)),
    (DebugSessionConnection.disposed (DebugSession.connection s));
    try done; apply chained_fold_settle_job; by rewrite Hw.
Qed.

Lemma chained_updateThreads stoppedDetails s :
  chained (updateThreads stoppedDetails s) = S (chained s).
Proof.
  unfold updateThreads.
  destruct (PromiseChain.waiting (DebugSession.pendingThreads s)) eqn:Hw;
    rewrite ?chained_start_pending; unfold chained; simpl; rewrite Hw, ?length_app;
    simpl; lia.
Qed.

Lemma chained_threads_response response s :
  chained (threads_response response s) = chained s.
Proof.
  unfold threads_response.
  destruct (PromiseChain.waiting (DebugSession.pendingThreads s)) as [|job jobs] eqn:Hw;
    [done|].
  destruct (DebugSessionConnection.awaiting _); [done|].
  rewrite chained_start_pending.
  match goal with |- chained (settle_job ?r ?s1 job) = _ =>
    destruct (settle_job_pending r s1 job) as [o Hp] end.
  unfold chained. rewrite Hp. simpl. rewrite Hw, length_app. simpl. lia.
Qed.

(** An input that is not of [configure] changes nothing of what
    [configure] reads. *)
Lemma step_while_configuring adapter x i s :
  WhileConfiguring.input x = Some i →
  DebugSessionConnection.disposed (DebugSession.connection s) = false →
  configure_view (step adapter s i) = configure_view s ∧
  DebugSession.scheduled (step adapter s i) = schedules (DebugSession.scheduled s) x ∧
  chained (step adapter s i) = (chained s + chains_refresh (DebugSession.scheduled s) x)%nat.
Proof.
  intros Hi Hd.
  destruct x as [|body|allThreadsContinued threadId|reason threadId|response|];
    simpl in Hi; inversion Hi; subst i; clear Hi;
    unfold step, on_event, schedules, chains_refresh; rewrite ?Hd.
  - unfold modify. cbn [snd].
    rewrite configure_view_updateThreads, scheduled_updateThreads, chained_updateThreads.
    split_and!; [done | done | lia].
  - destruct (bool_decide _); unfold modify; cbn [snd].
    + rewrite configure_view_clearThreads, scheduled_clearThreads,
        (chained_same _ _ (same_chain_clearThreads s)).
      split_and!; [done | done | lia].
    + rewrite configure_view_clearThread, scheduled_clearThread,
        (chained_same _ _ (same_chain_clearThread threadId s)).
      split_and!; [done | done | lia].
  - destruct (String.eqb reason "started"); unfold modify, ret; cbn [snd].
    { rewrite orb_true_r. split_and!; [done | done | unfold chained; simpl; lia]. }
    rewrite orb_false_r.
    destruct (String.eqb reason "exited"); cbn [snd].
    + rewrite configure_view_clearThread, scheduled_clearThread,
        (chained_same _ _ (same_chain_clearThread threadId s)).
      split_and!; [done | done | lia].
    + split_and!; [done | done | lia].
  - rewrite configure_view_threads_response, scheduled_threads_response,
      chained_threads_response.
    split_and!; [done | done | lia].
  - unfold debounce_elapsed. destruct (DebugSession.scheduled s) eqn:Hs.
    + rewrite configure_view_updateThreads, scheduled_updateThreads, chained_updateThreads.
      split_and!; [done | done | unfold chained; simpl; lia].
    + split_and!; [done | done | lia].
Qed.

Lemma length_configure_requests store supported :
  length (configure_requests store supported)
  = (length (BreakpointManager.getUris store) + (if supported then 1 else 0))%nat.
Proof.
  unfold configure_requests. rewrite length_app, length_map. by destruct supported.
Qed.

Lemma configure_requests_lookup store supported k uri :
  BreakpointManager.getUris store !! k = Some uri →
  configure_requests store supported !! k = Some (first_sync_request store uri).
Proof.
  intros Hk. unfold configure_requests.
  rewrite lookup_app_l by (rewrite length_map; by eapply lookup_lt_Some).
  by rewrite list_lookup_fmap, Hk.
Qed.

Lemma own_requests_send req s :
  req ≠ Request.threads →
  own_requests (DebugSession.with_connection
                  (DebugSessionConnection.send req (DebugSession.connection s)) s)
  = own_requests s ++ [req].
Proof.
  intros Hreq. unfold own_requests. simpl. rewrite List.filter_app. simpl.
  by destruct req.
Qed.

Lemma configure_view_send req s :
  req ≠ Request.threads →
  configure_view (DebugSession.with_connection
                    (DebugSessionConnection.send req (DebugSession.connection s)) s)
  = (DebugSession.breakpoints s, DebugSession._capabilities s,
     DebugSessionConnection.disposed (DebugSession.connection s),
     own_requests s ++ [req], DebugSession.initialized s).
Proof. intros Hreq. unfold configure_view. by rewrite own_requests_send. Qed.

(** The loop of [updateBreakpoints] from the resource of index [k] on, up
    to the next [await]. *)
Lemma sync_at adapter s0 k s :
  acknowledges adapter →
  let store := DebugSession.breakpoints s0 in
  let supported :=
    truthy (DebugSession._capabilities s0 !! "supportsConfigurationDoneRequest") in
  let expected := configure_requests store supported in
  (k ≤ length (BreakpointManager.getUris store))%nat →
  configure_view s
  = (store, DebugSession._capabilities s0, false,
     own_requests s0 ++ take k expected, DebugSession.initialized s0) →
  let c := sync adapter (drop k (BreakpointManager.getUris store)) s in
  configuring s0 k c ∧
  DebugSession.scheduled (snd c) = DebugSession.scheduled s ∧
  chained (snd c) = (chained s + (if (length expected <=? k)%nat then 1 else 0))%nat.
Proof.
  intros [Hset Hdone] store supported expected Hk Hv c.
  unfold configure_view in Hv. injection Hv as Hb Hc Hd Ho Hi.
  pose proof (length_configure_requests store supported) as Hlen. fold expected in Hlen.
  subst c. unfold configuring. fold store supported expected.
  destruct (drop k (BreakpointManager.getUris store)) as [|uri rest] eqn:Hdrop.
  - assert (k = length (BreakpointManager.getUris store)) as Hk'.
    { apply (f_equal length) in Hdrop. rewrite length_drop in Hdrop. simpl in Hdrop. lia. }
    assert (BreakpointManager.getUris store !! k = None) as Hnone
      by (apply lookup_ge_None; lia).
    unfold sync, synced. rewrite Hc. fold supported.
    destruct supported eqn:Hsup.
    + unfold sendRequest. rewrite Hd.
      destruct (Hdone (DebugSessionConnection.sent (DebugSession.connection s)))
        as [body Hbody].
      simpl. rewrite Hbody. cbn [fst snd].
      destruct (Nat.leb_spec (length expected) k); [lia|].
      split_and!; [ | | done | unfold chained; simpl; lia].
      * rewrite configure_view_send by done.
        rewrite Hb, Hc, Hd, Ho, Hi, orb_false_r.
        assert (expected !! k = Some Request.configurationDone) as Hlook.
        { unfold expected, configure_requests.
          rewrite lookup_app_r by (rewrite length_map; lia).
          rewrite length_map, Hk', Nat.sub_diag. done. }
        by rewrite (take_S_r _ _ _ Hlook), app_assoc.
      * unfold task_after. rewrite Hnone. fold store. rewrite Hk', Nat.eqb_refl. simpl.
        by eexists.
    + unfold configured. cbn [fst snd].
      destruct (Nat.leb_spec (length expected) k); [|lia].
      rewrite configure_view_updateThreads, scheduled_updateThreads, chained_updateThreads.
      split_and!; [ | | done | unfold chained; simpl; lia].
      * unfold configure_view, own_requests in *. simpl.
        rewrite Hb, Hc, Hd, Ho, orb_true_r.
        by rewrite !take_ge by lia.
      * unfold task_after. by rewrite Hnone.
  - assert (BreakpointManager.getUris store !! k = Some uri) as Hsome.
    { rewrite <- (Nat.add_0_r k), <- lookup_drop, Hdrop. done. }
    assert (rest = drop (S k) (BreakpointManager.getUris store)) as Hrest.
    { rewrite (drop_S _ _ _ Hsome) in Hdrop. by injection Hdrop. }
    pose proof (lookup_lt_Some _ _ _ Hsome) as Hlt.
    unfold sync, sendRequest. rewrite Hd, Hb. fold store.
    rewrite origin_raws_new.
    destruct (Hset (DebugSessionConnection.sent (DebugSession.connection s)) uri false
                (map SourceBreakpoint.raw
                   (List.filter SourceBreakpoint.enabled
                      (BreakpointManager.findMarkers (Some uri) store))))
      as (raws & Hraws & Hn).
    cbn [DebugSessionConnection.sent DebugSessionConnection.send]. rewrite Hraws.
    cbn [fst snd].
    destruct (Nat.leb_spec (length expected) k); [lia|].
    split_and!; [ | | done | unfold chained; simpl; lia].
    + rewrite configure_view_send by done.
      rewrite Hb, Hc, Hd, Ho, Hi, orb_false_r.
      assert (expected !! k = Some (first_sync_request store uri)) as Hlook
        by by apply configure_requests_lookup.
      by rewrite (take_S_r _ _ _ Hlook), app_assoc.
    + unfold task_after. fold store. rewrite Hsome. simpl.
      exists raws. split; [by rewrite Hrest|].
      by rewrite length_enabled_new, <- (length_map SourceBreakpoint.raw).
Qed.

(** The answer of an acknowledging adapter arrives: [configure] goes on to
    its next request, or to the refresh when it has sent them all. *)
Lemma resume_acknowledged adapter s0 k c :
  acknowledges adapter →
  configuring s0 k c →
  let expected :=
    configure_requests (DebugSession.breakpoints s0)
      (truthy (DebugSession._capabilities s0 !! "supportsConfigurationDoneRequest")) in
  let c' := resume adapter (fst c) (snd c) in
  configuring s0 (S k) c' ∧
  DebugSession.scheduled (snd c') = DebugSession.scheduled (snd c) ∧
  (chained (snd c') + (if (length expected <=? k)%nat then 1 else 0))%nat
  = (chained (snd c) + (if (length expected <=? S k)%nat then 1 else 0))%nat.
Proof.
  intros Hack [Hv Ht] expected c'. subst c'. destruct c as [task s]. cbn [fst snd] in *.
  set (store := DebugSession.breakpoints s0) in *.
  set (supported :=
         truthy (DebugSession._capabilities s0 !! "supportsConfigurationDoneRequest")) in *.
  pose proof (length_configure_requests store supported) as Hlen.
  fold expected in Hlen, Hv.
  unfold configuring. cbn zeta. fold store. fold supported. fold expected.
  unfold task_after in Ht.
  destruct (BreakpointManager.getUris store !! k) as [uri|] eqn:Hk.
  - destruct Ht as (raws & -> & Hn).
    pose proof (lookup_lt_Some _ _ _ Hk) as Hlt.
    unfold resume, bind, lift, keep_answer.
    destruct (Nat.ltb_spec
                (length (List.filter DebugBreakpoint.enabled
                           (map DebugBreakpoint.new
                              (BreakpointManager.findMarkers (Some uri) store))))
                (length raws)); [lia|].
    unfold modify.
    match goal with |- context [sync adapter _ ?s1] =>
      destruct (sync_at adapter s0 (S k) s1 Hack) as (Hc' & Hs' & Hn'); [fold store; lia| |]
    end.
    { fold store supported expected.
      match goal with |- configure_view ?s1 = _ =>
        change (configure_view s1) with (configure_view s) end.
      rewrite Hv. destruct (Nat.leb_spec (length expected) k); [lia|].
      by rewrite orb_false_r. }
    unfold configuring in Hc'. cbn zeta in Hc'.
    fold store in Hc', Hs', Hn'. fold supported in Hc', Hs', Hn'.
    fold expected in Hc', Hs', Hn'.
    destruct Hc' as [Hc1 Hc2].
    split_and!; [exact Hc1 | exact Hc2 | by rewrite Hs' | rewrite Hn'].
    destruct (Nat.leb_spec (length expected) k); [lia|].
    unfold chained. simpl. lia.
  - apply lookup_ge_None in Hk.
    destruct (supported && (k =? length (BreakpointManager.getUris store))%nat) eqn:Hcase.
    + destruct Ht as [body ->].
      apply andb_true_iff in Hcase as [Hsup Hk']. apply Nat.eqb_eq in Hk'.
      rewrite Hsup in Hlen.
      unfold resume, configured. cbn [fst snd].
      rewrite scheduled_updateThreads, chained_updateThreads.
      destruct (Nat.leb_spec (length expected) k); [lia|].
      destruct (Nat.leb_spec (length expected) (S k)); [|lia].
      split_and!; [ | | done | unfold chained; simpl; lia].
      * rewrite configure_view_updateThreads. unfold configure_view in *.
        injection Hv as Hb Hc Hd Ho Hi. unfold own_requests in *. simpl.
        rewrite Hb, Hc, Hd, Ho.
        rewrite orb_true_r. by rewrite !take_ge by lia.
      * unfold task_after.
        rewrite (proj2 (lookup_ge_None _ _)) by lia.
        destruct (Nat.eqb_spec (S k) (length (BreakpointManager.getUris store))); [lia|].
        by rewrite andb_false_r.
    + subst task. unfold resume. cbn [fst snd].
      assert (length expected ≤ k)%nat as Hdone.
      { apply andb_false_iff in Hcase as [Hsup|Hk'].
        - rewrite Hsup in Hlen. lia.
        - apply Nat.eqb_neq in Hk'. destruct supported; lia. }
      rewrite Hv.
      destruct (Nat.leb_spec (length expected) k); [|lia].
      destruct (Nat.leb_spec (length expected) (S k)); [|lia].
      split_and!; [ | | done | done].
      * by rewrite !take_ge by lia.
      * unfold task_after.
        rewrite (proj2 (lookup_ge_None _ _)) by lia.
        destruct (Nat.eqb_spec (S k) (length (BreakpointManager.getUris store))); [lia|].
        by rewrite andb_false_r.
Qed.

Lemma turn_acknowledged adapter s0 k c x :
  acknowledges adapter →
  configuring s0 k c →
  let expected :=
    configure_requests (DebugSession.breakpoints s0)
      (truthy (DebugSession._capabilities s0 !! "supportsConfigurationDoneRequest")) in
  let c' := turn adapter c x in
  configuring s0 (k + answers [x]) c' ∧
  DebugSession.scheduled (snd c') = schedules (DebugSession.scheduled (snd c)) x ∧
  (chained (snd c') + (if (length expected <=? k)%nat then 1 else 0))%nat
  = (chained (snd c) + chains_refresh (DebugSession.scheduled (snd c)) x
     + (if (length expected <=? k + answers [x])%nat then 1 else 0))%nat.
Proof.
  intros Hack Hc expected c'. subst c'. unfold turn.
  destruct (WhileConfiguring.input x) as [i|] eqn:Hi.
  - assert (answers [x] = 0%nat) as -> by (by destruct x).
    rewrite Nat.add_0_r. cbn [fst snd].
    destruct Hc as [Hv Ht].
    assert (DebugSessionConnection.disposed (DebugSession.connection (snd c)) = false) as Hd.
    { unfold configure_view in Hv. by injection Hv. }
    destruct (step_while_configuring adapter x i (snd c) Hi Hd) as (Hv' & Hs' & Hn').
    split_and!; [split; cbn [fst snd]; [by rewrite Hv' | done] | done | rewrite Hn'; lia].
  - assert (x = WhileConfiguring.answer) as -> by (by destruct x).
    change (answers [WhileConfiguring.answer]) with 1%nat. rewrite Nat.add_1_r.
    destruct (resume_acknowledged adapter s0 k c Hack Hc) as (Hc' & Hs' & Hn').
    split_and!; [done | done | ]. fold expected in Hn'. simpl. lia.
Qed.

Lemma answers_cons x turns : answers (x :: turns) = (answers [x] + answers turns)%nat.
Proof. unfold answers. simpl. by destruct x. Qed.

Lemma turns_acknowledged adapter s0 turns k c :
  acknowledges adapter →
  configuring s0 k c →
  let expected :=
    configure_requests (DebugSession.breakpoints s0)
      (truthy (DebugSession._capabilities s0 !! "supportsConfigurationDoneRequest")) in
  let c' := fold_left (turn adapter) turns c in
  configuring s0 (k + answers turns) c' ∧
  (chained (snd c') + (if (length expected <=? k)%nat then 1 else 0))%nat
  = (chained (snd c) + refreshes_meanwhile (DebugSession.scheduled (snd c)) turns
     + (if (length expected <=? k + answers turns)%nat then 1 else 0))%nat.
Proof.
  intros Hack. revert k c. induction turns as [|x turns IH]; intros k c Hc expected; simpl.
  - change (answers []) with 0%nat. rewrite Nat.add_0_r. split; [done | lia].
  - destruct (turn_acknowledged adapter s0 k c x Hack Hc) as (Hc' & Hs' & Hn').
    destruct (IH _ _ Hc') as (Hc'' & Hn'').
    fold expected in Hn', Hn''.
    rewrite answers_cons, Nat.add_assoc. split; [done|].
    rewrite Hs' in Hn''. lia.
Qed.

(** *** With nothing in between, the turns of [configure] are [configure] *)

Lemma answers_ended adapter n result :
  fold_left (turn adapter) (repeat WhileConfiguring.answer n) (ended result) = ended result.
Proof.
  induction n as [|n IH]; simpl; [done|].
  destruct result as [[[]|reason] s]; exact IH.
Qed.

Lemma updateBreakpoints_of_keeps adapter sourceModified uri s :
  let s' := snd (updateBreakpoints_of adapter sourceModified uri s) in
  DebugSession._capabilities s' = DebugSession._capabilities s ∧
  DebugSessionConnection.disposed (DebugSession.connection s')
  = DebugSessionConnection.disposed (DebugSession.connection s).
Proof.
  cbn zeta. unfold updateBreakpoints_of, bind, gets, sendRequest.
  destruct (DebugSessionConnection.disposed (DebugSession.connection s)) eqn:Hd;
    simpl; [done|].
  destruct (adapter _) as [[]|]; try done.
  by destruct (_ <? _)%nat.
Qed.

Lemma for_of_updateBreakpoints_keeps adapter sourceModified uris s :
  let s' := snd (for_of uris (updateBreakpoints_of adapter sourceModified) s) in
  DebugSession._capabilities s' = DebugSession._capabilities s ∧
  DebugSessionConnection.disposed (DebugSession.connection s')
  = DebugSessionConnection.disposed (DebugSession.connection s).
Proof.
  apply (for_of_inv
           (λ s', DebugSession._capabilities s' = DebugSession._capabilities s ∧
                  DebugSessionConnection.disposed (DebugSession.connection s')
                  = DebugSessionConnection.disposed (DebugSession.connection s)));
    [|done].
  intros uri s1 [Hc Hd].
  destruct (updateBreakpoints_of_keeps adapter sourceModified uri s1) as [Hc' Hd'].
  split; congruence.
Qed.

Lemma sync_uninterrupted adapter uris s n :
  DebugSessionConnection.disposed (DebugSession.connection s) = false →
  (length uris ≤ n)%nat →
  fold_left (turn adapter) (repeat WhileConfiguring.answer n) (sync adapter uris s)
  = match for_of uris (updateBreakpoints_of adapter false) s with
    | (Ok _, s1) =>
        fold_left (turn adapter) (repeat WhileConfiguring.answer (n - length uris))
          (synced adapter s1)
    | (Throw reason, s1) => (ConfigureTask.failed reason, s1)
    end.
Proof.
  revert s n. induction uris as [|uri uris IH]; intros s n Hd Hn.
  - simpl. by rewrite Nat.sub_0_r.
  - destruct n as [|n]; [simpl in Hn; lia|].
    simpl in Hn. cbn [repeat fold_left for_of length Nat.sub].
    unfold bind at 1.
    unfold sync at 1, turn at 2, updateBreakpoints_of, bind, gets, lift, sendRequest.
    rewrite Hd. cbn [WhileConfiguring.input fst snd resume].
    unfold bind, lift.
    destruct (adapter _) as [[| |raws|]|reason]; cbn [keep_answer];
      try apply (answers_ended adapter n (Throw _, _)).
    unfold throw, modify.
    destruct (_ <? _)%nat.
    + apply (answers_ended adapter n (Throw _, _)).
    + apply IH; [exact Hd | lia].
Qed.

Lemma configure_uninterrupted adapter s n :
  DebugSessionConnection.disposed (DebugSession.connection s) = false →
  (length (configure_requests (DebugSession.breakpoints s)
             (truthy (DebugSession._capabilities s !! "supportsConfigurationDoneRequest")))
   ≤ n)%nat →
  configure_by_turns adapter s (repeat WhileConfiguring.answer n)
  = ended (configure adapter s).
Proof.
  intros Hd Hn. rewrite length_configure_requests in Hn.
  unfold configure_by_turns, getAffectedUris.
  rewrite sync_uninterrupted by (done || lia).
  unfold configure, updateBreakpoints, bind, gets, getAffectedUris, modify, ret.
  destruct (for_of_updateBreakpoints_keeps adapter false
              (BreakpointManager.getUris (DebugSession.breakpoints s)) s) as [Hc Hd'].
  destruct (for_of _ _ s) as [[[]|reason] s1]; [|done].
  cbn [snd] in Hc, Hd'. rewrite Hd in Hd'.
  unfold synced, sendRequest. rewrite Hc, Hd'.
  destruct (truthy _); cbn beta iota zeta; rewrite ?Hd'.
  - destruct (n - _)%nat as [|m] eqn:Hm; [lia|].
    cbn [repeat fold_left]. unfold turn at 2. cbn [WhileConfiguring.input fst snd resume].
    destruct (adapter _) as [body|reason].
    + apply (answers_ended adapter m (Ok tt, _)).
    + apply (answers_ended adapter m (Throw _, _)).
  - apply (answers_ended adapter _ (Ok tt, _)).
Qed.

(** C5, as amended. The [initialized] event calls [configure()], which is
    suspended at every request while the session handles [stopped],
    [continued] and [thread] events, [threads] responses and the debounced
    refresh. With an open connection and an adapter that acknowledges the
    requests, after [n] answers the requests sent, those of the thread
    refreshes apart, are the ones sent before followed by the first [n + 1]
    requests of [configure]: one first-sync [setBreakpoints] request
    ([sourceModified] false) for every resource of the store, in the order
    of the store, then [configurationDone] if and only if the capability
    [supportsConfigurationDoneRequest] is set. [configure] gets to the
    refresh exactly when all of them are answered; [initialized] is set
    exactly then, and exactly then one refresh is chained besides those of
    the inputs handled in between. When no refresh is under way and nothing
    is handled in between, the run is [configure] in one piece, and the
    [threads] request of the refresh ends the log; with the capability
    unset the refresh is chained all the same. *)
Theorem configure_sequence
    (adapter : list Request.t → Result ResponseBody) (s : DebugSession.t)
    (turns : list WhileConfiguring.t) :
  acknowledges adapter →
  DebugSessionConnection.disposed (DebugSession.connection s) = false →
  let expected :=
    configure_requests (DebugSession.breakpoints s)
      (truthy (DebugSession._capabilities s !! "supportsConfigurationDoneRequest")) in
  let n := answers turns in
  let task := fst (configure_by_turns adapter s turns) in
  let s' := snd (configure_by_turns adapter s turns) in
  own_requests s' = own_requests s ++ take (S n) expected ∧
  (task = ConfigureTask.awaiting_updateThreads ↔ (length expected ≤ n)%nat) ∧
  DebugSession.initialized s'
  = DebugSession.initialized s || (length expected <=? n)%nat ∧
  chained s' = (chained s + refreshes_meanwhile (DebugSession.scheduled s) turns
                + (if (length expected <=? n)%nat then 1 else 0))%nat ∧
  (chain_idle s → turns = repeat WhileConfiguring.answer (length expected) →
   on_event adapter DebugEvent.initialized s = (Ok tt, s') ∧
   DebugSessionConnection.sent (DebugSession.connection s')
   = DebugSessionConnection.sent (DebugSession.connection s)
     ++ expected ++ [Request.threads]).
Proof.
  intros Hack Hd expected n task s'.
  set (store := DebugSession.breakpoints s) in *.
  set (supported :=
         truthy (DebugSession._capabilities s !! "supportsConfigurationDoneRequest")) in *.
  pose proof (length_configure_requests store supported) as Hlen. fold expected in Hlen.
  destruct (sync_at adapter s 0 s Hack) as (Hc0 & Hs0 & Hn0); [lia | |].
  { unfold configure_view. by rewrite Hd, app_nil_r. }
  rewrite drop_0 in Hc0, Hs0, Hn0.
  change (sync adapter (BreakpointManager.getUris (DebugSession.breakpoints s)) s)
    with (sync adapter (getAffectedUris None s) s) in Hc0, Hs0, Hn0.
  destruct (turns_acknowledged adapter s turns 0 _ Hack Hc0) as ([Hv Ht] & Hn).
  fold (configure_by_turns adapter s turns) in Hv, Ht, Hn.
  fold s' in Hv, Hn. fold task in Ht.
  cbn [Nat.add] in Hv, Ht, Hn. fold n in Hv, Ht, Hn.
  fold store in Hv, Ht, Hn, Hn0. fold supported in Hv, Ht, Hn, Hn0.
  fold expected in Hv, Hn, Hn0.
  unfold configure_view in Hv. injection Hv as _ _ _ Ho Hi.
  split_and!.
  - exact Ho.
  - unfold task_after in Ht.
    destruct (BreakpointManager.getUris store !! n) as [uri|] eqn:Hk.
    + destruct Ht as (raws & -> & _). apply lookup_lt_Some in Hk.
      split; [done | lia].
    + apply lookup_ge_None in Hk.
      destruct supported; simpl in Ht.
      * destruct (Nat.eqb_spec n (length (BreakpointManager.getUris store))).
        -- destruct Ht as [body ->]. split; [done | lia].
        -- split; [lia | done].
      * split; [lia | done].
  - exact Hi.
  - rewrite Hs0 in Hn. lia.
  - intros Hidle Hturns.
    destruct (configure_acknowledged adapter s Hack Hd Hidle) as (Hok & Hsent & _).
    pose proof (configure_uninterrupted adapter s (length expected) Hd (Nat.le_refl _)) as Hrun.
    fold (configure_by_turns adapter s turns) in s'.
    subst s'. rewrite Hturns, Hrun.
    change (on_event adapter DebugEvent.initialized s) with (configure adapter s).
    destruct (configure adapter s) as [[[]|reason] s2]; [|done].
    split; [done|]. simpl in Hsent |- *. rewrite Hsent. by rewrite <- app_assoc.
Qed.

Lemma configure_sequence_witness :
  let s := Samples.session_started in
  let adapter := Samples.obliging_adapter in
  let turns :=
    [WhileConfiguring.answer;
     WhileConfiguring.stopped Samples.stopped_7_keep_focus;
     WhileConfiguring.answer] in
  acknowledges adapter ∧
  DebugSessionConnection.disposed (DebugSession.connection s) = false ∧
  (let expected :=
     configure_requests (DebugSession.breakpoints s)
       (truthy (DebugSession._capabilities s !! "supportsConfigurationDoneRequest")) in
   let n := answers turns in
   let task := fst (configure_by_turns adapter s turns) in
   let s' := snd (configure_by_turns adapter s turns) in
   own_requests s' = own_requests s ++ take (S n) expected ∧
   (task = ConfigureTask.awaiting_updateThreads ↔ (length expected ≤ n)%nat) ∧
   DebugSession.initialized s'
   = DebugSession.initialized s || (length expected <=? n)%nat ∧
   chained s' = (chained s + refreshes_meanwhile (DebugSession.scheduled s) turns
                 + (if (length expected <=? n)%nat then 1 else 0))%nat ∧
   (chain_idle s → turns = repeat WhileConfiguring.answer (length expected) →
    on_event adapter DebugEvent.initialized s = (Ok tt, s') ∧
    DebugSessionConnection.sent (DebugSession.connection s')
    = DebugSessionConnection.sent (DebugSession.connection s)
      ++ expected ++ [Request.threads])).
Proof.
  intros s adapter turns.
  exact (conj acknowledges_obliging (conj eq_refl
    (configure_sequence adapter s turns acknowledges_obliging eq_refl))).
Defined.

(** C5 as stated fails when a request of [configure] is rejected: with the
    capability set and [setBreakpoints] rejected, [configure] throws; no
    [configurationDone] and no [threads] request is sent and [initialized]
    stays false, however many answers arrive. *)
Lemma configure_stops_at_rejected_request :
  let s := Samples.session_started in
  let result := on_event Samples.refusing_adapter DebugEvent.initialized s in
  truthy (DebugSession._capabilities s !! "supportsConfigurationDoneRequest") = true ∧
  fst result = Throw (AdapterError "cannot launch") ∧
  DebugSessionConnection.sent (DebugSession.connection (snd result))
  = DebugSessionConnection.sent (DebugSession.connection s)
    ++ [first_sync_request Samples.store_a "file:///a.js"] ∧
  DebugSession.initialized (snd result) = false ∧
  chained (snd result) = chained s ∧
  ∀ n, configure_by_turns Samples.refusing_adapter s
         (repeat WhileConfiguring.answer (S n))
       = (ConfigureTask.failed (AdapterError "cannot launch"), snd result).
Proof.
  intros s result. split_and!; try (vm_compute; reflexivity).
  intros n. unfold configure_by_turns. cbn [repeat fold_left].
  assert (turn Samples.refusing_adapter
            (sync Samples.refusing_adapter (getAffectedUris None s) s)
            WhileConfiguring.answer
          = ended result) as -> by (vm_compute; reflexivity).
  rewrite answers_ended. vm_compute. reflexivity.
Qed.

(** A thread that stops while [configure] waits for its first answer: the
    [threads] request of that refresh goes out before [configurationDone],
    and the refresh of [configure] waits behind it without a request of
    its own. *)
Example configure_refresh_behind_a_stop :
  let s' :=
    snd (configure_by_turns Samples.obliging_adapter Samples.session_started
           [WhileConfiguring.stopped Samples.stopped_7_keep_focus;
            WhileConfiguring.answer;
            WhileConfiguring.answer]) in
  DebugSessionConnection.sent (DebugSession.connection s')
  = [Request.initialize "node";
     Request.launch (Samples.node_launch "X");
     Request.setBreakpoints "file:///a.js" false
       [{| DebugProtocol.line := 5; DebugProtocol.column := Some 1 |};
        {| DebugProtocol.line := 5; DebugProtocol.column := Some 8 |}];
     Request.threads;
     Request.configurationDone] ∧
  PromiseChain.waiting (DebugSession.pendingThreads s')
  = [Some Samples.stopped_7_keep_focus; None] ∧
  DebugSession.initialized s' = true.
Proof. vm_compute. done. Qed.

(** * Further properties *)

(** ** More on [dedupBreakpoints] *)

Lemma values_set_new {K V} `{EqDecision K} (k : K) (v : V) (m : JsMap.t K V) :
  JsMap.get k m = None → JsMap.values (JsMap.set k v m) = JsMap.values m ++ [v].
Proof.
  induction m as [|[k' v'] m IH]; simpl; [done|].
  destruct (decide (k' = k)) as [->|Hne]; simpl; [done|].
  intros Hg. unfold JsMap.values in *. simpl. f_equal. by apply IH.
Qed.

Lemma set_replaces {K V} `{EqDecision K} (k : K) (v v0 : V) (m : JsMap.t K V) :
  JsMap.get k m = Some v0 →
  ∃ l1 l2, m = l1 ++ (k, v0) :: l2 ∧ JsMap.set k v m = l1 ++ (k, v) :: l2.
Proof.
  induction m as [|[k' v'] m IH]; simpl; [done|].
  destruct (decide (k' = k)) as [->|Hne].
  - intros [= ->]. by exists [], m.
  - intros Hg. destruct (IH Hg) as (l1 & l2 & -> & ->). by exists ((k', v') :: l1), l2.
Qed.

Lemma dedup_fold_origins all lines :
  lines_ok lines → Forall has_origin all →
  Permutation
    (flat_map DebugBreakpoint.origins (JsMap.values (fold_left dedup_step all lines)))
    (flat_map DebugBreakpoint.origins (JsMap.values lines)
     ++ flat_map DebugBreakpoint.origins all).
Proof.
  revert lines. induction all as [|b all IH]; intros lines Hok Hall; simpl.
  - by rewrite app_nil_r.
  - apply Forall_cons in Hall as [Hb Hall].
    rewrite IH by (by try apply dedup_step_ok). rewrite app_assoc.
    apply Permutation_app_tail.
    destruct (dedup_step_set lines b Hok Hb) as (p & Hm & ->).
    destruct (JsMap.get (DebugBreakpoint.line b) lines) as [q|] eqn:Hg.
    + destruct (set_replaces _ p q lines Hg) as (l1 & l2 & Hl & ->).
      clear Hok. subst lines.
      unfold JsMap.values. rewrite !map_app, !flat_map_app. simpl.
      assert (Permutation (DebugBreakpoint.origins p)
                (DebugBreakpoint.origins q ++ DebugBreakpoint.origins b)) as Hp.
      { simpl in Hm. injection Hm as <-.
        destruct (DebugBreakpoint.kept_line b); simpl; [apply Permutation_app_comm|done]. }
      rewrite Hp, <- !app_assoc. do 2 apply Permutation_app_head.
      apply Permutation_app_comm.
    + simpl in Hm. injection Hm as <-.
      rewrite values_set_new by done. by rewrite flat_map_app; simpl; rewrite app_nil_r.
Qed.

(** X1. [dedupBreakpoints] neither loses nor repeats a declaration: the
    origins of its output, taken together, are the origins of its input. *)
Theorem dedupBreakpoints_keeps_all_origins (all : list DebugBreakpoint.t) :
  Forall has_origin all →
  Permutation (flat_map DebugBreakpoint.origins (dedupBreakpoints all))
    (flat_map DebugBreakpoint.origins all).
Proof.
  intros Hall. unfold dedupBreakpoints.
  by rewrite dedup_fold_origins by (done || apply lines_ok_empty).
Qed.

Lemma dedupBreakpoints_keeps_all_origins_witness :
  let all := [Samples.moved_3_5; Samples.kept_5; Samples.unsent_9] in
  Forall has_origin all ∧
  Permutation (flat_map DebugBreakpoint.origins (dedupBreakpoints all))
    (flat_map DebugBreakpoint.origins all).
Proof.
  intros all.
  assert (Forall has_origin all) as Hall by (repeat constructor; done).
  exact (conj Hall (dedupBreakpoints_keeps_all_origins all Hall)).
Defined.

Lemma dedup_fold_distinct all lines :
  NoDup (JsMap.keys lines ++ map DebugBreakpoint.line all) →
  JsMap.values (fold_left dedup_step all lines) = JsMap.values lines ++ all.
Proof.
  revert lines. induction all as [|b all IH]; intros lines Hnd; simpl.
  - by rewrite app_nil_r.
  - assert (JsMap.get (DebugBreakpoint.line b) lines = None) as Hg.
    { apply get_None_keys. intros Hin. apply NoDup_app in Hnd as (_ & Hd & _).
      apply (Hd (DebugBreakpoint.line b)); [by apply list_elem_of_In | by left]. }
    unfold dedup_step at 2. rewrite Hg. rewrite IH.
    + rewrite values_set_new by done. by rewrite <- app_assoc.
    + rewrite keys_set_new by done. by rewrite <- app_assoc.
Qed.

(** X2. On an input whose breakpoints stand on pairwise distinct lines
    there is nothing to collapse: [dedupBreakpoints] returns the input, in
    the same order and with the same origin lists. *)
Theorem dedupBreakpoints_distinct_lines (all : list DebugBreakpoint.t) :
  NoDup (map DebugBreakpoint.line all) → dedupBreakpoints all = all.
Proof. intros Hnd. unfold dedupBreakpoints. by rewrite dedup_fold_distinct. Qed.

Lemma dedupBreakpoints_distinct_lines_witness :
  let all := [Samples.moved_3_5; Samples.unsent_9] in
  NoDup (map DebugBreakpoint.line all) ∧ dedupBreakpoints all = all.
Proof.
  intros all.
  assert (NoDup (map DebugBreakpoint.line all)) as Hnd.
  { apply (NoDup_cons_2 5 [9]); [|apply NoDup_singleton].
    intros Hin. by apply list_elem_of_singleton in Hin. }
  exact (conj Hnd (dedupBreakpoints_distinct_lines all Hnd)).
Defined.

(** X3. [dedupBreakpoints] is idempotent: deduplicating its own output
    changes nothing. *)
Theorem dedupBreakpoints_idempotent (all : list DebugBreakpoint.t) :
  Forall has_origin all →
  dedupBreakpoints (dedupBreakpoints all) = dedupBreakpoints all.
Proof.
  intros Hall. unfold dedupBreakpoints at 1. rewrite dedup_fold_distinct; [done|].
  simpl. rewrite dedup_lines by done.
  apply (dedup_fold_ok all JsMap.empty lines_ok_empty Hall).
Qed.

Lemma dedupBreakpoints_idempotent_witness :
  let all := [Samples.moved_3_5; Samples.kept_5; Samples.moved_4_5; Samples.unsent_9] in
  Forall has_origin all ∧
  dedupBreakpoints (dedupBreakpoints all) = dedupBreakpoints all.
Proof.
  intros all.
  assert (Forall has_origin all) as Hall by (repeat constructor; done).
  exact (conj Hall (dedupBreakpoints_idempotent all Hall)).
Defined.

Lemma dedup_fold_keys all lines :
  lines_ok lines → Forall has_origin all →
  JsMap.keys (fold_left dedup_step all lines)
  = fold_left (λ seen x, if decide (x ∈ seen) then seen else seen ++ [x])
      (map DebugBreakpoint.line all) (JsMap.keys lines).
Proof.
  revert lines. induction all as [|b all IH]; intros lines Hok Hall; simpl; [done|].
  apply Forall_cons in Hall as [Hb Hall].
  rewrite IH by (by try apply dedup_step_ok). f_equal.
  destruct (dedup_step_set lines b Hok Hb) as (p & Hm & ->).
  destruct (JsMap.get (DebugBreakpoint.line b) lines) as [q|] eqn:Hg.
  - rewrite (keys_set_has _ _ _ _ Hg). rewrite decide_True; [done|].
    apply list_elem_of_In. apply get_Some_In in Hg.
    change (DebugBreakpoint.line b) with (fst (DebugBreakpoint.line b, q)).
    by apply in_map.
  - rewrite (keys_set_new _ _ _ Hg). rewrite decide_False; [done|].
    rewrite list_elem_of_In. by apply get_None_keys.
Qed.

(** X4. The output of [dedupBreakpoints] is ordered by the first occurrence
    of each line in the input: its lines are the lines of the input with
    the later repetitions dropped. *)
Theorem dedupBreakpoints_first_occurrence_order (all : list DebugBreakpoint.t) :
  Forall has_origin all →
  map DebugBreakpoint.line (dedupBreakpoints all)
  = first_occurrences (map DebugBreakpoint.line all).
Proof.
  intros Hall. rewrite dedup_lines by done.
  by rewrite dedup_fold_keys by (done || apply lines_ok_empty).
Qed.

Lemma dedupBreakpoints_first_occurrence_order_witness :
  let all := [Samples.unsent_9; Samples.moved_3_5; Samples.kept_5] in
  Forall has_origin all ∧
  map DebugBreakpoint.line (dedupBreakpoints all)
  = first_occurrences (map DebugBreakpoint.line all).
Proof.
  intros all.
  assert (Forall has_origin all) as Hall by (repeat constructor; done).
  exact (conj Hall (dedupBreakpoints_first_occurrence_order all Hall)).
Defined.

(** ** More on [updateBreakpoints] *)

Lemma update_enabled_nil all : update_enabled all [] = all.
Proof. by destruct all. Qed.

Lemma raw_enabled_new (declared : list SourceBreakpoint.t) :
  map DebugBreakpoint.raw
    (List.filter DebugBreakpoint.enabled (map DebugBreakpoint.new declared))
  = repeat None (length (List.filter SourceBreakpoint.enabled declared)).
Proof.
  induction declared as [|d ds IH]; simpl; [done|].
  unfold DebugBreakpoint.enabled at 1. simpl.
  destruct (SourceBreakpoint.enabled d); simpl; by rewrite ?IH.
Qed.

Lemma origins_map_update_enabled declared raws :
  map DebugBreakpoint.origins (update_enabled (map DebugBreakpoint.new declared) raws)
  = map (λ d, [d]) declared.
Proof.
  revert raws. induction declared as [|d ds IH]; intros raws; [done|].
  destruct raws as [|r raws].
  - specialize (IH []). rewrite update_enabled_nil in IH |- *.
    simpl. f_equal. exact IH.
  - simpl. destruct (DebugBreakpoint.enabled _); simpl; by rewrite IH.
Qed.

Lemma enabled_new d :
  DebugBreakpoint.enabled (DebugBreakpoint.new d) = SourceBreakpoint.enabled d.
Proof. done. Qed.

Lemma enabled_update r b :
  DebugBreakpoint.enabled (DebugBreakpoint.update r b) = DebugBreakpoint.enabled b.
Proof. done. Qed.

Lemma raw_enabled_update_enabled declared raws :
  map DebugBreakpoint.raw
    (List.filter DebugBreakpoint.enabled
       (update_enabled (map DebugBreakpoint.new declared) raws))
  = map Some (take (length (List.filter SourceBreakpoint.enabled declared)) raws)
    ++ repeat None (length (List.filter SourceBreakpoint.enabled declared) - length raws).
Proof.
  revert raws. induction declared as [|d ds IH]; intros raws.
  - by destruct raws.
  - destruct raws as [|r raws].
    + rewrite update_enabled_nil, raw_enabled_new, take_nil, Nat.sub_0_r. done.
    + cbn [map update_enabled List.filter]. rewrite enabled_new.
      destruct (SourceBreakpoint.enabled d) eqn:Hen.
      * cbn [List.filter]. rewrite enabled_update, enabled_new, Hen.
        cbn [map length take Nat.sub app]. by rewrite IH.
      * cbn [List.filter]. rewrite enabled_new, Hen. apply IH.
Qed.

Lemma disabled_update_enabled declared raws :
  Forall (λ b, DebugBreakpoint.enabled b = false → DebugBreakpoint.raw b = None)
    (update_enabled (map DebugBreakpoint.new declared) raws).
Proof.
  revert raws. induction declared as [|d ds IH]; intros raws; [by destruct raws|].
  destruct raws as [|r raws].
  - rewrite update_enabled_nil. apply List.Forall_forall. intros b Hb _.
    by apply in_map_iff in Hb as (? & <- & _).
  - simpl. destruct (DebugBreakpoint.enabled (DebugBreakpoint.new d)) eqn:Hen.
    + constructor; [|apply IH]. unfold DebugBreakpoint.enabled in *. simpl in *. congruence.
    + constructor; [done | apply IH].
Qed.

(** X5. The adapter's verification results are applied in the order of the
    request: of the breakpoints built from the store's declarations, the
    enabled ones take the results one by one (those beyond the last result
    stay unverified), a disabled one never gets a result, and every
    breakpoint still stands for its own declaration only. *)
Theorem update_enabled_in_request_order
    (declared : list SourceBreakpoint.t) (raws : list DebugProtocol.Breakpoint) :
  let out := update_enabled (map DebugBreakpoint.new declared) raws in
  let n := length (List.filter SourceBreakpoint.enabled declared) in
  map DebugBreakpoint.origins out = map (λ d, [d]) declared ∧
  map DebugBreakpoint.raw (List.filter DebugBreakpoint.enabled out)
    = map Some (take n raws) ++ repeat None (n - length raws) ∧
  Forall (λ b, DebugBreakpoint.enabled b = false → DebugBreakpoint.raw b = None) out.
Proof.
  intros out n. split_and!.
  - apply origins_map_update_enabled.
  - apply raw_enabled_update_enabled.
  - apply disabled_update_enabled.
Qed.

Lemma updateBreakpoints_single adapter uri sourceModified s :
  updateBreakpoints adapter (Some uri) sourceModified s
  = updateBreakpoints_of adapter sourceModified uri s.
Proof.
  unfold updateBreakpoints, bind, gets, getAffectedUris. simpl.
  unfold bind, ret. by destruct (updateBreakpoints_of _ _ _ _) as [[[]|] ?].
Qed.

(** X6. A resync that the adapter does not acknowledge changes nothing but
    the log of requests: when the [setBreakpoints] request fails, or its
    answer carries more results than breakpoints were sent, the resync
    throws (the adapter's own error when it failed), the breakpoints kept
    per resource stay as they were and no change notification is fired. *)
Theorem updateBreakpoints_unacknowledged_keeps_state
    (adapter : list Request.t → Result ResponseBody)
    (uri : string) (sourceModified : bool) (s : DebugSession.t) :
  let declared := BreakpointManager.findMarkers (Some uri) (DebugSession.breakpoints s) in
  let enabled := List.filter SourceBreakpoint.enabled declared in
  let request := Request.setBreakpoints uri sourceModified (map SourceBreakpoint.raw enabled) in
  let answer := adapter (DebugSessionConnection.sent (DebugSession.connection s) ++ [request]) in
  DebugSessionConnection.disposed (DebugSession.connection s) = false →
  (∀ raws, answer = Ok (SetBreakpointsBody raws) → (length enabled < length raws)%nat) →
  let result := updateBreakpoints adapter (Some uri) sourceModified s in
  (∃ e, fst result = Throw e) ∧
  (∀ e, answer = Throw e → fst result = Throw e) ∧
  DebugSession._breakpoints (snd result) = DebugSession._breakpoints s ∧
  DebugSession.didChangeBreakpoints (snd result) = DebugSession.didChangeBreakpoints s.
Proof.
  intros declared enabled request answer Hd Hbad.
  rewrite updateBreakpoints_single, updateBreakpoints_of_run by done.
  fold declared enabled request. subst answer.
  destruct (adapter _) as [[| |raws|]|e].
  - split_and!; [by eexists | done | done | done].
  - split_and!; [by eexists | done | done | done].
  - specialize (Hbad raws eq_refl). apply Nat.ltb_lt in Hbad. rewrite Hbad.
    split_and!; [by eexists | done | done | done].
  - split_and!; [by eexists | done | done | done].
  - split_and!; [by eexists | by intros ? [= ->] | done | done].
Qed.

Lemma updateBreakpoints_unacknowledged_keeps_state_witness :
  let s := Samples.session_a in
  let adapter := Samples.refusing_adapter in
  let declared :=
    BreakpointManager.findMarkers (Some "file:///a.js") (DebugSession.breakpoints s) in
  let enabled := List.filter SourceBreakpoint.enabled declared in
  let request := Request.setBreakpoints "file:///a.js" true (map SourceBreakpoint.raw enabled) in
  let answer := adapter (DebugSessionConnection.sent (DebugSession.connection s) ++ [request]) in
  DebugSessionConnection.disposed (DebugSession.connection s) = false ∧
  (∀ raws, answer = Ok (SetBreakpointsBody raws) → (length enabled < length raws)%nat) ∧
  (let result := updateBreakpoints adapter (Some "file:///a.js") true s in
   (∃ e, fst result = Throw e) ∧
   (∀ e, answer = Throw e → fst result = Throw e) ∧
   DebugSession._breakpoints (snd result) = DebugSession._breakpoints s ∧
   DebugSession.didChangeBreakpoints (snd result) = DebugSession.didChangeBreakpoints s).
Proof.
  intros s adapter declared enabled request answer.
  assert (∀ raws, answer = Ok (SetBreakpointsBody raws) → (length enabled < length raws)%nat)
    as Hbad by (intros raws; discriminate).
  exact (conj eq_refl (conj Hbad
    (updateBreakpoints_unacknowledged_keeps_state adapter "file:///a.js" true s eq_refl Hbad))).
Defined.

(** X7. An acknowledged resync of a resource returns normally, fires one
    change notification, for that resource; afterwards [getBreakpoints(uri)]
    of the session returns the list just built, and the lists of the other
    resources are what they were. *)
Theorem updateBreakpoints_acknowledged_stores_and_notifies
    (adapter : list Request.t → Result ResponseBody)
    (uri : string) (sourceModified : bool) (s : DebugSession.t)
    (raws : list DebugProtocol.Breakpoint) :
  let declared := BreakpointManager.findMarkers (Some uri) (DebugSession.breakpoints s) in
  let enabled := List.filter SourceBreakpoint.enabled declared in
  let request := Request.setBreakpoints uri sourceModified (map SourceBreakpoint.raw enabled) in
  DebugSessionConnection.disposed (DebugSession.connection s) = false →
  adapter (DebugSessionConnection.sent (DebugSession.connection s) ++ [request])
    = Ok (SetBreakpointsBody raws) →
  (length raws ≤ length enabled)%nat →
  let result := updateBreakpoints adapter (Some uri) sourceModified s in
  fst result = Ok tt ∧
  DebugSession.didChangeBreakpoints (snd result) = DebugSession.didChangeBreakpoints s ++ [uri] ∧
  getBreakpoints (Some uri) (snd result)
    = dedupBreakpoints (update_enabled (map DebugBreakpoint.new declared) raws) ∧
  ∀ other, other ≠ uri →
    getBreakpoints (Some other) (snd result) = getBreakpoints (Some other) s.
Proof.
  intros declared enabled request Hd Ha Hlen.
  rewrite updateBreakpoints_single, updateBreakpoints_of_run by done.
  fold declared enabled request. rewrite Ha.
  destruct (Nat.ltb_spec (length enabled) (length raws)); [lia|].
  unfold getBreakpoints. simpl. split_and!; try done.
  - by rewrite get_set_eq.
  - intros other Hne. by rewrite get_set_ne.
Qed.

Lemma updateBreakpoints_acknowledged_stores_and_notifies_witness :
  let s := Samples.session_a in
  let adapter := Samples.obliging_adapter in
  let raws := [{| DebugProtocol.verified := true; DebugProtocol.bline := Some 5 |};
               {| DebugProtocol.verified := true; DebugProtocol.bline := Some 5 |}] in
  let declared :=
    BreakpointManager.findMarkers (Some "file:///a.js") (DebugSession.breakpoints s) in
  let enabled := List.filter SourceBreakpoint.enabled declared in
  let request := Request.setBreakpoints "file:///a.js" true (map SourceBreakpoint.raw enabled) in
  DebugSessionConnection.disposed (DebugSession.connection s) = false ∧
  adapter (DebugSessionConnection.sent (DebugSession.connection s) ++ [request])
    = Ok (SetBreakpointsBody raws) ∧
  (length raws ≤ length enabled)%nat ∧
  (let result := updateBreakpoints adapter (Some "file:///a.js") true s in
   fst result = Ok tt ∧
   DebugSession.didChangeBreakpoints (snd result)
     = DebugSession.didChangeBreakpoints s ++ ["file:///a.js"] ∧
   getBreakpoints (Some "file:///a.js") (snd result)
     = dedupBreakpoints (update_enabled (map DebugBreakpoint.new declared) raws) ∧
   ∀ other, other ≠ "file:///a.js" →
     getBreakpoints (Some other) (snd result) = getBreakpoints (Some other) s).
Proof.
  intros s adapter raws declared enabled request.
  assert (length raws ≤ length enabled)%nat as Hlen by (vm_compute; lia).
  exact (conj eq_refl (conj eq_refl (conj Hlen
    (updateBreakpoints_acknowledged_stores_and_notifies adapter "file:///a.js" true s raws
       eq_refl eq_refl Hlen)))).
Defined.

Lemma origins_update_enabled declared raws :
  flat_map DebugBreakpoint.origins (update_enabled (map DebugBreakpoint.new declared) raws)
  = declared.
Proof.
  revert raws. induction declared as [|d ds IH]; intros raws; simpl; [done|].
  destruct raws as [|r raws].
  - simpl. f_equal. specialize (IH []). by rewrite update_enabled_nil in IH.
  - destruct (DebugBreakpoint.enabled _); simpl; by rewrite IH.
Qed.

(** X8. After an acknowledged resync the breakpoints kept for the resource
    account for every declaration of the store, enabled or not, exactly
    once: their origin lists, taken together, are the declarations of the
    resource. A declaration that collapsed into another line's primary is
    still on record. *)
Theorem updateBreakpoints_keeps_every_declaration
    (adapter : list Request.t → Result ResponseBody)
    (uri : string) (sourceModified : bool) (s : DebugSession.t)
    (raws : list DebugProtocol.Breakpoint) :
  let declared := BreakpointManager.findMarkers (Some uri) (DebugSession.breakpoints s) in
  let enabled := List.filter SourceBreakpoint.enabled declared in
  let request := Request.setBreakpoints uri sourceModified (map SourceBreakpoint.raw enabled) in
  DebugSessionConnection.disposed (DebugSession.connection s) = false →
  adapter (DebugSessionConnection.sent (DebugSession.connection s) ++ [request])
    = Ok (SetBreakpointsBody raws) →
  (length raws ≤ length enabled)%nat →
  Permutation
    (flat_map DebugBreakpoint.origins
       (getBreakpoints (Some uri)
          (snd (updateBreakpoints adapter (Some uri) sourceModified s))))
    declared.
Proof.
  intros declared enabled request Hd Ha Hlen.
  rewrite updateBreakpoints_single, updateBreakpoints_of_run by done.
  fold declared enabled request. rewrite Ha.
  destruct (Nat.ltb_spec (length enabled) (length raws)); [lia|].
  unfold getBreakpoints. simpl. rewrite get_set_eq. simpl.
  unfold dedupBreakpoints.
  rewrite dedup_fold_origins by (apply lines_ok_empty || apply has_origin_update_enabled).
  simpl. by rewrite origins_update_enabled.
Qed.

Lemma updateBreakpoints_keeps_every_declaration_witness :
  let s := Samples.session_a in
  let adapter := Samples.obliging_adapter in
  let raws := [{| DebugProtocol.verified := true; DebugProtocol.bline := Some 5 |};
               {| DebugProtocol.verified := true; DebugProtocol.bline := Some 5 |}] in
  let declared :=
    BreakpointManager.findMarkers (Some "file:///a.js") (DebugSession.breakpoints s) in
  let enabled := List.filter SourceBreakpoint.enabled declared in
  let request := Request.setBreakpoints "file:///a.js" true (map SourceBreakpoint.raw enabled) in
  DebugSessionConnection.disposed (DebugSession.connection s) = false ∧
  adapter (DebugSessionConnection.sent (DebugSession.connection s) ++ [request])
    = Ok (SetBreakpointsBody raws) ∧
  (length raws ≤ length enabled)%nat ∧
  Permutation
    (flat_map DebugBreakpoint.origins
       (getBreakpoints (Some "file:///a.js")
          (snd (updateBreakpoints adapter (Some "file:///a.js") true s))))
    declared.
Proof.
  intros s adapter raws declared enabled request.
  assert (length raws ≤ length enabled)%nat as Hlen by (vm_compute; lia).
  exact (conj eq_refl (conj eq_refl (conj Hlen
    (updateBreakpoints_keeps_every_declaration adapter "file:///a.js" true s raws
       eq_refl eq_refl Hlen)))).
Defined.

(** ** More on the life cycle *)

(** X9. When the adapter rejects [initialize], [start] ends by throwing
    that error and stops there: [initialize] is the only request sent, no
    [launch] or [attach] follows, no [exited] event is fired, no message is
    shown, and the capabilities stay as they were. *)
Theorem start_initialize_failure_stops
    (adapter : list Request.t → Result ResponseBody)
    (showMessage : Error → Result unit)
    (s : DebugSession.t) (e : Error) :
  let c := DebugSession.connection s in
  let init := Request.initialize (DebugConfiguration.type (DebugSession.configuration s)) in
  DebugSessionConnection.disposed c = false →
  adapter (DebugSessionConnection.sent c ++ [init]) = Throw e →
  let result := start adapter showMessage s in
  let c' := DebugSession.connection (snd result) in
  fst result = Throw e ∧
  DebugSessionConnection.sent c' = DebugSessionConnection.sent c ++ [init] ∧
  DebugSessionConnection.fired c' = DebugSessionConnection.fired c ∧
  DebugSession.shown (snd result) = DebugSession.shown s ∧
  DebugSession._capabilities (snd result) = DebugSession._capabilities s.
Proof.
  intros c init Hd Hinit. subst c.
  unfold start, initialize, bind, gets, sendRequest.
  rewrite Hd. simpl. fold init. by rewrite Hinit.
Qed.

Lemma start_initialize_failure_stops_witness :
  let adapter := λ _ : list Request.t, Throw (AdapterError "no such debugger") in
  let showMessage := λ _ : Error, Ok tt in
  let s := Samples.session_a in
  let e := AdapterError "no such debugger" in
  let c := DebugSession.connection s in
  let init := Request.initialize (DebugConfiguration.type (DebugSession.configuration s)) in
  DebugSessionConnection.disposed c = false ∧
  adapter (DebugSessionConnection.sent c ++ [init]) = Throw e ∧
  (let result := start adapter showMessage s in
   let c' := DebugSession.connection (snd result) in
   fst result = Throw e ∧
   DebugSessionConnection.sent c' = DebugSessionConnection.sent c ++ [init] ∧
   DebugSessionConnection.fired c' = DebugSessionConnection.fired c ∧
   DebugSession.shown (snd result) = DebugSession.shown s ∧
   DebugSession._capabilities (snd result) = DebugSession._capabilities s).
Proof.
  intros adapter showMessage s e c init.
  exact (conj eq_refl (conj eq_refl
    (start_initialize_failure_stops adapter showMessage s e eq_refl eq_refl))).
Defined.

(** X10. When the adapter accepts [initialize] and the [launch] or [attach]
    request, [start] returns normally; the stored capabilities are replaced
    by the body of the [initialize] response (by the empty set when the
    response has no body), not merged into the earlier ones; the two
    requests are all that was sent, and nothing is fired or shown. *)
Theorem start_success_replaces_capabilities
    (adapter : list Request.t → Result ResponseBody)
    (showMessage : Error → Result unit)
    (s : DebugSession.t) (body body' : ResponseBody) :
  let c := DebugSession.connection s in
  let init := Request.initialize (DebugConfiguration.type (DebugSession.configuration s)) in
  let go := launch_request (DebugSession.configuration s) in
  DebugSessionConnection.disposed c = false →
  adapter (DebugSessionConnection.sent c ++ [init]) = Ok body →
  adapter (DebugSessionConnection.sent c ++ [init; go]) = Ok body' →
  let result := start adapter showMessage s in
  let c' := DebugSession.connection (snd result) in
  fst result = Ok tt ∧
  DebugSession._capabilities (snd result)
    = match body with InitializeBody capabilities => capabilities | _ => ∅ end ∧
  DebugSessionConnection.sent c' = DebugSessionConnection.sent c ++ [init; go] ∧
  DebugSessionConnection.fired c' = DebugSessionConnection.fired c ∧
  DebugSession.shown (snd result) = DebugSession.shown s.
Proof.
  intros c init go Hd Hinit Hgo.
  change (DebugSessionConnection.sent c ++ [init; go])
    with (DebugSessionConnection.sent c ++ [init] ++ [go]) in *.
  rewrite app_assoc in Hgo. subst c.
  unfold start, initialize, launchOrAttach, bind, try_catch, gets, modify, sendRequest, ret.
  rewrite Hd. simpl. fold init. rewrite Hinit. simpl.
  subst go. unfold launch_request in *.
  destruct (String.eqb _ "attach"); simpl; rewrite Hd; simpl; rewrite Hgo; simpl;
    by rewrite <- app_assoc.
Qed.

Lemma start_success_replaces_capabilities_witness :
  let adapter := Samples.obliging_adapter in
  let showMessage := λ _ : Error, Ok tt in
  let s := Samples.session_a in
  let body := InitializeBody {[ "supportsConfigurationDoneRequest" := JBool true ]} in
  let c := DebugSession.connection s in
  let init := Request.initialize (DebugConfiguration.type (DebugSession.configuration s)) in
  let go := launch_request (DebugSession.configuration s) in
  DebugSessionConnection.disposed c = false ∧
  adapter (DebugSessionConnection.sent c ++ [init]) = Ok body ∧
  adapter (DebugSessionConnection.sent c ++ [init; go]) = Ok NoBody ∧
  (let result := start adapter showMessage s in
   let c' := DebugSession.connection (snd result) in
   fst result = Ok tt ∧
   DebugSession._capabilities (snd result)
     = match body with InitializeBody capabilities => capabilities | _ => ∅ end ∧
   DebugSessionConnection.sent c' = DebugSessionConnection.sent c ++ [init; go] ∧
   DebugSessionConnection.fired c' = DebugSessionConnection.fired c ∧
   DebugSession.shown (snd result) = DebugSession.shown s).
Proof.
  intros adapter showMessage s body c init go.
  exact (conj eq_refl (conj eq_refl (conj eq_refl
    (start_success_replaces_capabilities adapter showMessage s body NoBody
       eq_refl eq_refl eq_refl)))).
Defined.

Section ResyncFrame.

Variable adapter : list Request.t → Result ResponseBody.
Variable P : DebugSession.t → Prop.
Hypothesis P_send :
  ∀ s req, P s →
    P (DebugSession.with_connection
         (DebugSessionConnection.send req (DebugSession.connection s)) s).
Hypothesis P_store :
  ∀ s uri kept, P s →
    P (DebugSession.fireDidChangeBreakpoints uri (DebugSession.with__breakpoints kept s)).

Lemma sendRequest_frame req s : P s → P (snd (sendRequest adapter req s)).
Proof.
  unfold sendRequest. destruct (DebugSessionConnection.disposed _); [done|]. apply P_send.
Qed.

Lemma updateBreakpoints_frame uri sourceModified s :
  P s → P (snd (updateBreakpoints adapter uri sourceModified s)).
Proof.
  intros Hs. unfold updateBreakpoints. apply bind_inv; [done | | done].
  intros uris s1 Hs1. apply for_of_inv; [|done].
  intros u s2 Hs2. unfold updateBreakpoints_of.
  apply bind_inv; [done | | done]. intros all s3 Hs3.
  apply bind_inv; [apply sendRequest_frame | | done]. intros response s4 Hs4.
  destruct response; try done. destruct (_ <? _)%nat; [done|].
  simpl. by apply P_store.
Qed.

End ResyncFrame.

Lemma configure_cases adapter s :
  configure adapter s =
    let '(r1, s1) := updateBreakpoints adapter None false s in
    match r1 with
    | Throw e => (Throw e, s1)
    | Ok _ =>
        if truthy (DebugSession._capabilities s1 !! "supportsConfigurationDoneRequest")
        then
          let '(r2, s2) := sendRequest adapter Request.configurationDone s1 in
          match r2 with
          | Throw e => (Throw e, s2)
          | Ok _ => (Ok tt, updateThreads None (DebugSession.with_initialized true s2))
          end
        else (Ok tt, updateThreads None (DebugSession.with_initialized true s1))
    end.
Proof.
  unfold configure. unfold bind at 1.
  destruct (updateBreakpoints adapter None false s) as [[[]|e] s1]; [|done].
  unfold bind, gets, modify, ret.
  destruct (truthy _); [|done].
  by destruct (sendRequest adapter Request.configurationDone s1) as [[b|e] s2].
Qed.

Lemma initialized_doUpdateThreads threads stoppedDetails s :
  DebugSession.initialized (doUpdateThreads threads stoppedDetails s)
  = DebugSession.initialized s.
Proof.
  unfold doUpdateThreads, updateCurrentThread. simpl.
  generalize (DebugSession._threads s) at 1. intros existing.
  change (DebugSession.initialized s)
    with (DebugSession.initialized (DebugSession.with_threads JsMap.empty s)).
  generalize (DebugSession.with_threads JsMap.empty s).
  induction threads as [|raw threads IH]; intros s2; simpl; [done|].
  rewrite IH. unfold doUpdateThreads_step. by destruct (JsMap.get _ existing).
Qed.

Lemma initialized_settle_job response s job :
  DebugSession.initialized (settle_job response s job) = DebugSession.initialized s.
Proof.
  unfold settle_job. destruct (PromiseChain.outcome _); [|done].
  pose proof (refresh_cases job response s) as Hc.
  destruct (refresh job response s) as [r s1]. simpl in *. subst s1.
  destruct response as [[]|]; try done. apply initialized_doUpdateThreads.
Qed.

Lemma initialized_fold_settle_job response jobs s :
  DebugSession.initialized (fold_left (settle_job response) jobs s)
  = DebugSession.initialized s.
Proof.
  revert s. induction jobs as [|job jobs IH]; intros s; simpl; [done|].
  by rewrite IH, initialized_settle_job.
Qed.

Lemma initialized_start_pending s :
  DebugSession.initialized (start_pending s) = DebugSession.initialized s.
Proof.
  unfold start_pending.
  destruct (PromiseChain.waiting (DebugSession.pendingThreads s)) as [|job jobs]; [done|].
  destruct (PromiseChain.outcome (DebugSession.pendingThreads s));
    destruct (DebugSessionConnection.disposed (DebugSession.connection s));
    try done; apply initialized_fold_settle_job.
Qed.

Lemma initialized_updateThreads stoppedDetails s :
  DebugSession.initialized (updateThreads stoppedDetails s) = DebugSession.initialized s.
Proof.
  unfold updateThreads.
  destruct (PromiseChain.waiting (DebugSession.pendingThreads s)); [|done].
  by rewrite initialized_start_pending.
Qed.

Section StopsAtRejection.

Variable adapter : list Request.t → Result ResponseBody.

Lemma stops_silent {A} (s : DebugSession.t) (result : Result A * DebugSession.t) :
  DebugSessionConnection.sent (DebugSession.connection (snd result))
  = DebugSessionConnection.sent (DebugSession.connection s) →
  stops_at_rejection adapter s result.
Proof.
  intros Hsent. exists []. rewrite app_nil_r. split; [done|].
  intros l req rest e Hl. by destruct l.
Qed.

Lemma stops_sendRequest req s : stops_at_rejection adapter s (sendRequest adapter req s).
Proof.
  unfold sendRequest.
  destruct (DebugSessionConnection.disposed (DebugSession.connection s));
    [by apply stops_silent|].
  exists [req]. split; [done|].
  intros l req' rest e Hl _ He. destruct l as [|x l]; simpl in Hl.
  - injection Hl as <- <-. simpl in *. by rewrite He.
  - injection Hl as _ Hl. by destruct l.
Qed.

Lemma stops_bind {A B} (c : SessionM A) (k : A → SessionM B) s :
  stops_at_rejection adapter s (c s) →
  (∀ a s1, stops_at_rejection adapter s1 (k a s1)) →
  stops_at_rejection adapter s (bind c k s).
Proof.
  intros (added1 & Hsent1 & Hstop1) Hk. unfold bind.
  destruct (c s) as [[a|e1] s1] eqn:Hc; cbn [fst snd] in *.
  - destruct (Hk a s1) as (added2 & Hsent2 & Hstop2).
    exists (added1 ++ added2). split; [by rewrite Hsent2, Hsent1, app_assoc|].
    intros l req rest e Hl Hreq He.
    symmetry in Hl. apply app_eq_app in Hl as [l' [[Ha Hb]|[Ha Hb]]].
    + subst l. apply (Hstop2 l' req rest e); [done | done |].
      by rewrite Hsent1, <- !app_assoc in *.
    + destruct l' as [|x l'].
      * rewrite app_nil_r in Ha. subst l. simpl in Hb.
        apply (Hstop2 [] req rest e); [done | done |].
        by rewrite Hsent1, <- app_assoc.
      * simpl in Hb. injection Hb as <- ->.
        destruct (Hstop1 l req l' e Ha Hreq He) as [Habs _]. discriminate Habs.
  - exists added1. split; [done|].
    intros l req rest e Hl Hreq He.
    destruct (Hstop1 l req rest e Hl Hreq He) as [Heq ->]. by injection Heq as ->.
Qed.

Lemma stops_updateBreakpoints_of sourceModified uri s :
  stops_at_rejection adapter s (updateBreakpoints_of adapter sourceModified uri s).
Proof.
  unfold updateBreakpoints_of.
  apply stops_bind; [by apply stops_silent|]. intros all s1.
  apply stops_bind; [apply stops_sendRequest|]. intros response s2.
  apply stops_silent. destruct response; try done.
  by destruct (_ <? _)%nat.
Qed.

Lemma stops_for_of sourceModified uris s :
  stops_at_rejection adapter s (for_of uris (updateBreakpoints_of adapter sourceModified) s).
Proof.
  revert s. induction uris as [|uri uris IH]; intros s; simpl.
  - by apply stops_silent.
  - apply stops_bind; [apply stops_updateBreakpoints_of | auto].
Qed.

Lemma sent_start_pending s :
  let sent s := DebugSessionConnection.sent (DebugSession.connection s) in
  sent (start_pending s) = sent s ∨ sent (start_pending s) = sent s ++ [Request.threads].
Proof.
  cbn zeta. unfold start_pending.
  destruct (PromiseChain.waiting (DebugSession.pendingThreads s)) as [|job jobs];
    [by left|].
  destruct (PromiseChain.outcome (DebugSession.pendingThreads s)),
    (DebugSessionConnection.disposed (DebugSession.connection s));
    try (by right); left;
    by rewrite (observed_fold_settle_job
                  (λ s, DebugSessionConnection.sent (DebugSession.connection s))).
Qed.

Lemma sent_updateThreads stoppedDetails s :
  let sent s := DebugSessionConnection.sent (DebugSession.connection s) in
  sent (updateThreads stoppedDetails s) = sent s ∨
  sent (updateThreads stoppedDetails s) = sent s ++ [Request.threads].
Proof.
  cbn zeta. unfold updateThreads.
  destruct (PromiseChain.waiting (DebugSession.pendingThreads s)); [|by left].
  apply (sent_start_pending
           (DebugSession.with_pendingThreads
              (PromiseChain.chain stoppedDetails (DebugSession.pendingThreads s)) s)).
Qed.

Lemma stops_configure s : stops_at_rejection adapter s (configure adapter s).
Proof.
  unfold configure.
  apply stops_bind.
  { unfold updateBreakpoints. apply stops_bind; [by apply stops_silent|].
    intros uris s1. apply stops_for_of. }
  intros _ s1. apply stops_bind.
  { apply stops_bind; [by apply stops_silent|]. intros capabilities s2.
    destruct (truthy _); [|by apply stops_silent].
    apply stops_bind; [apply stops_sendRequest|]. intros _ s3. by apply stops_silent. }
  intros _ s2. apply stops_bind; [by apply stops_silent|]. intros _ s3.
  unfold modify. destruct (sent_updateThreads None s3) as [Hs|Hs]; cbn zeta in Hs.
  - by apply stops_silent.
  - exists [Request.threads]. split; [done|].
    intros l req rest e Hl Hreq. destruct l as [|x l]; simpl in Hl.
    + by injection Hl as <- <-.
    + injection Hl as _ Hl. by destruct l.
Qed.

End StopsAtRejection.

(** X11. [configure] marks the session initialized only when all of its
    requests went through. When it returns normally, [initialized] is true;
    when it throws, [initialized] keeps its value, no refresh of the threads
    is chained and no [threads] request is put in flight, so a session that
    was Initializing stays Initializing. And it does throw when a request
    fails: a [setBreakpoints] or [configurationDone] request of [configure]
    that the adapter rejects is the last request sent, and [configure]
    throws the error of the adapter. *)
Theorem configure_initialized_only_on_success
    (adapter : list Request.t → Result ResponseBody) (s : DebugSession.t) :
  let result := configure adapter s in
  match fst result with
  | Ok _ => DebugSession.initialized (snd result) = true
  | Throw _ =>
      DebugSession.initialized (snd result) = DebugSession.initialized s ∧
      DebugSession.pendingThreads (snd result) = DebugSession.pendingThreads s ∧
      DebugSessionConnection.awaiting (DebugSession.connection (snd result))
        = DebugSessionConnection.awaiting (DebugSession.connection s)
  end ∧
  ∀ l req rest e,
    DebugSessionConnection.sent (DebugSession.connection (snd result)) = l ++ req :: rest →
    (length (DebugSessionConnection.sent (DebugSession.connection s)) ≤ length l)%nat →
    req ≠ Request.threads →
    adapter (l ++ [req]) = Throw e →
    fst result = Throw e ∧ rest = [].
Proof.
  split.
  - set (P := λ s', DebugSession.initialized s' = DebugSession.initialized s ∧
                    DebugSession.pendingThreads s' = DebugSession.pendingThreads s ∧
                    DebugSessionConnection.awaiting (DebugSession.connection s')
                    = DebugSessionConnection.awaiting (DebugSession.connection s)).
    assert (∀ s0 req, P s0 →
              P (DebugSession.with_connection
                   (DebugSessionConnection.send req (DebugSession.connection s0)) s0))
      as P_send by done.
    assert (∀ s0 uri kept, P s0 →
              P (DebugSession.fireDidChangeBreakpoints uri
                   (DebugSession.with__breakpoints kept s0))) as P_store by done.
    assert (P s) as Hs by done.
    pose proof (updateBreakpoints_frame adapter P P_send P_store None false s Hs) as H1.
    rewrite configure_cases.
    destruct (updateBreakpoints adapter None false s) as [[[]|e] s1]; simpl in *; [|done].
    destruct (truthy _); simpl; [|by rewrite initialized_updateThreads].
    pose proof (sendRequest_frame adapter P P_send Request.configurationDone s1 H1) as H2.
    destruct (sendRequest adapter Request.configurationDone s1) as [[b|e] s2]; simpl in *;
      [by rewrite initialized_updateThreads | done].
  - destruct (stops_configure adapter s) as (added & Hsent & Hstop).
    intros l req rest e Hl Hlen Hreq He. rewrite Hsent in Hl.
    apply app_eq_app in Hl as [l' [[Ha Hb]|[Ha Hb]]].
    + assert (l' = []) as ->.
      { apply (f_equal length) in Ha. rewrite length_app in Ha.
        destruct l'; [done | simpl in Ha; lia]. }
      rewrite app_nil_r in Ha. simpl in Hb. subst l.
      by apply (Hstop [] req rest e).
    + subst l. apply (Hstop l' req rest e); [done | done |].
      by rewrite <- app_assoc in He.
Qed.

(** ** The thread map *)

Section ThreadFrame.

Variable adapter : list Request.t → Result ResponseBody.
Variable P : DebugSession.t → Prop.
Hypothesis P_same : ∀ s s', same_threads s s' → P s → P s'.
Hypothesis P_doUpdateThreads :
  ∀ threads stoppedDetails s, P s → P (doUpdateThreads threads stoppedDetails s).
Hypothesis P_clearThreads : ∀ s, P s → P (clearThreads s).
Hypothesis P_clearThread : ∀ threadId s, P s → P (clearThread threadId s).
Hypothesis P_emptied : ∀ s, P s → P (DebugSession.with_threads JsMap.empty s).

Lemma frame_settle_job response s job : P s → P (settle_job response s job).
Proof.
  intros Hs. destruct (settle_job_threads response s job) as [(Ht & Ho & Hc)|Hsame].
  - apply (P_same (snd (refresh job response s))); [by repeat split|].
    rewrite refresh_cases. destruct response as [[]|]; auto.
  - by apply (P_same s).
Qed.

Lemma frame_fold_settle_job response jobs s :
  P s → P (fold_left (settle_job response) jobs s).
Proof.
  revert s. induction jobs as [|job jobs IH]; intros s Hs; simpl; [done|].
  apply IH. by apply frame_settle_job.
Qed.

Lemma frame_start_pending s : P s → P (start_pending s).
Proof. apply (P_same s), same_threads_start_pending. Qed.

Lemma frame_updateThreads stoppedDetails s : P s → P (updateThreads stoppedDetails s).
Proof. apply (P_same s), same_threads_updateThreads. Qed.

Lemma frame_threads_response response s : P s → P (threads_response response s).
Proof.
  intros Hs. unfold threads_response.
  destruct (PromiseChain.waiting _) as [|job jobs]; [done|].
  destruct (DebugSessionConnection.awaiting _); [done|].
  apply frame_start_pending, frame_settle_job. revert Hs. apply P_same. by repeat split.
Qed.

Lemma frame_updateBreakpoints uri sourceModified s :
  P s → P (snd (updateBreakpoints adapter uri sourceModified s)).
Proof.
  apply (updateBreakpoints_frame adapter P); intros;
    (eapply P_same; [|eassumption]); by repeat split.
Qed.

Lemma frame_configure s : P s → P (snd (configure adapter s)).
Proof.
  intros Hs. rewrite configure_cases.
  pose proof (frame_updateBreakpoints None false s Hs) as H1.
  destruct (updateBreakpoints adapter None false s) as [[[]|e] s1]; simpl in *; [|done].
  assert (∀ s2, P s2 → P (updateThreads None (DebugSession.with_initialized true s2))) as Hend.
  { intros s2 H2. apply frame_updateThreads. revert H2. apply P_same. by repeat split. }
  destruct (truthy _); [|by apply Hend].
  assert (P (snd (sendRequest adapter Request.configurationDone s1))) as H2.
  { unfold sendRequest. destruct (DebugSessionConnection.disposed _); [done|].
    simpl. revert H1. apply P_same. by repeat split. }
  destruct (sendRequest adapter Request.configurationDone s1) as [[b|e] s2]; simpl in *;
    [by apply Hend | done].
Qed.

Lemma frame_on_event e s : P s → P (snd (on_event adapter e s)).
Proof.
  intros Hs. destruct e as [|atc tid|body|reason tid|caps]; simpl.
  - by apply frame_configure.
  - case_bool_decide; simpl; auto.
  - by apply frame_updateThreads.
  - destruct (String.eqb reason "started"); simpl.
    { revert Hs. apply P_same. by repeat split. }
    destruct (String.eqb reason "exited"); simpl; auto.
  - revert Hs. apply P_same. by repeat split.
Qed.

Lemma same_threads_clearBreakpoints s : same_threads s (clearBreakpoints s).
Proof.
  unfold clearBreakpoints.
  assert (same_threads s (DebugSession.with__breakpoints JsMap.empty s)) as H0
    by (by repeat split).
  revert H0. generalize (DebugSession.with__breakpoints JsMap.empty s).
  induction (JsMap.keys (DebugSession._breakpoints s)) as [|u us IH]; intros s1 H1;
    simpl; [done|].
  apply IH. eapply same_threads_trans; [exact H1|]. by repeat split.
Qed.

Lemma frame_dispose s : P s → P (dispose s).
Proof.
  intros Hs. unfold dispose. destruct (DebugSessionConnection.disposed _); [done|].
  apply P_doUpdateThreads. revert Hs. apply P_same.
  eapply same_threads_trans; [|apply same_threads_clearBreakpoints]. by repeat split.
Qed.

Lemma frame_step s i : P s → P (step adapter s i).
Proof.
  intros Hs. destruct i as [e|response| |uri store|]; simpl.
  - destruct (DebugSessionConnection.disposed _); [done|]. by apply frame_on_event.
  - by apply frame_threads_response.
  - unfold debounce_elapsed. destruct (DebugSession.scheduled s); [|done].
    apply frame_updateThreads. revert Hs. apply P_same. by repeat split.
  - destruct (DebugSessionConnection.disposed _); [done|].
    apply frame_updateBreakpoints. revert Hs. apply P_same. by repeat split.
  - by apply frame_dispose.
Qed.

Lemma frame_run inputs s : P s → P (run adapter s inputs).
Proof.
  revert s. induction inputs as [|i inputs IH]; intros s Hs; simpl; [done|].
  apply IH. by apply frame_step.
Qed.

End ThreadFrame.

Lemma threads_wf_same s s' : same_threads s s' → threads_wf s → threads_wf s'.
Proof. intros (Ht & Ho & _) Hwf. unfold threads_wf. rewrite Ht, Ho. exact Hwf. Qed.

Lemma threads_wf_updateCurrentThread stoppedDetails s :
  threads_wf s → threads_wf (updateCurrentThread stoppedDetails s).
Proof. intros Hwf id r Hg. exact (Hwf id r Hg). Qed.

Lemma threads_wf_clear_object s r : threads_wf s → threads_wf (clear_object s r).
Proof.
  intros Hwf id r' Hg. simpl in *. destruct (Hwf id r' Hg) as (th & Hth & Hid).
  destruct (decide (r = r')) as [->|Hne].
  - exists (DebugThread.clear th). split; [|done].
    rewrite list_lookup_alter_eq. by rewrite Hth.
  - exists th. split; [|done]. by rewrite list_lookup_alter_ne.
Qed.

Lemma threads_wf_clear_objects l s :
  threads_wf s → threads_wf (fold_left clear_object l s).
Proof.
  revert s. induction l as [|r l IH]; intros s Hs; simpl; [done|].
  by apply IH, threads_wf_clear_object.
Qed.

Lemma threads_wf_clearThreads s : threads_wf s → threads_wf (clearThreads s).
Proof. intros Hs. by apply threads_wf_updateCurrentThread, threads_wf_clear_objects. Qed.

Lemma threads_wf_clearThread threadId s : threads_wf s → threads_wf (clearThread threadId s).
Proof.
  intros Hs. apply threads_wf_updateCurrentThread.
  destruct (JsMap.get _ _); [by apply threads_wf_clear_object | done].
Qed.

Lemma keys_set_cases {V : Type} (k : Z) (v : V) (m : JsMap.t Z V) :
  JsMap.keys (JsMap.set k v m)
  = if decide (k ∈ JsMap.keys m) then JsMap.keys m else JsMap.keys m ++ [k].
Proof.
  destruct (JsMap.get k m) as [v0|] eqn:Hg.
  - rewrite (keys_set_has _ _ _ _ Hg). rewrite decide_True; [done|].
    apply list_elem_of_In. apply get_Some_In in Hg.
    change k with (fst (k, v0)). by apply in_map.
  - rewrite (keys_set_new _ _ _ Hg). rewrite decide_False; [done|].
    rewrite list_elem_of_In. by apply get_None_keys.
Qed.

Lemma threads_doUpdateThreads_step existing stoppedDetails s raw :
  ∃ r, DebugSession._threads (doUpdateThreads_step existing stoppedDetails s raw)
       = JsMap.set (DebugProtocol.id raw) r (DebugSession._threads s).
Proof. unfold doUpdateThreads_step. destruct (JsMap.get _ existing); by eexists. Qed.

Lemma keys_doUpdateThreads_fold existing stoppedDetails threads s :
  JsMap.keys (DebugSession._threads
                (fold_left (doUpdateThreads_step existing stoppedDetails) threads s))
  = fold_left (λ seen x, if decide (x ∈ seen) then seen else seen ++ [x])
      (map DebugProtocol.id threads) (JsMap.keys (DebugSession._threads s)).
Proof.
  revert s. induction threads as [|raw threads IH]; intros s; simpl; [done|].
  rewrite IH. f_equal.
  destruct (threads_doUpdateThreads_step existing stoppedDetails s raw) as [r ->].
  apply keys_set_cases.
Qed.

Lemma NoDup_keys_doUpdateThreads_fold existing stoppedDetails threads s :
  NoDup (JsMap.keys (DebugSession._threads s)) →
  NoDup (JsMap.keys (DebugSession._threads
                       (fold_left (doUpdateThreads_step existing stoppedDetails) threads s))).
Proof.
  revert s. induction threads as [|raw threads IH]; intros s Hs; simpl; [done|].
  apply IH. destruct (threads_doUpdateThreads_step existing stoppedDetails s raw) as [r ->].
  by apply NoDup_keys_set.
Qed.

(** The loop of [doUpdateThreads]: what holds of the new map and of the
    store after every turn. [n0] is the size of the store before the loop. *)
Lemma doUpdateThreads_fold_spec n0 existing stoppedDetails threads s :
  (∀ id r, JsMap.get id existing = Some r →
     (r < n0)%nat ∧
     ∃ th, DebugSession.threadObjects s !! r = Some th ∧
           DebugProtocol.id (DebugThread.raw th) = id) →
  (∀ id r, JsMap.get id (DebugSession._threads s) = Some r →
     ∃ th, DebugSession.threadObjects s !! r = Some th ∧
           DebugProtocol.id (DebugThread.raw th) = id ∧
           DebugThread.stoppedDetails th = details_for stoppedDetails id) →
  (∀ id r, JsMap.get id (DebugSession._threads s) = Some r →
     match JsMap.get id existing with
     | Some r0 => r = r0
     | None => (n0 ≤ r)%nat
     end) →
  (n0 ≤ length (DebugSession.threadObjects s))%nat →
  let s' := fold_left (doUpdateThreads_step existing stoppedDetails) threads s in
  (∀ id r, JsMap.get id (DebugSession._threads s') = Some r →
     ∃ th, DebugSession.threadObjects s' !! r = Some th ∧
           DebugProtocol.id (DebugThread.raw th) = id ∧
           DebugThread.stoppedDetails th = details_for stoppedDetails id) ∧
  (∀ id r, JsMap.get id (DebugSession._threads s') = Some r →
     match JsMap.get id existing with
     | Some r0 => r = r0
     | None => (n0 ≤ r)%nat
     end).
Proof.
  revert s. induction threads as [|raw threads IH]; intros s HE HM HP HL; simpl; [done|].
  apply IH; clear IH; unfold doUpdateThreads_step;
    destruct (JsMap.get (DebugProtocol.id raw) existing) as [r|] eqn:Hex; simpl.
  - destruct (HE _ _ Hex) as (Hr & th & Hth & Hid).
    intros id2 r2 H2. destruct (HE _ _ H2) as (Hr2 & th2 & Hth2 & Hid2). split; [done|].
    destruct (decide (r = r2)) as [<-|Hne].
    + eexists. split; [apply list_lookup_insert_eq; by eapply lookup_lt_Some|].
      simpl. congruence.
    + exists th2. by rewrite list_lookup_insert_ne.
  - intros id2 r2 H2. destruct (HE _ _ H2) as (Hr2 & th2 & Hth2 & Hid2). split; [done|].
    exists th2. split; [|done]. by apply lookup_app_l_Some.
  - destruct (HE _ _ Hex) as (Hr & th & Hth & Hid).
    intros id2 r2 H2. destruct (decide (DebugProtocol.id raw = id2)) as [<-|Hne].
    + rewrite get_set_eq in H2. injection H2 as <-.
      eexists. split; [apply list_lookup_insert_eq; by eapply lookup_lt_Some|]. done.
    + rewrite get_set_ne in H2 by done.
      destruct (HM _ _ H2) as (th2 & Hth2 & Hid2 & Hsd2). exists th2. split; [|done].
      rewrite list_lookup_insert_ne; [done|]. intros <-.
      specialize (HP _ _ H2). destruct (JsMap.get id2 existing) as [r0|] eqn:Hex2.
      * subst r0. destruct (HE _ _ Hex2) as (_ & th3 & Hth3 & Hid3). congruence.
      * lia.
  - intros id2 r2 H2. destruct (decide (DebugProtocol.id raw = id2)) as [<-|Hne].
    + rewrite get_set_eq in H2. injection H2 as <-.
      eexists. split; [rewrite lookup_app_r by done; rewrite Nat.sub_diag; reflexivity|].
      done.
    + rewrite get_set_ne in H2 by done.
      destruct (HM _ _ H2) as (th2 & Hth2 & Hid2 & Hsd2). exists th2. split; [|done].
      by apply lookup_app_l_Some.
  - intros id2 r2 H2. destruct (decide (DebugProtocol.id raw = id2)) as [<-|Hne].
    + rewrite get_set_eq in H2. injection H2 as <-. by rewrite Hex.
    + rewrite get_set_ne in H2 by done. by apply HP.
  - intros id2 r2 H2. destruct (decide (DebugProtocol.id raw = id2)) as [<-|Hne].
    + rewrite get_set_eq in H2. injection H2 as <-. by rewrite Hex.
    + rewrite get_set_ne in H2 by done. by apply HP.
  - by rewrite length_insert.
  - rewrite length_app. lia.
Qed.

Lemma doUpdateThreads_spec threads stoppedDetails s :
  threads_wf s →
  let s' := doUpdateThreads threads stoppedDetails s in
  (∀ id r, JsMap.get id (DebugSession._threads s') = Some r →
     ∃ th, DebugSession.threadObjects s' !! r = Some th ∧
           DebugProtocol.id (DebugThread.raw th) = id ∧
           DebugThread.stoppedDetails th = details_for stoppedDetails id) ∧
  (∀ id r, JsMap.get id (DebugSession._threads s') = Some r →
     match JsMap.get id (DebugSession._threads s) with
     | Some r0 => r = r0
     | None => (length (DebugSession.threadObjects s) ≤ r)%nat
     end).
Proof.
  intros Hwf. unfold doUpdateThreads.
  apply (doUpdateThreads_fold_spec (length (DebugSession.threadObjects s))); simpl;
    try done.
  intros id r Hg. destruct (Hwf id r Hg) as (th & Hth & Hid).
  split; [by eapply lookup_lt_Some | by exists th].
Qed.

Lemma threads_wf_doUpdateThreads threads stoppedDetails s :
  threads_wf s → threads_wf (doUpdateThreads threads stoppedDetails s).
Proof.
  intros Hwf id r Hg.
  destruct (doUpdateThreads_spec threads stoppedDetails s Hwf) as [HM _].
  destruct (HM id r Hg) as (th & Hth & Hid & _). by exists th.
Qed.

Lemma threads_wf_new id configuration breakpoints :
  threads_wf (DebugSession.new id configuration breakpoints).
Proof. intros i r Hg. done. Qed.

Lemma threads_wf_run adapter inputs s : threads_wf s → threads_wf (run adapter s inputs).
Proof.
  apply (frame_run adapter threads_wf).
  - apply threads_wf_same.
  - intros. by apply threads_wf_doUpdateThreads.
  - apply threads_wf_clearThreads.
  - intros. by apply threads_wf_clearThread.
  - intros s1 _ i r Hg. done.
Qed.

Lemma NoDup_keys_run adapter inputs s :
  NoDup (JsMap.keys (DebugSession._threads s)) →
  NoDup (JsMap.keys (DebugSession._threads (run adapter s inputs))).
Proof.
  apply (frame_run adapter (λ s, NoDup (JsMap.keys (DebugSession._threads s)))).
  - intros s1 s2 (Ht & _). by rewrite Ht.
  - intros threads sd s1 _. unfold doUpdateThreads. simpl.
    apply NoDup_keys_doUpdateThreads_fold. simpl. apply NoDup_nil_2.
  - intros s1. unfold clearThreads. simpl. by rewrite threads_clear_objects.
  - intros tid s1. unfold clearThread. simpl. by destruct (JsMap.get _ _).
  - intros s1 _. apply NoDup_nil_2.
Qed.

Lemma thread_ids_keys s :
  threads_wf s → NoDup (JsMap.keys (DebugSession._threads s)) →
  map (thread_id s) (get_threads s) = map Some (JsMap.keys (DebugSession._threads s)).
Proof.
  intros Hwf Hnd. unfold get_threads, JsMap.values, JsMap.keys. rewrite !map_map.
  apply map_ext_in. intros [id r] Hin.
  apply In_get in Hin; [|done]. destruct (Hwf id r Hin) as (th & Hth & Hid).
  unfold thread_id. simpl. rewrite Hth. simpl. by rewrite Hid.
Qed.

Lemma NoDup_map_Some_inv {A B} (f : A → option B) (l : list A) (ks : list B) :
  map f l = map Some ks → NoDup ks → NoDup l.
Proof.
  revert ks. induction l as [|x l IH]; intros [|k ks] Heq Hnd; simpl in *;
    try done; [apply NoDup_nil_2|].
  injection Heq as Hx Hl. apply NoDup_cons in Hnd as [Hk Hnd].
  apply NoDup_cons. split; [|by eapply IH].
  intros Hin. apply Hk. apply list_elem_of_In. apply list_elem_of_In in Hin.
  apply (in_map f) in Hin. rewrite Hl, Hx in Hin.
  apply in_map_iff in Hin as (k' & [= <-] & Hin). done.
Qed.

(** X12. In every state that a session reaches from its creation, the
    threads that [threads] lists are distinct objects with pairwise distinct
    ids: the id of each one is the key under which the map holds it. *)
Theorem threads_listed_with_distinct_ids
    (adapter : list Request.t → Result ResponseBody)
    (id : string) (configuration : DebugConfiguration.t)
    (breakpoints : BreakpointManager.t) (inputs : list Input) :
  let s := run adapter (DebugSession.new id configuration breakpoints) inputs in
  map (thread_id s) (get_threads s) = map Some (JsMap.keys (DebugSession._threads s)) ∧
  NoDup (JsMap.keys (DebugSession._threads s)) ∧
  NoDup (get_threads s).
Proof.
  intros s.
  assert (threads_wf s) as Hwf by apply threads_wf_run, threads_wf_new.
  assert (NoDup (JsMap.keys (DebugSession._threads s))) as Hnd
    by (apply NoDup_keys_run; apply NoDup_nil_2).
  pose proof (thread_ids_keys s Hwf Hnd) as Hids.
  split_and!; [done | done |]. by eapply NoDup_map_Some_inv.
Qed.

(** X13. A refresh builds the thread map anew from the reported list, in
    the order in which the ids first occur in it; a thread whose id the
    previous map knew keeps its object, and a thread with an unknown id
    gets an object that the store did not have before. *)
Theorem doUpdateThreads_reuses_objects
    (threads : list DebugProtocol.Thread) (stoppedDetails : option StoppedDetails)
    (s : DebugSession.t) :
  let s' := doUpdateThreads threads stoppedDetails s in
  JsMap.keys (DebugSession._threads s') = first_occurrences (map DebugProtocol.id threads) ∧
  ∀ id r, JsMap.get id (DebugSession._threads s') = Some r →
    match JsMap.get id (DebugSession._threads s) with
    | Some r0 => r = r0
    | None => (length (DebugSession.threadObjects s) ≤ r)%nat
    end.
Proof.
  intros s'. split.
  - unfold s', doUpdateThreads. simpl. by rewrite keys_doUpdateThreads_fold.
  - unfold s', doUpdateThreads. simpl.
    set (existing := DebugSession._threads s).
    set (n0 := length (DebugSession.threadObjects s)).
    assert (∀ s1,
      (∀ id r, JsMap.get id (DebugSession._threads s1) = Some r →
         match JsMap.get id existing with Some r0 => r = r0 | None => (n0 ≤ r)%nat end) →
      (n0 ≤ length (DebugSession.threadObjects s1))%nat →
      ∀ id r,
        JsMap.get id (DebugSession._threads
          (fold_left (doUpdateThreads_step existing stoppedDetails) threads s1)) = Some r →
        match JsMap.get id existing with Some r0 => r = r0 | None => (n0 ≤ r)%nat end)
      as Hfold.
    { induction threads as [|raw threads IH]; intros s1 HP HL; simpl; [done|].
      apply IH; unfold doUpdateThreads_step;
        destruct (JsMap.get (DebugProtocol.id raw) existing) as [r0|] eqn:Hex; simpl.
      - intros id2 r2 H2. destruct (decide (DebugProtocol.id raw = id2)) as [<-|Hne].
        + rewrite get_set_eq in H2. injection H2 as <-. by rewrite Hex.
        + rewrite get_set_ne in H2 by done. by apply HP.
      - intros id2 r2 H2. destruct (decide (DebugProtocol.id raw = id2)) as [<-|Hne].
        + rewrite get_set_eq in H2. injection H2 as <-. by rewrite Hex.
        + rewrite get_set_ne in H2 by done. by apply HP.
      - by rewrite length_insert.
      - rewrite length_app. lia. }
    apply Hfold; simpl; done.
Qed.

Lemma thread_stopped_updateCurrentThread stoppedDetails s r :
  thread_stopped (updateCurrentThread stoppedDetails s) r = thread_stopped s r.
Proof. done. Qed.

Lemma filter_values_by_key (m : JsMap.t Z nat) (p : nat → bool) (target : option Z) :
  NoDup (JsMap.keys m) →
  (∀ id r, In (id, r) m → p r = bool_decide (target = Some id)) →
  List.filter p (JsMap.values m) = option_list (target ≫= λ i, JsMap.get i m).
Proof.
  induction m as [|[k v] m IH]; intros Hnd Hp.
  - by destruct target.
  - change (JsMap.keys ((k, v) :: m)) with (k :: JsMap.keys m) in Hnd.
    apply NoDup_cons in Hnd as [Hk Hnd].
    specialize (IH Hnd (λ id r Hin, Hp id r (or_intror Hin))).
    change (JsMap.values ((k, v) :: m)) with (v :: JsMap.values m).
    cbn [List.filter]. rewrite (Hp k v) by (by left). rewrite IH.
    case_bool_decide as Ht.
    + subst target. cbn [mbind option_bind JsMap.get]. rewrite decide_True by done.
      replace (JsMap.get k m) with (@None nat); [done|].
      symmetry. apply get_None_keys. by rewrite <- list_elem_of_In.
    + destruct target as [i|]; [|done]. cbn [mbind option_bind JsMap.get].
      rewrite decide_False; [done|]. congruence.
Qed.

Lemma reachable_threads adapter id configuration breakpoints inputs :
  let s := run adapter (DebugSession.new id configuration breakpoints) inputs in
  threads_wf s ∧ NoDup (JsMap.keys (DebugSession._threads s)).
Proof.
  intros s. split.
  - apply threads_wf_run, threads_wf_new.
  - apply NoDup_keys_run. apply NoDup_nil_2.
Qed.

Lemma NoDup_keys_doUpdateThreads threads stoppedDetails s :
  NoDup (JsMap.keys (DebugSession._threads (doUpdateThreads threads stoppedDetails s))).
Proof.
  unfold doUpdateThreads. simpl. apply NoDup_keys_doUpdateThreads_fold. apply NoDup_nil_2.
Qed.

Lemma stopped_details_for stoppedDetails id :
  match details_for stoppedDetails id with Some _ => true | None => false end
  = bool_decide (stoppedDetails ≫= threadId = Some id).
Proof.
  destruct stoppedDetails as [d|]; simpl; [|done].
  by destruct (bool_decide (threadId d = Some id)).
Qed.

(** X14. After a refresh of a reachable session, the stopped threads are
    exactly the thread that the stop details name, if the refresh reported
    it: a refresh without stop details, or with stop details for another
    thread, leaves no other thread stopped. *)
Theorem refresh_stops_only_named_thread
    (adapter : list Request.t → Result ResponseBody)
    (id : string) (configuration : DebugConfiguration.t)
    (breakpoints : BreakpointManager.t) (inputs : list Input)
    (threads : list DebugProtocol.Thread) (stoppedDetails : option StoppedDetails) :
  let s := run adapter (DebugSession.new id configuration breakpoints) inputs in
  let s' := doUpdateThreads threads stoppedDetails s in
  stoppedThreads s'
  = option_list ((stoppedDetails ≫= threadId)
                   ≫= λ i, JsMap.get i (DebugSession._threads s')).
Proof.
  intros s s'.
  destruct (reachable_threads adapter id configuration breakpoints inputs) as (Hwf & _).
  fold s in Hwf.
  destruct (doUpdateThreads_spec threads stoppedDetails s Hwf) as [HM _]. fold s' in HM.
  unfold stoppedThreads, get_threads.
  rewrite (filter_values_by_key _ _ (stoppedDetails ≫= threadId)).
  - by destruct stoppedDetails as [d|]; simpl; [destruct (threadId d)|].
  - apply NoDup_keys_doUpdateThreads.
  - intros i r Hin. apply In_get in Hin; [|apply NoDup_keys_doUpdateThreads].
    destruct (HM i r Hin) as (th & Hth & _ & Hsd).
    unfold thread_stopped, DebugThread.stopped. rewrite Hth, Hsd.
    apply stopped_details_for.
Qed.

Lemma thread_stopped_clear_object s r r' :
  thread_stopped (clear_object s r) r'
  = if decide (r = r') then false else thread_stopped s r'.
Proof.
  unfold thread_stopped, clear_object. simpl. destruct (decide (r = r')) as [<-|Hne].
  - rewrite list_lookup_alter_eq. by destruct (DebugSession.threadObjects s !! r).
  - by rewrite list_lookup_alter_ne.
Qed.

Lemma thread_stopped_clear_objects l s r :
  thread_stopped (fold_left clear_object l s) r
  = if decide (r ∈ l) then false else thread_stopped s r.
Proof.
  revert s. induction l as [|x l IH]; intros s; cbn [fold_left].
  - destruct (decide (r ∈ [])) as [Hin|]; [by apply elem_of_nil in Hin | done].
  - rewrite IH, thread_stopped_clear_object.
    destruct (decide (r ∈ l)) as [Hl|Hl], (decide (x = r)) as [Hx|Hx],
      (decide (r ∈ x :: l)) as [Hxl|Hxl]; try done.
    + exfalso. apply Hxl. by right.
    + exfalso. apply Hxl. by right.
    + exfalso. apply Hxl. subst x. by left.
    + exfalso. apply elem_of_cons in Hxl as [?|?]; done.
Qed.

Lemma initialized_clear_objects l s :
  DebugSession.initialized (fold_left clear_object l s) = DebugSession.initialized s.
Proof. revert s. induction l as [|r l IH]; intros s; simpl; [done|]. by rewrite IH. Qed.

Lemma state_not_stopped s :
  current_ok s → (∀ r, In r (get_threads s) → thread_stopped s r = false) →
  state s ≠ Stopped.
Proof.
  intros Hc Hall. unfold state.
  destruct (DebugSessionConnection.disposed _); [done|].
  destruct (DebugSession.initialized s); simpl; [|done].
  unfold current_ok in Hc. destruct (DebugSession._currentThread s) as [r|].
  - by rewrite (Hall r Hc).
  - unfold stoppedThreads. by rewrite Hc.
Qed.

Lemma state_after_resume s s' :
  DebugSessionConnection.disposed (DebugSession.connection s')
  = DebugSessionConnection.disposed (DebugSession.connection s) →
  DebugSession.initialized s' = DebugSession.initialized s →
  state s' ≠ Stopped →
  state s' = match state s with Stopped => Running | st => st end.
Proof.
  unfold state. intros -> ->.
  destruct (DebugSessionConnection.disposed _); [done|].
  destruct (DebugSession.initialized s); simpl; [|done].
  destruct (DebugSession._currentThread s') as [r'|],
    (DebugSession._currentThread s) as [r|];
    repeat match goal with
    | |- context [thread_stopped ?a ?b] => destruct (thread_stopped a b)
    | |- context [stoppedThreads ?a] => destruct (stoppedThreads a)
    end; done.
Qed.

(** X15. A [continued] event that does not set [allThreadsContinued] to
    false resumes every thread: no thread of the session is stopped
    afterwards, the thread map is as before, and a session that was stopped
    is running. *)
Theorem continued_resumes_all_threads
    (adapter : list Request.t → Result ResponseBody)
    (allThreadsContinued : option bool) (threadId : Z) (s : DebugSession.t) :
  allThreadsContinued ≠ Some false →
  let s' := snd (on_event adapter (DebugEvent.continued allThreadsContinued threadId) s) in
  stoppedThreads s' = [] ∧
  DebugSession._threads s' = DebugSession._threads s ∧
  state s' = match state s with Stopped => Running | st => st end.
Proof.
  intros Hne s'. unfold s'. simpl. rewrite bool_decide_true by done. simpl.
  assert (∀ r, In r (get_threads (clearThreads s)) → thread_stopped (clearThreads s) r = false)
    as Hall.
  { intros r Hr. unfold clearThreads in *.
    rewrite thread_stopped_updateCurrentThread, thread_stopped_clear_objects.
    unfold get_threads in Hr. simpl in Hr. rewrite threads_clear_objects in Hr.
    rewrite decide_True; [done | by apply list_elem_of_In]. }
  split_and!.
  - unfold stoppedThreads. induction (get_threads (clearThreads s)) as [|r l IH]; [done|].
    simpl. rewrite (Hall r) by (by left). apply IH. intros r' Hr'. apply Hall. by right.
  - unfold clearThreads. simpl. apply threads_clear_objects.
  - apply state_after_resume.
    + by destruct (same_chain_clearThreads s) as (_ & _ & ->).
    + unfold clearThreads. simpl. by rewrite initialized_clear_objects.
    + apply state_not_stopped; [apply current_ok_updateCurrentThread | done].
Qed.

Lemma continued_resumes_all_threads_witness :
  let s := run Samples.obliging_adapter
             (DebugSession.new "s1" (Samples.node_launch "X") Samples.store_a)
             Samples.worker_stops in
  let s' := snd (on_event Samples.obliging_adapter (DebugEvent.continued None 7) s) in
  (None : option bool) ≠ Some false ∧
  stoppedThreads s = [1%nat] ∧
  (stoppedThreads s' = [] ∧
   DebugSession._threads s' = DebugSession._threads s ∧
   state s' = match state s with Stopped => Running | st => st end).
Proof.
  intros s s'.
  assert ((None : option bool) ≠ Some false) as Hne by discriminate.
  assert (stoppedThreads s = [1%nat]) as Hst by (vm_compute; reflexivity).
  exact (conj Hne (conj Hst
    (continued_resumes_all_threads Samples.obliging_adapter None 7 s Hne))).
Defined.

Lemma threads_wf_injective s i1 i2 r :
  threads_wf s →
  JsMap.get i1 (DebugSession._threads s) = Some r →
  JsMap.get i2 (DebugSession._threads s) = Some r → i1 = i2.
Proof.
  intros Hwf H1 H2. destruct (Hwf _ _ H1) as (th1 & Hth1 & <-).
  destruct (Hwf _ _ H2) as (th2 & Hth2 & <-). congruence.
Qed.

(** X16. A [continued] event for one thread only, and a [thread] event
    with reason [exited], resume the thread they name and nothing else: the
    thread map keeps all its threads, the exited one too, and every other
    thread is stopped afterwards exactly if it was before. *)
Theorem clearThread_resumes_only_named
    (adapter : list Request.t → Result ResponseBody)
    (id : string) (configuration : DebugConfiguration.t)
    (breakpoints : BreakpointManager.t) (inputs : list Input)
    (e : DebugEvent.t) (threadId : Z) :
  let s := run adapter (DebugSession.new id configuration breakpoints) inputs in
  e = DebugEvent.continued (Some false) threadId ∨ e = DebugEvent.thread "exited" threadId →
  let s' := snd (on_event adapter e s) in
  DebugSession._threads s' = DebugSession._threads s ∧
  ∀ i r, JsMap.get i (DebugSession._threads s) = Some r →
    thread_stopped s' r = if decide (i = threadId) then false else thread_stopped s r.
Proof.
  intros s He s'.
  destruct (reachable_threads adapter id configuration breakpoints inputs) as (Hwf & _).
  fold s in Hwf.
  assert (s' = clearThread threadId s) as -> by (by destruct He as [-> | ->]).
  unfold clearThread. split.
  - simpl. by destruct (JsMap.get threadId _).
  - intros i r Hg. rewrite thread_stopped_updateCurrentThread.
    destruct (JsMap.get threadId (DebugSession._threads s)) as [r0|] eqn:Hg0.
    + rewrite thread_stopped_clear_object.
      destruct (decide (i = threadId)) as [->|Hne].
      * rewrite decide_True; [done | congruence].
      * rewrite decide_False; [done|]. intros <-. apply Hne.
        by apply (threads_wf_injective s i threadId r0).
    + rewrite decide_False; [done | congruence].
Qed.

Lemma clearThread_resumes_only_named_witness :
  let s := run Samples.obliging_adapter
             (DebugSession.new "s1" (Samples.node_launch "X") Samples.store_a)
             Samples.worker_stops in
  let e := DebugEvent.thread "exited" 7 in
  let s' := snd (on_event Samples.obliging_adapter e s) in
  (e = DebugEvent.continued (Some false) 7 ∨ e = DebugEvent.thread "exited" 7) ∧
  JsMap.keys (DebugSession._threads s) = [1; 7] ∧
  (DebugSession._threads s' = DebugSession._threads s ∧
   ∀ i r, JsMap.get i (DebugSession._threads s) = Some r →
     thread_stopped s' r = if decide (i = 7) then false else thread_stopped s r).
Proof.
  intros s e s'.
  assert (e = DebugEvent.continued (Some false) 7 ∨ e = DebugEvent.thread "exited" 7)
    as He by (by right).
  assert (JsMap.keys (DebugSession._threads s) = [1; 7]) as Hk by (vm_compute; reflexivity).
  exact (conj He (conj Hk
    (clearThread_resumes_only_named Samples.obliging_adapter "s1" (Samples.node_launch "X")
       Samples.store_a Samples.worker_stops e 7 He))).
Defined.

Lemma elem_of_first_occurrences_fold (l seen : list Z) (x : Z) :
  x ∈ fold_left (λ seen x, if decide (x ∈ seen) then seen else seen ++ [x]) l seen
  ↔ x ∈ seen ∨ x ∈ l.
Proof.
  revert seen. induction l as [|y l IH]; intros seen; cbn [fold_left].
  - rewrite elem_of_nil. tauto.
  - rewrite IH, elem_of_cons. destruct (decide (y ∈ seen)) as [Hy|Hy].
    + split; [tauto|]. intros [?|[->|?]]; tauto.
    + rewrite elem_of_app, list_elem_of_singleton. tauto.
Qed.

Lemma In_keys_doUpdateThreads threads stoppedDetails s i :
  In i (JsMap.keys (DebugSession._threads (doUpdateThreads threads stoppedDetails s)))
  ↔ In i (map DebugProtocol.id threads).
Proof.
  unfold doUpdateThreads. simpl. rewrite keys_doUpdateThreads_fold. simpl.
  rewrite <- !list_elem_of_In, elem_of_first_occurrences_fold, elem_of_nil. tauto.
Qed.

Lemma get_doUpdateThreads threads stoppedDetails s i :
  In i (map DebugProtocol.id threads) →
  ∃ r, JsMap.get i (DebugSession._threads (doUpdateThreads threads stoppedDetails s)) = Some r.
Proof.
  intros Hin. apply (In_keys_doUpdateThreads threads stoppedDetails s) in Hin.
  destruct (JsMap.get i _) as [r|] eqn:Hg; [by exists r|].
  by apply get_None_keys in Hg.
Qed.

Lemma updateCurrentThread_cases stoppedDetails s :
  DebugSession._currentThread (updateCurrentThread stoppedDetails s)
  = match (if moves_focus stoppedDetails then stoppedDetails ≫= threadId
           else DebugSession._currentThread s ≫= thread_id s)
          ≫= (λ i, JsMap.get i (DebugSession._threads s)) with
    | Some r => Some r
    | None => head (get_threads s)
    end.
Proof.
  unfold updateCurrentThread, moves_focus, thread_id. simpl.
  destruct stoppedDetails as [d|]; simpl.
  - destruct (negb (preserveFocusHint d) && _); simpl.
    + reflexivity.
    + by destruct (DebugSession._currentThread s) as [r|].
  - by destruct (DebugSession._currentThread s) as [r|].
Qed.

Lemma currentThread_doUpdateThreads_fold existing stoppedDetails threads s :
  DebugSession._currentThread
    (fold_left (doUpdateThreads_step existing stoppedDetails) threads s)
  = DebugSession._currentThread s.
Proof.
  revert s. induction threads as [|raw threads IH]; intros s; simpl; [done|].
  rewrite IH. unfold doUpdateThreads_step. by destruct (JsMap.get _ existing).
Qed.

(** X17. A refresh after a stop that names a thread with a non-zero id and
    does not ask to preserve the focus makes that thread the current one,
    if the adapter reports it; the thread is stopped, and so is the state of
    an initialized session with an open connection. *)
Theorem stop_moves_focus_to_stopped_thread
    (adapter : list Request.t → Result ResponseBody)
    (id : string) (configuration : DebugConfiguration.t)
    (breakpoints : BreakpointManager.t) (inputs : list Input)
    (threads : list DebugProtocol.Thread) (d : StoppedDetails) (i : Z) :
  let s := run adapter (DebugSession.new id configuration breakpoints) inputs in
  preserveFocusHint d = false → threadId d = Some i → i ≠ 0 →
  In i (map DebugProtocol.id threads) →
  let s' := doUpdateThreads threads (Some d) s in
  ∃ r, JsMap.get i (DebugSession._threads s') = Some r ∧
       DebugSession._currentThread s' = Some r ∧
       thread_stopped s' r = true ∧
       (DebugSessionConnection.disposed (DebugSession.connection s) = false →
        DebugSession.initialized s = true → state s' = Stopped).
Proof.
  intros s Hp Hi H0 Hin s'.
  destruct (reachable_threads adapter id configuration breakpoints inputs) as (Hwf & _).
  fold s in Hwf.
  destruct (get_doUpdateThreads threads (Some d) s i Hin) as [r Hg]. fold s' in Hg.
  destruct (doUpdateThreads_spec threads (Some d) s Hwf) as [HM _]. fold s' in HM.
  destruct (HM i r Hg) as (th & Hth & _ & Hsd).
  assert (DebugSession._currentThread s' = Some r) as Hcur.
  { unfold s', doUpdateThreads. rewrite updateCurrentThread_cases.
    unfold moves_focus. rewrite Hp, Hi. simpl.
    replace (i =? 0) with false by (symmetry; by apply Z.eqb_neq). simpl.
    unfold s', doUpdateThreads in Hg. simpl in Hg. rewrite Hi. simpl. by rewrite Hg. }
  assert (thread_stopped s' r = true) as Hst.
  { unfold thread_stopped, DebugThread.stopped. rewrite Hth, Hsd. simpl.
    by rewrite Hi, bool_decide_true. }
  exists r. split_and!; try done.
  intros Hd Hini.
  destruct (same_chain_doUpdateThreads threads (Some d) s) as (_ & _ & Hd').
  fold s' in Hd'. rewrite Hd in Hd'.
  pose proof (initialized_doUpdateThreads threads (Some d) s) as Hini'.
  fold s' in Hini'. rewrite Hini in Hini'.
  clearbody s'. unfold state. by rewrite Hd', Hini', Hcur, Hst.
Qed.

Lemma stop_moves_focus_to_stopped_thread_witness :
  let s := run Samples.obliging_adapter
             (DebugSession.new "s1" (Samples.node_launch "X") Samples.store_a)
             Samples.worker_stops in
  let d := {| reason := "step"; threadId := Some 7; preserveFocusHint := false |} in
  let s' := doUpdateThreads Samples.threads_1_7 (Some d) s in
  preserveFocusHint d = false ∧ threadId d = Some 7 ∧ 7 ≠ 0 ∧
  In 7 (map DebugProtocol.id Samples.threads_1_7) ∧
  DebugSession._currentThread s = Some 0%nat ∧
  ∃ r, JsMap.get 7 (DebugSession._threads s') = Some r ∧
       DebugSession._currentThread s' = Some r ∧
       thread_stopped s' r = true ∧
       (DebugSessionConnection.disposed (DebugSession.connection s) = false →
        DebugSession.initialized s = true → state s' = Stopped).
Proof.
  intros s d s'.
  assert (7 ≠ 0) as H0 by lia.
  assert (In 7 (map DebugProtocol.id Samples.threads_1_7)) as Hin by (simpl; tauto).
  assert (DebugSession._currentThread s = Some 0%nat) as Hc by (vm_compute; reflexivity).
  exact (conj eq_refl (conj eq_refl (conj H0 (conj Hin (conj Hc
    (stop_moves_focus_to_stopped_thread Samples.obliging_adapter "s1"
       (Samples.node_launch "X") Samples.store_a Samples.worker_stops
       Samples.threads_1_7 d 7 eq_refl eq_refl H0 Hin)))))).
Defined.

(** X18. A refresh keeps the focus when the stop details do not move it
    (there are none, they carry [preserveFocusHint], or they name no thread
    or the thread 0): if the current thread is the thread that the map
    holds under an id and the adapter still reports that id, the same
    thread object is the current thread afterwards. *)
Theorem refresh_keeps_focus
    (adapter : list Request.t → Result ResponseBody)
    (id : string) (configuration : DebugConfiguration.t)
    (breakpoints : BreakpointManager.t) (inputs : list Input)
    (threads : list DebugProtocol.Thread) (stoppedDetails : option StoppedDetails)
    (r : nat) (i : Z) :
  let s := run adapter (DebugSession.new id configuration breakpoints) inputs in
  DebugSession._currentThread s = Some r →
  JsMap.get i (DebugSession._threads s) = Some r →
  moves_focus stoppedDetails = false →
  In i (map DebugProtocol.id threads) →
  DebugSession._currentThread (doUpdateThreads threads stoppedDetails s) = Some r.
Proof.
  intros s Hcur Hgi Hmf Hin.
  destruct (reachable_threads adapter id configuration breakpoints inputs) as (Hwf & _).
  fold s in Hwf.
  destruct (get_doUpdateThreads threads stoppedDetails s i Hin) as [r' Hg].
  destruct (doUpdateThreads_spec threads stoppedDetails s Hwf) as [HM HP].
  specialize (HP i r' Hg). rewrite Hgi in HP. subst r'.
  destruct (HM i r Hg) as (th & Hth & Hthi & _).
  unfold doUpdateThreads in *. rewrite updateCurrentThread_cases, Hmf.
  rewrite currentThread_doUpdateThreads_fold. simpl in *. rewrite Hcur. simpl.
  unfold thread_id. rewrite Hth. simpl. rewrite Hthi. by rewrite Hg.
Qed.

Lemma refresh_keeps_focus_witness :
  let s := run Samples.obliging_adapter
             (DebugSession.new "s1" (Samples.node_launch "X") Samples.store_a)
             Samples.worker_stops in
  let d := {| reason := "pause"; threadId := Some 0; preserveFocusHint := false |} in
  DebugSession._currentThread s = Some 0%nat ∧
  JsMap.get 1 (DebugSession._threads s) = Some 0%nat ∧
  moves_focus (Some d) = false ∧
  In 1 (map DebugProtocol.id (rev Samples.threads_1_7)) ∧
  DebugSession._currentThread (doUpdateThreads (rev Samples.threads_1_7) (Some d) s)
  = Some 0%nat.
Proof.
  intros s d.
  assert (DebugSession._currentThread s = Some 0%nat) as Hc by (vm_compute; reflexivity).
  assert (JsMap.get 1 (DebugSession._threads s) = Some 0%nat) as Hi
    by (vm_compute; reflexivity).
  assert (In 1 (map DebugProtocol.id (rev Samples.threads_1_7))) as Hin by (simpl; tauto).
  exact (conj Hc (conj Hi (conj eq_refl (conj Hin
    (refresh_keeps_focus Samples.obliging_adapter "s1" (Samples.node_launch "X")
       Samples.store_a Samples.worker_stops (rev Samples.threads_1_7) (Some d)
       0%nat 1 Hc Hi eq_refl Hin))))).
Defined.

(** ** Disposal *)

Lemma clearBreakpoints_fold uris s :
  let s' := fold_left (λ s uri, DebugSession.fireDidChangeBreakpoints uri s) uris s in
  DebugSession._breakpoints s' = DebugSession._breakpoints s ∧
  DebugSession.didChangeBreakpoints s' = DebugSession.didChangeBreakpoints s ++ uris ∧
  DebugSession.connection s' = DebugSession.connection s.
Proof.
  revert s. induction uris as [|u uris IH]; intros s; simpl.
  - by rewrite app_nil_r.
  - destruct (IH (DebugSession.fireDidChangeBreakpoints u s)) as (-> & -> & ->).
    simpl. by rewrite <- app_assoc.
Qed.

Lemma breakpoints_updateCurrentThread stoppedDetails s :
  DebugSession._breakpoints (updateCurrentThread stoppedDetails s)
  = DebugSession._breakpoints s ∧
  DebugSession.didChangeBreakpoints (updateCurrentThread stoppedDetails s)
  = DebugSession.didChangeBreakpoints s ∧
  DebugSession.connection (updateCurrentThread stoppedDetails s)
  = DebugSession.connection s.
Proof. done. Qed.

(** X19. Disposing a session closes it for good: its state is Inactive, it
    has no threads, no current thread and no breakpoints left, one
    breakpoint change is announced for each resource that had breakpoints,
    in the order of the map, and a second [dispose] changes nothing. *)
Theorem dispose_clears_session (s : DebugSession.t) :
  DebugSessionConnection.disposed (DebugSession.connection s) = false →
  let s' := dispose s in
  state s' = Inactive ∧
  get_threads s' = [] ∧
  DebugSession._currentThread s' = None ∧
  (∀ uri, getBreakpoints uri s' = []) ∧
  DebugSession.didChangeBreakpoints s'
  = DebugSession.didChangeBreakpoints s ++ JsMap.keys (DebugSession._breakpoints s) ∧
  dispose s' = s'.
Proof.
  intros Hd s'. unfold s', dispose. rewrite Hd.
  set (s1 := DebugSession.with_connection _ s).
  assert (DebugSession._breakpoints (clearBreakpoints s1) = JsMap.empty ∧
          DebugSession.didChangeBreakpoints (clearBreakpoints s1)
          = DebugSession.didChangeBreakpoints s ++ JsMap.keys (DebugSession._breakpoints s) ∧
          DebugSessionConnection.disposed (DebugSession.connection (clearBreakpoints s1))
          = true) as (Hb & Hf & Hc).
  { unfold clearBreakpoints.
    destruct (clearBreakpoints_fold (JsMap.keys (DebugSession._breakpoints s1))
                (DebugSession.with__breakpoints JsMap.empty s1)) as (-> & -> & ->).
    done. }
  generalize dependent (clearBreakpoints s1). intros s2 Hb Hf Hc.
  assert (DebugSession._currentThread (doUpdateThreads [] None s2) = None) as Hcur.
  { unfold doUpdateThreads. rewrite updateCurrentThread_cases. simpl.
    by destruct (DebugSession._currentThread s2 ≫= _). }
  split_and!; try done.
  - unfold state. simpl. by rewrite Hc.
  - intros [u|]; unfold getBreakpoints; simpl; by rewrite Hb.
  - simpl. by rewrite Hc.
Qed.

Lemma dispose_clears_session_witness :
  let s := run Samples.obliging_adapter
             (DebugSession.new "s1" (Samples.node_launch "X") Samples.store_a)
             Samples.worker_stops in
  let s' := dispose s in
  DebugSessionConnection.disposed (DebugSession.connection s) = false ∧
  get_threads s = [0%nat; 1%nat] ∧
  JsMap.keys (DebugSession._breakpoints s) = ["file:///a.js"] ∧
  (state s' = Inactive ∧
   get_threads s' = [] ∧
   DebugSession._currentThread s' = None ∧
   (∀ uri, getBreakpoints uri s' = []) ∧
   DebugSession.didChangeBreakpoints s'
   = DebugSession.didChangeBreakpoints s ++ JsMap.keys (DebugSession._breakpoints s) ∧
   dispose s' = s').
Proof.
  intros s s'.
  assert (DebugSessionConnection.disposed (DebugSession.connection s) = false) as Hd
    by (vm_compute; reflexivity).
  assert (get_threads s = [0%nat; 1%nat]) as Ht by (vm_compute; reflexivity).
  assert (JsMap.keys (DebugSession._breakpoints s) = ["file:///a.js"]) as Hk
    by (vm_compute; reflexivity).
  exact (conj Hd (conj Ht (conj Hk (dispose_clears_session s Hd)))).
Defined.

(** ** The manager: starts, restarts and destructions *)

Section ManagerLifeCycle.

Variable resolveDebugConfiguration : DebugConfiguration.t → Result DebugConfiguration.t.
Variable resolve : DebugConfiguration.t → Result DebugConfiguration.t.
Variable create : list string → DebugConfiguration.t → Result string.
Variable adapter : string → list Request.t → Result ResponseBody.
Variable showMessage : Error → Result unit.

#[local] Abbreviation manager_start :=
  (DebugSessionManager.manager_start resolveDebugConfiguration resolve create adapter
     showMessage).
#[local] Abbreviation doRestart :=
  (DebugSessionManager.doRestart resolveDebugConfiguration resolve create adapter
     showMessage).
#[local] Abbreviation manager_restart :=
  (DebugSessionManager.manager_restart resolveDebugConfiguration resolve create adapter
     showMessage).

Lemma doStart_returns sessionId c m :
  ∃ r, fst (DebugSessionManager.doStart adapter showMessage sessionId c m) = Ok r.
Proof.
  destruct (doStart_configuration adapter showMessage sessionId c m)
    as (r & m' & s & -> & _). by exists r.
Qed.

Lemma resolveConfiguration_cases c m :
  DebugSessionManager.resolveConfiguration resolveDebugConfiguration resolve c m
  = if DebugConfiguration.__resovled c then (Ok c, m)
    else match resolveDebugConfiguration c with
         | Throw e => (Throw e, m)
         | Ok rc =>
             let n := next_configurationId (DebugConfiguration.name c) m in
             (resolve
                {| DebugConfiguration.type := DebugConfiguration.type rc;
                   DebugConfiguration.request := DebugConfiguration.request rc;
                   DebugConfiguration.name := DebugConfiguration.name rc;
                   DebugConfiguration.__resovled := true;
                   DebugConfiguration.__configurationId := Some n;
                   DebugConfiguration.__restart := DebugConfiguration.__restart rc |},
              DebugSessionManager.with_configurationIds
                (<[DebugConfiguration.name c := n]> (DebugSessionManager.configurationIds m))
                m)
         end.
Proof.
  unfold DebugSessionManager.resolveConfiguration.
  destruct (DebugConfiguration.__resovled c); [done|].
  unfold bind, lift, gets, modify. by destruct (resolveDebugConfiguration c).
Qed.

Lemma manager_start_cases c m :
  manager_start c m
  = let '(resolved, m1) :=
      DebugSessionManager.resolveConfiguration resolveDebugConfiguration resolve c m in
    match resolved with
    | Throw e => (Throw e, m1)
    | Ok rc =>
        match create (DebugSessionManager.created m1) rc with
        | Throw e => (Throw e, m1)
        | Ok sessionId =>
            DebugSessionManager.doStart adapter showMessage sessionId rc
              (DebugSessionManager.with_created
                 (DebugSessionManager.created m1 ++ [sessionId]) m1)
        end
    end.
Proof.
  unfold DebugSessionManager.manager_start. unfold bind at 1.
  destruct (DebugSessionManager.resolveConfiguration _ _ c m) as [[rc|e] m1]; [|done].
  unfold bind, modify. by destruct (create _ rc).
Qed.

(** X20. A [start] of the manager that fails leaves no session behind: the
    session map, the session objects, the current session and the ids asked
    of the debug service are as before. The numbering table is the only
    thing that can have changed: a configuration that was not resolved yet
    and that the debug service resolved has used up its number, although
    no session carries it. *)
Theorem manager_start_failure_leaves_no_session
    (c : DebugConfiguration.t) (m : DebugSessionManager.t) (e : Error) :
  fst (manager_start c m) = Throw e →
  let m' := snd (manager_start c m) in
  DebugSessionManager._sessions m' = DebugSessionManager._sessions m ∧
  DebugSessionManager.sessionObjects m' = DebugSessionManager.sessionObjects m ∧
  DebugSessionManager._currentSession m' = DebugSessionManager._currentSession m ∧
  DebugSessionManager.created m' = DebugSessionManager.created m ∧
  DebugSessionManager.stopped m' = DebugSessionManager.stopped m ∧
  DebugSessionManager.configurationIds m'
  = if DebugConfiguration.__resovled c then DebugSessionManager.configurationIds m
    else match resolveDebugConfiguration c with
         | Ok _ =>
             <[DebugConfiguration.name c := next_configurationId (DebugConfiguration.name c) m]>
               (DebugSessionManager.configurationIds m)
         | Throw _ => DebugSessionManager.configurationIds m
         end.
Proof.
  intros Hf m'. subst m'. revert Hf.
  rewrite manager_start_cases, resolveConfiguration_cases.
  assert (∀ sid rc m1 (P : Prop),
            fst (DebugSessionManager.doStart adapter showMessage sid rc m1) = Throw e → P)
    as Hstart.
  { intros sid rc m1 P Hf. destruct (doStart_returns sid rc m1) as [r Hr]. congruence. }
  destruct (DebugConfiguration.__resovled c).
  - destruct (create (DebugSessionManager.created m) c) as [sid|e'];
      [apply Hstart | by intros _; split_and!].
  - destruct (resolveDebugConfiguration c) as [rc|e']; [|by intros _; split_and!].
    cbv zeta.
    match goal with |- context [resolve ?x] => destruct (resolve x) as [c'|e'] end;
      [|by intros _; split_and!].
    match goal with |- context [create ?ids c'] => destruct (create ids c') as [sid|e'] end;
      [apply Hstart | by intros _; split_and!].
Qed.

(** X21. Restarting a session whose adapter supports the [restart] request
    happens in place: the manager sends that one request to the session and
    returns the same session (or throws when the request fails); no session
    is created, destroyed or renumbered and the current session stays. With
    no session given and no current session, [restart] returns nothing and
    does nothing. *)
Theorem restart_in_place (r : nat) (s : DebugSession.t) (m : DebugSessionManager.t) :
  DebugSessionManager.sessionObjects m !! r = Some s →
  truthy (DebugSession._capabilities s !! "supportsRestartRequest") = true →
  let result := manager_restart (Some r) m in
  let m' := snd result in
  (fst result = Ok (Some r) ∨ ∃ e, fst result = Throw e) ∧
  DebugSessionManager._sessions m' = DebugSessionManager._sessions m ∧
  DebugSessionManager.created m' = DebugSessionManager.created m ∧
  DebugSessionManager.stopped m' = DebugSessionManager.stopped m ∧
  DebugSessionManager.configurationIds m' = DebugSessionManager.configurationIds m ∧
  DebugSessionManager._currentSession m' = DebugSessionManager._currentSession m ∧
  (∃ s', DebugSessionManager.sessionObjects m'
         = <[r := s']> (DebugSessionManager.sessionObjects m) ∧
         DebugSession.configuration s' = DebugSession.configuration s ∧
         (DebugSessionConnection.disposed (DebugSession.connection s) = false →
          DebugSessionConnection.sent (DebugSession.connection s')
          = DebugSessionConnection.sent (DebugSession.connection s) ++ [Request.restart])) ∧
  (DebugSessionManager._currentSession m = None → manager_restart None m = (Ok None, m)).
Proof.
  intros Hs Hcap result m'. subst m' result.
  unfold DebugSessionManager.manager_restart at 1 2 3 4 5 6 7 8.
  rewrite Hs, Hcap. unfold bind, DebugSessionManager.on_session, ret. rewrite Hs.
  pose proof (configuration_sendRequest (adapter (DebugSession.id s)) Request.restart s)
    as Hcfg.
  assert (DebugSessionConnection.disposed (DebugSession.connection s) = false →
          DebugSessionConnection.sent
            (DebugSession.connection
               (snd (sendRequest (adapter (DebugSession.id s)) Request.restart s)))
          = DebugSessionConnection.sent (DebugSession.connection s) ++ [Request.restart])
    as Hsent.
  { intros Hd. unfold sendRequest. by rewrite Hd. }
  destruct (sendRequest (adapter (DebugSession.id s)) Request.restart s) as [[b|e] s'];
    simpl in *.
  - split_and!; try done; [by left | by exists s' |].
    intros Hnone. unfold DebugSessionManager.manager_restart. by rewrite Hnone.
  - split_and!; try done; [right; by exists e | by exists s' |].
    intros Hnone. unfold DebugSessionManager.manager_restart. by rewrite Hnone.
Qed.

(** X22. A restart that goes through [doRestart] starts the session's own
    configuration again: when the [disconnect] request and the debug service
    succeed, the new session has the configuration of the old one, with its
    name and its disambiguator, marked with the [restart] data; the
    configuration counts as resolved, so the numbering table is not
    touched. *)
Theorem doRestart_keeps_disambiguator
    (r : nat) (s : DebugSession.t) (m : DebugSessionManager.t)
    (restart : option JsValue) (sessionId : string) (b : ResponseBody) :
  let c := DebugSession.configuration s in
  let c' :=
    {| DebugConfiguration.type := DebugConfiguration.type c;
       DebugConfiguration.request := DebugConfiguration.request c;
       DebugConfiguration.name := DebugConfiguration.name c;
       DebugConfiguration.__resovled := DebugConfiguration.__resovled c;
       DebugConfiguration.__configurationId := DebugConfiguration.__configurationId c;
       DebugConfiguration.__restart := restart |} in
  DebugSessionManager.sessionObjects m !! r = Some s →
  DebugConfiguration.__resovled c = true →
  fst (sendRequest (adapter (DebugSession.id s)) (Request.disconnect true) s) = Ok b →
  create (DebugSessionManager.created m) c' = Ok sessionId →
  ∃ r' m' s',
    doRestart r restart m = (Ok r', m') ∧
    DebugSessionManager.sessionObjects m' !! r' = Some s' ∧
    DebugSession.configuration s' = c' ∧
    DebugSessionManager.configurationIds m' = DebugSessionManager.configurationIds m.
Proof.
  intros c c' Hs Hres Hd Hcreate.
  assert (r < length (DebugSessionManager.sessionObjects m))%nat as Hr
    by (by eapply lookup_lt_Some).
  unfold DebugSessionManager.doRestart. rewrite Hs.
  unfold bind at 1. unfold DebugSessionManager.on_session at 1. rewrite Hs.
  unfold disconnect. unfold bind at 1.
  pose proof (configuration_sendRequest (adapter (DebugSession.id s))
                (Request.disconnect true) s) as Hcfg.
  destruct (sendRequest (adapter (DebugSession.id s)) (Request.disconnect true) s)
    as [[b'|e] s1]; [|done].
  simpl in Hcfg. unfold ret. unfold bind at 1.
  unfold DebugSessionManager.on_session at 1. cbn [DebugSessionManager.sessionObjects
    DebugSessionManager.with_sessionObjects].
  rewrite list_lookup_insert_eq by done. rewrite Hcfg. fold c. fold c'.
  rewrite manager_start_cases, resolveConfiguration_cases.
  replace (DebugConfiguration.__resovled c') with true by (by rewrite <- Hres).
  cbn [DebugSessionManager.created DebugSessionManager.with_sessionObjects].
  rewrite Hcreate.
  match goal with |- context [DebugSessionManager.doStart _ _ sessionId c' ?m1] =>
    destruct (doStart_configuration adapter showMessage sessionId c' m1)
      as (r' & m' & s' & -> & Hs' & Hc' & Hids) end.
  by exists r', m', s'.
Qed.

End ManagerLifeCycle.

Lemma manager_start_failure_leaves_no_session_witness :
  let unavailable : list string → DebugConfiguration.t → Result string :=
    λ _ _, Throw (AdapterError "no adapter for node") in
  let m := DebugSessionManager.new Samples.store_a in
  let c := Samples.node_launch "X" in
  let start :=
    DebugSessionManager.manager_start Samples.resolves Samples.resolves unavailable
      Samples.obliging_adapters (λ _, Ok tt) c m in
  fst start = Throw (AdapterError "no adapter for node") ∧
  (DebugSessionManager._sessions (snd start) = DebugSessionManager._sessions m ∧
   DebugSessionManager.sessionObjects (snd start) = DebugSessionManager.sessionObjects m ∧
   DebugSessionManager._currentSession (snd start) = DebugSessionManager._currentSession m ∧
   DebugSessionManager.created (snd start) = DebugSessionManager.created m ∧
   DebugSessionManager.stopped (snd start) = DebugSessionManager.stopped m ∧
   DebugSessionManager.configurationIds (snd start)
   = if DebugConfiguration.__resovled c then DebugSessionManager.configurationIds m
     else match Samples.resolves c with
          | Ok _ =>
              <[DebugConfiguration.name c := next_configurationId (DebugConfiguration.name c) m]>
                (DebugSessionManager.configurationIds m)
          | Throw _ => DebugSessionManager.configurationIds m
          end).
Proof.
  intros unavailable m c start.
  assert (fst start = Throw (AdapterError "no adapter for node")) as Hf
    by (vm_compute; reflexivity).
  exact (conj Hf
    (manager_start_failure_leaves_no_session Samples.resolves Samples.resolves unavailable
       Samples.obliging_adapters (λ _, Ok tt) c m _ Hf)).
Defined.

Lemma restart_in_place_witness :
  let adapter := MoreSamples.restartable_adapter in
  let m := MoreSamples.one_session adapter in
  let s := MoreSamples.its_session adapter in
  let result :=
    DebugSessionManager.manager_restart Samples.resolves Samples.resolves Samples.creates
      adapter (λ _, Ok tt) (Some 0%nat) m in
  let m' := snd result in
  DebugSessionManager.sessionObjects m !! 0%nat = Some s ∧
  truthy (DebugSession._capabilities s !! "supportsRestartRequest") = true ∧
  ((fst result = Ok (Some 0%nat) ∨ ∃ e, fst result = Throw e) ∧
   DebugSessionManager._sessions m' = DebugSessionManager._sessions m ∧
   DebugSessionManager.created m' = DebugSessionManager.created m ∧
   DebugSessionManager.stopped m' = DebugSessionManager.stopped m ∧
   DebugSessionManager.configurationIds m' = DebugSessionManager.configurationIds m ∧
   DebugSessionManager._currentSession m' = DebugSessionManager._currentSession m ∧
   (∃ s', DebugSessionManager.sessionObjects m'
          = <[0%nat := s']> (DebugSessionManager.sessionObjects m) ∧
          DebugSession.configuration s' = DebugSession.configuration s ∧
          (DebugSessionConnection.disposed (DebugSession.connection s) = false →
           DebugSessionConnection.sent (DebugSession.connection s')
           = DebugSessionConnection.sent (DebugSession.connection s) ++ [Request.restart])) ∧
   (DebugSessionManager._currentSession m = None →
    DebugSessionManager.manager_restart Samples.resolves Samples.resolves Samples.creates
      adapter (λ _, Ok tt) None m = (Ok None, m))).
Proof.
  intros adapter m s result m'.
  assert (DebugSessionManager.sessionObjects m !! 0%nat = Some s) as Hs
    by (vm_compute; reflexivity).
  assert (truthy (DebugSession._capabilities s !! "supportsRestartRequest") = true) as Hcap
    by (vm_compute; reflexivity).
  exact (conj Hs (conj Hcap
    (restart_in_place Samples.resolves Samples.resolves Samples.creates adapter (λ _, Ok tt)
       0%nat s m Hs Hcap))).
Defined.

Lemma doRestart_keeps_disambiguator_witness :
  let adapter := Samples.obliging_adapters in
  let m := MoreSamples.one_session adapter in
  let s := MoreSamples.its_session adapter in
  let c := DebugSession.configuration s in
  let c' :=
    {| DebugConfiguration.type := DebugConfiguration.type c;
       DebugConfiguration.request := DebugConfiguration.request c;
       DebugConfiguration.name := DebugConfiguration.name c;
       DebugConfiguration.__resovled := DebugConfiguration.__resovled c;
       DebugConfiguration.__configurationId := DebugConfiguration.__configurationId c;
       DebugConfiguration.__restart := Some (JBool true) |} in
  DebugSessionManager.sessionObjects m !! 0%nat = Some s ∧
  DebugConfiguration.__resovled c = true ∧
  fst (sendRequest (adapter (DebugSession.id s)) (Request.disconnect true) s) = Ok NoBody ∧
  Samples.creates (DebugSessionManager.created m) c' = Ok "ss" ∧
  ∃ r' m' s',
    DebugSessionManager.doRestart Samples.resolves Samples.resolves Samples.creates
      adapter (λ _, Ok tt) 0%nat (Some (JBool true)) m = (Ok r', m') ∧
    DebugSessionManager.sessionObjects m' !! r' = Some s' ∧
    DebugSession.configuration s' = c' ∧
    DebugSessionManager.configurationIds m' = DebugSessionManager.configurationIds m.
Proof.
  intros adapter m s c c'.
  assert (DebugSessionManager.sessionObjects m !! 0%nat = Some s) as Hs
    by (vm_compute; reflexivity).
  assert (DebugConfiguration.__resovled c = true) as Hres by (vm_compute; reflexivity).
  assert (fst (sendRequest (adapter (DebugSession.id s)) (Request.disconnect true) s)
          = Ok NoBody) as Hd by (vm_compute; reflexivity).
  assert (Samples.creates (DebugSessionManager.created m) c' = Ok "ss") as Hc
    by (vm_compute; reflexivity).
  exact (conj Hs (conj Hres (conj Hd (conj Hc
    (doRestart_keeps_disambiguator Samples.resolves Samples.resolves Samples.creates
       adapter (λ _, Ok tt) 0%nat s m (Some (JBool true)) "ss" NoBody Hs Hres Hd Hc))))).
Defined.

(** ** The manager: destruction *)

Lemma id_clearBreakpoints s : DebugSession.id (clearBreakpoints s) = DebugSession.id s.
Proof.
  unfold clearBreakpoints.
  change (DebugSession.id s)
    with (DebugSession.id (DebugSession.with__breakpoints JsMap.empty s)).
  generalize (DebugSession.with__breakpoints JsMap.empty s).
  induction (JsMap.keys (DebugSession._breakpoints s)) as [|u us IH]; intros s1; simpl;
    [done|]. by rewrite IH.
Qed.

Lemma id_dispose s : DebugSession.id (dispose s) = DebugSession.id s.
Proof.
  unfold dispose. destruct (DebugSessionConnection.disposed _); [done|].
  unfold doUpdateThreads. simpl. by rewrite id_clearBreakpoints.
Qed.

Lemma disposed_dispose s :
  DebugSessionConnection.disposed (DebugSession.connection (dispose s)) = true.
Proof.
  unfold dispose.
  destruct (DebugSessionConnection.disposed (DebugSession.connection s)) eqn:Hd; [done|].
  set (s1 := DebugSession.with_connection _ s).
  destruct (same_chain_doUpdateThreads [] None (clearBreakpoints s1)) as (_ & _ & H1).
  destruct (same_chain_clearBreakpoints s1) as (_ & _ & H2).
  by rewrite H1, H2.
Qed.

Lemma state_disposed s :
  DebugSessionConnection.disposed (DebugSession.connection s) = true → state s = Inactive.
Proof. intros Hd. unfold state. by rewrite Hd. Qed.

Lemma get_delete_eq {V} (k : string) (m : JsMap.t string V) :
  JsMap.get k (JsMap.delete k m) = None.
Proof.
  induction m as [|[k' v'] m IH]; [done|]. unfold JsMap.delete in *. simpl.
  case_bool_decide as Hk; simpl; [done|]. by rewrite decide_False.
Qed.

Lemma get_delete_ne {V} (k k' : string) (m : JsMap.t string V) :
  k ≠ k' → JsMap.get k' (JsMap.delete k m) = JsMap.get k' m.
Proof.
  intros Hne. induction m as [|[k0 v0] m IH]; [done|]. unfold JsMap.delete in *. simpl.
  case_bool_decide as Hk; simpl.
  - subst k0. by rewrite decide_False.
  - by rewrite IH.
Qed.

Lemma delete_absent {V} (k : string) (m : JsMap.t string V) :
  ¬ In k (JsMap.keys m) → JsMap.delete k m = m.
Proof.
  induction m as [|[k0 v0] m IH]; intros Hk; [done|]. unfold JsMap.delete in *. simpl in *.
  rewrite bool_decide_false by tauto. simpl. f_equal. apply IH. tauto.
Qed.

Lemma set_currentSession_fields current m :
  let m' := DebugSessionManager.set_currentSession current m in
  DebugSessionManager.sessionObjects m' = DebugSessionManager.sessionObjects m ∧
  DebugSessionManager._sessions m' = DebugSessionManager._sessions m ∧
  DebugSessionManager.stopped m' = DebugSessionManager.stopped m ∧
  DebugSessionManager.created m' = DebugSessionManager.created m ∧
  DebugSessionManager._currentSession m' = current.
Proof. unfold DebugSessionManager.set_currentSession. by case_bool_decide. Qed.

Lemma sessions_not_inactive m r s :
  In r (DebugSessionManager.sessions m) →
  DebugSessionManager.sessionObjects m !! r = Some s → state s ≠ Inactive.
Proof.
  unfold DebugSessionManager.sessions. intros Hin Hs.
  apply List.filter_In in Hin as [_ Hst]. rewrite Hs in Hst.
  intros Heq. by rewrite Heq in Hst.
Qed.

Lemma doDestroy_spec m r s :
  DebugSessionManager.sessionObjects m !! r = Some s →
  let m' := DebugSessionManager.doDestroy m r in
  DebugSessionManager.sessionObjects m'
  = <[r := dispose s]> (DebugSessionManager.sessionObjects m) ∧
  DebugSessionManager._sessions m'
  = JsMap.delete (DebugSession.id s) (DebugSessionManager._sessions m) ∧
  DebugSessionManager.stopped m' = DebugSessionManager.stopped m ++ [DebugSession.id s] ∧
  DebugSessionManager.created m' = DebugSessionManager.created m ∧
  DebugSessionManager._currentSession m' ≠ Some r.
Proof.
  intros Hs. unfold DebugSessionManager.doDestroy. rewrite Hs.
  assert (r < length (DebugSessionManager.sessionObjects m))%nat as Hr
    by (by eapply lookup_lt_Some).
  set (m2 := DebugSessionManager.with_sessionObjects _ _).
  set (m3 := if (_ <? _)%nat then _ else m2).
  assert (DebugSessionManager.sessionObjects m3
          = <[r := dispose s]> (DebugSessionManager.sessionObjects m) ∧
          DebugSessionManager._sessions m3 = DebugSessionManager._sessions m ∧
          DebugSessionManager.stopped m3
          = DebugSessionManager.stopped m ++ [DebugSession.id s] ∧
          DebugSessionManager.created m3 = DebugSessionManager.created m)
    as (Ho3 & Hm3 & Hst3 & Hc3).
  { subst m3. destruct (_ <? _)%nat; [|done].
    unfold DebugSessionManager.updateCurrentSession.
    by destruct (set_currentSession_fields (Some r) m2) as (-> & -> & -> & -> & _). }
  clearbody m3. clear m2. unfold DebugSessionManager.remove.
  set (m4 := DebugSessionManager.with_sessions _ m3).
  assert (DebugSessionManager.sessionObjects m4 !! r = Some (dispose s)) as Hr4.
  { subst m4. simpl. rewrite Ho3. by apply list_lookup_insert_eq. }
  assert (∀ m5, m5 = DebugSessionManager.updateCurrentSession None m4 →
            DebugSessionManager._currentSession m5 ≠ Some r) as Hreset.
  { intros m5 ->. unfold DebugSessionManager.updateCurrentSession.
    destruct (set_currentSession_fields (head (DebugSessionManager.sessions m4)) m4)
      as (_ & _ & _ & _ & ->).
    intros Hhead. apply head_Some_elem_of, list_elem_of_In in Hhead.
    apply (sessions_not_inactive m4 r (dispose s)); [done | done |].
    apply state_disposed, disposed_dispose. }
  assert (DebugSessionManager.sessionObjects m4
          = <[r := dispose s]> (DebugSessionManager.sessionObjects m) ∧
          DebugSessionManager._sessions m4
          = JsMap.delete (DebugSession.id s) (DebugSessionManager._sessions m) ∧
          DebugSessionManager.stopped m4
          = DebugSessionManager.stopped m ++ [DebugSession.id s] ∧
          DebugSessionManager.created m4 = DebugSessionManager.created m)
    as (Ho4 & Hm4 & Hst4 & Hc4).
  { subst m4. simpl. by rewrite Ho3, Hm3, Hst3, Hc3. }
  assert (∀ m5, m5 = DebugSessionManager.updateCurrentSession None m4 →
            DebugSessionManager.sessionObjects m5 = DebugSessionManager.sessionObjects m4 ∧
            DebugSessionManager._sessions m5 = DebugSessionManager._sessions m4 ∧
            DebugSessionManager.stopped m5 = DebugSessionManager.stopped m4 ∧
            DebugSessionManager.created m5 = DebugSessionManager.created m4) as Hkeep.
  { intros m5 ->. unfold DebugSessionManager.updateCurrentSession.
    by destruct (set_currentSession_fields (head (DebugSessionManager.sessions m4)) m4)
      as (-> & -> & -> & -> & _). }
  unfold DebugSessionManager.currentSession.
  destruct (DebugSessionManager._currentSession m4) as [r4|] eqn:Hcur;
    cbn [mbind option_bind].
  - destruct (DebugSessionManager.sessionObjects m4 !! r4) as [current|] eqn:Hcurrent.
    + destruct (String.eqb_spec (DebugSession.id current) (DebugSession.id s)) as [Heq|Hne].
      * destruct (Hkeep _ eq_refl) as (-> & -> & -> & ->).
        split_and!; try done. by apply Hreset.
      * split_and!; try done. rewrite Hcur. intros [= ->].
        rewrite Hr4 in Hcurrent. injection Hcurrent as <-. by rewrite id_dispose in Hne.
    + split_and!; try done. rewrite Hcur. intros [= ->]. by rewrite Hr4 in Hcurrent.
  - split_and!; try done. by rewrite Hcur.
Qed.

Section ManagerDestruction.

Variable m : DebugSessionManager.t.

(** X23. Destroying a session by its id asks the debug service to stop it,
    disposes it, so that it is Inactive afterwards, and takes it off the
    session map; the other sessions stay, and the destroyed session is not
    the current session afterwards, whatever it was before. *)
Theorem destroy_removes_session (i : string) (r : nat) (s : DebugSession.t) :
  i ≠ EmptyString →
  JsMap.get i (DebugSessionManager._sessions m) = Some r →
  DebugSessionManager.sessionObjects m !! r = Some s →
  DebugSession.id s = i →
  let m' := DebugSessionManager.destroy (Some i) m in
  JsMap.get i (DebugSessionManager._sessions m') = None ∧
  (∀ j, j ≠ i → JsMap.get j (DebugSessionManager._sessions m')
                = JsMap.get j (DebugSessionManager._sessions m)) ∧
  DebugSessionManager.stopped m' = DebugSessionManager.stopped m ++ [i] ∧
  (∃ s', DebugSessionManager.sessionObjects m' !! r = Some s' ∧ state s' = Inactive) ∧
  (∀ r', r' ≠ r → DebugSessionManager.sessionObjects m' !! r'
                  = DebugSessionManager.sessionObjects m !! r') ∧
  DebugSessionManager._currentSession m' ≠ Some r.
Proof.
  intros Hi Hg Hs Hid m'. subst m'. unfold DebugSessionManager.destroy.
  replace (String.eqb i EmptyString) with false by (symmetry; by apply String.eqb_neq).
  rewrite Hg.
  destruct (doDestroy_spec m r s Hs) as (-> & -> & -> & _ & Hcur). rewrite Hid.
  split_and!; try done.
  - apply get_delete_eq.
  - intros j Hj. by apply get_delete_ne.
  - exists (dispose s). split.
    + apply list_lookup_insert_eq. by eapply lookup_lt_Some.
    + apply state_disposed, disposed_dispose.
  - intros r' Hr'. by apply list_lookup_insert_ne.
Qed.

End ManagerDestruction.

Lemma destroy_removes_session_witness :
  let m := MoreSamples.one_session Samples.obliging_adapters in
  let s := MoreSamples.its_session Samples.obliging_adapters in
  let m' := DebugSessionManager.destroy (Some "s") m in
  "s" ≠ EmptyString ∧
  JsMap.get "s" (DebugSessionManager._sessions m) = Some 0%nat ∧
  DebugSessionManager.sessionObjects m !! 0%nat = Some s ∧
  DebugSession.id s = "s" ∧
  (JsMap.get "s" (DebugSessionManager._sessions m') = None ∧
   (∀ j, j ≠ "s" → JsMap.get j (DebugSessionManager._sessions m')
                   = JsMap.get j (DebugSessionManager._sessions m)) ∧
   DebugSessionManager.stopped m' = DebugSessionManager.stopped m ++ ["s"] ∧
   (∃ s', DebugSessionManager.sessionObjects m' !! 0%nat = Some s' ∧ state s' = Inactive) ∧
   (∀ r', r' ≠ 0%nat → DebugSessionManager.sessionObjects m' !! r'
                       = DebugSessionManager.sessionObjects m !! r') ∧
   DebugSessionManager._currentSession m' ≠ Some 0%nat).
Proof.
  intros m s m'.
  assert ("s" ≠ EmptyString) as Hi by discriminate.
  assert (JsMap.get "s" (DebugSessionManager._sessions m) = Some 0%nat) as Hg
    by (vm_compute; reflexivity).
  assert (DebugSessionManager.sessionObjects m !! 0%nat = Some s) as Hs
    by (vm_compute; reflexivity).
  assert (DebugSession.id s = "s") as Hid by (vm_compute; reflexivity).
  exact (conj Hi (conj Hg (conj Hs (conj Hid
    (destroy_removes_session m "s" 0%nat s Hi Hg Hs Hid))))).
Defined.

Lemma doDestroy_objects m r0 r s :
  DebugSessionManager.sessionObjects m !! r = Some s →
  ∃ s', DebugSessionManager.sessionObjects (DebugSessionManager.doDestroy m r0) !! r = Some s' ∧
        DebugSession.id s' = DebugSession.id s ∧
        (r = r0 ∨ DebugSessionConnection.disposed (DebugSession.connection s) = true →
         DebugSessionConnection.disposed (DebugSession.connection s') = true).
Proof.
  intros Hs.
  destruct (DebugSessionManager.sessionObjects m !! r0) as [s0|] eqn:Hs0.
  - destruct (doDestroy_spec m r0 s0 Hs0) as (-> & _).
    destruct (decide (r = r0)) as [->|Hne].
    + exists (dispose s0). rewrite Hs in Hs0. injection Hs0 as <-. split_and!.
      * apply list_lookup_insert_eq. by eapply lookup_lt_Some.
      * apply id_dispose.
      * intros _. apply disposed_dispose.
    + exists s. rewrite list_lookup_insert_ne by done. split_and!; try done.
      by intros [?|?].
  - unfold DebugSessionManager.doDestroy. rewrite Hs0. exists s. split_and!; try done.
    intros [->|?]; [congruence | done].
Qed.

Lemma fold_doDestroy_disposed rs m r s :
  DebugSessionManager.sessionObjects m !! r = Some s →
  DebugSessionConnection.disposed (DebugSession.connection s) = true →
  ∃ s', DebugSessionManager.sessionObjects (fold_left DebugSessionManager.doDestroy rs m) !! r
        = Some s' ∧
        DebugSessionConnection.disposed (DebugSession.connection s') = true.
Proof.
  revert m s. induction rs as [|r0 rs IH]; intros m s Hs Hd; simpl; [by exists s|].
  destruct (doDestroy_objects m r0 r s Hs) as (s1 & Hs1 & _ & Hd1).
  apply (IH _ s1 Hs1). apply Hd1. by right.
Qed.

Lemma destroy_fold (entries : JsMap.t string nat) :
  ∀ m, DebugSessionManager._sessions m = entries →
  NoDup (JsMap.keys entries) →
  (∀ i r, In (i, r) entries →
     ∃ s, DebugSessionManager.sessionObjects m !! r = Some s ∧ DebugSession.id s = i) →
  let m' := fold_left DebugSessionManager.doDestroy (JsMap.values entries) m in
  DebugSessionManager._sessions m' = [] ∧
  DebugSessionManager.stopped m' = DebugSessionManager.stopped m ++ JsMap.keys entries ∧
  (∀ r, In r (JsMap.values entries) →
     ∃ s', DebugSessionManager.sessionObjects m' !! r = Some s' ∧
           DebugSessionConnection.disposed (DebugSession.connection s') = true).
Proof.
  induction entries as [|[k r] tail IH]; intros m Hm Hnd Hwf.
  - simpl. split_and!; [done | by rewrite app_nil_r | done].
  - change (JsMap.keys ((k, r) :: tail)) with (k :: JsMap.keys tail) in *.
    change (JsMap.values ((k, r) :: tail)) with (r :: JsMap.values tail).
    apply NoDup_cons in Hnd as [Hk Hnd]. cbn [fold_left].
    destruct (Hwf k r (or_introl eq_refl)) as (s & Hs & Hid).
    destruct (doDestroy_spec m r s Hs) as (Ho & Hmap & Hst & _ & _).
    set (m1 := DebugSessionManager.doDestroy m r) in *.
    destruct (IH m1) as (Hm' & Hst' & Hd'); [| done | |].
    + rewrite Hmap, Hm, Hid. unfold JsMap.delete. simpl.
      rewrite bool_decide_true by done. simpl.
      apply (delete_absent k tail). by rewrite <- list_elem_of_In.
    + intros i r' Hin. destruct (Hwf i r' (or_intror Hin)) as (s2 & Hs2 & Hid2).
      destruct (doDestroy_objects m r r' s2 Hs2) as (s3 & Hs3 & Hid3 & _).
      exists s3. split; [done | congruence].
    + split_and!; [done | |].
      * rewrite Hst', Hst, Hid, <- app_assoc. done.
      * intros r' [<-|Hin]; [|by apply Hd'].
        apply (fold_doDestroy_disposed _ m1 r (dispose s)).
        -- subst m1. rewrite Ho. apply list_lookup_insert_eq. by eapply lookup_lt_Some.
        -- apply disposed_dispose.
Qed.

(** X24. Destroying without an id, or with the empty id, destroys every
    session of the map. When the map holds every session under its own id,
    the map is empty afterwards and no session is listed any more, the
    debug service was asked to stop each id once, in the order of the map,
    and each of the sessions is Inactive. *)
Theorem destroy_all_sessions (m : DebugSessionManager.t) :
  NoDup (JsMap.keys (DebugSessionManager._sessions m)) →
  (∀ i r, JsMap.get i (DebugSessionManager._sessions m) = Some r →
     ∃ s, DebugSessionManager.sessionObjects m !! r = Some s ∧ DebugSession.id s = i) →
  let m' := DebugSessionManager.destroy None m in
  DebugSessionManager.destroy (Some EmptyString) m = m' ∧
  DebugSessionManager._sessions m' = [] ∧
  DebugSessionManager.sessions m' = [] ∧
  DebugSessionManager.stopped m'
  = DebugSessionManager.stopped m ++ JsMap.keys (DebugSessionManager._sessions m) ∧
  (∀ r, In r (JsMap.values (DebugSessionManager._sessions m)) →
     ∃ s', DebugSessionManager.sessionObjects m' !! r = Some s' ∧ state s' = Inactive).
Proof.
  intros Hnd Hwf m'.
  destruct (destroy_fold (DebugSessionManager._sessions m) m eq_refl Hnd)
    as (Hm' & Hst' & Hd').
  { intros i r Hin. apply Hwf. by apply In_get. }
  fold (DebugSessionManager.destroy None m) in Hm', Hst', Hd'. fold m' in Hm', Hst', Hd'.
  split_and!; try done.
  - unfold DebugSessionManager.sessions. by rewrite Hm'.
  - intros r Hr. destruct (Hd' r Hr) as (s' & Hs' & Hdisp).
    exists s'. split; [done | by apply state_disposed].
Qed.

Lemma destroy_all_sessions_witness :
  let showMessage := λ _ : Error, Ok tt in
  let m :=
    DebugSessionManager.manager_run Samples.resolves Samples.resolves Samples.creates
      Samples.obliging_adapters showMessage (DebugSessionManager.new Samples.store_a)
      [DebugSessionManager.Start (Samples.node_launch "X");
       DebugSessionManager.Start (Samples.node_launch "Y")] in
  let m' := DebugSessionManager.destroy None m in
  NoDup (JsMap.keys (DebugSessionManager._sessions m)) ∧
  JsMap.keys (DebugSessionManager._sessions m) = ["s"; "ss"] ∧
  (DebugSessionManager.destroy (Some EmptyString) m = m' ∧
   DebugSessionManager._sessions m' = [] ∧
   DebugSessionManager.sessions m' = [] ∧
   DebugSessionManager.stopped m'
   = DebugSessionManager.stopped m ++ JsMap.keys (DebugSessionManager._sessions m) ∧
   (∀ r, In r (JsMap.values (DebugSessionManager._sessions m)) →
      ∃ s', DebugSessionManager.sessionObjects m' !! r = Some s' ∧ state s' = Inactive)).
Proof.
  intros showMessage m m'.
  assert (JsMap.keys (DebugSessionManager._sessions m) = ["s"; "ss"]) as Hk
    by (vm_compute; reflexivity).
  assert (NoDup (JsMap.keys (DebugSessionManager._sessions m))) as Hnd.
  { rewrite Hk. apply NoDup_cons. split; [|apply NoDup_singleton].
    intros Hin. apply list_elem_of_singleton in Hin. discriminate. }
  assert (∀ i r, JsMap.get i (DebugSessionManager._sessions m) = Some r →
            ∃ s, DebugSessionManager.sessionObjects m !! r = Some s ∧
                 DebugSession.id s = i) as Hwf.
  { assert (DebugSessionManager._sessions m = [("s", 0%nat); ("ss", 1%nat)]) as ->
      by (vm_compute; reflexivity).
    assert (DebugSession.id <$> DebugSessionManager.sessionObjects m = ["s"; "ss"]) as Hids
      by (vm_compute; reflexivity).
    intros i r Hg. simpl in Hg.
    destruct (decide ("s" = i)) as [<-|_]; [injection Hg as <-|].
    - destruct (DebugSessionManager.sessionObjects m) as [|s0 l]; [done|].
      exists s0. split; [done|]. by injection Hids.
    - destruct (decide ("ss" = i)) as [<-|_]; [injection Hg as <-|done].
      destruct (DebugSessionManager.sessionObjects m) as [|s0 [|s1 l]]; try done.
      exists s1. split; [done|]. by injection Hids. }
  exact (conj Hnd (conj Hk (destroy_all_sessions m Hnd Hwf))).
Defined.

(** ** The manager: breakpoint changes of a switch of the current session *)

Lemma updateBreakpoints_fold (l : list string) (affectedUri : gset string)
    (fired : list string) :
  (∀ u, u ∈ affectedUri ↔ u ∈ fired) → NoDup fired →
  let result :=
    fold_left
      (λ '(affectedUri, fired) uriString,
         if decide (uriString ∈ affectedUri) then (affectedUri, fired)
         else ({[uriString]} ∪ affectedUri, fired ++ [uriString]))
      l (affectedUri, fired) in
  NoDup (snd result) ∧ ∀ u, u ∈ snd result ↔ u ∈ fired ∨ u ∈ l.
Proof.
  revert affectedUri fired. induction l as [|x l IH]; intros seen fired Hseen Hnd;
    cbn [fold_left].
  - split; [done|]. intros u. rewrite elem_of_nil. tauto.
  - destruct (decide (x ∈ seen)) as [Hx|Hx].
    + destruct (IH seen fired Hseen Hnd) as [Hnd' Hin']. split; [done|].
      intros u. rewrite Hin', elem_of_cons. split; [tauto|].
      intros [?|[->|?]]; [tauto | left; by apply Hseen | tauto].
    + destruct (IH ({[x]} ∪ seen) (fired ++ [x])) as [Hnd' Hin'].
      * intros u. rewrite elem_of_union, elem_of_singleton, elem_of_app,
          list_elem_of_singleton, Hseen. tauto.
      * apply NoDup_app. split_and!; [done | | apply NoDup_singleton].
        intros u Hu Hu'. apply list_elem_of_singleton in Hu' as ->.
        by apply Hx, Hseen.
      * split; [done|]. intros u.
        rewrite Hin', elem_of_app, list_elem_of_singleton, elem_of_cons. tauto.
Qed.

(** X25. When the current session changes, the manager announces a
    breakpoint change for every resource for which the previous or the new
    current session holds breakpoints, and for no other; a resource that
    both sessions know is announced once. *)
Theorem manager_updateBreakpoints_once_per_resource
    (previous current : option DebugSession.t) :
  let fired := manager_updateBreakpoints previous current in
  NoDup fired ∧
  ∀ u, u ∈ fired ↔
       ∃ s, (previous = Some s ∨ current = Some s) ∧ u ∈ breakpointUris s.
Proof.
  intros fired. unfold fired, manager_updateBreakpoints.
  match goal with |- context [fold_left _ ?l _] =>
    destruct (updateBreakpoints_fold l ∅ []) as [Hnd Hin] end.
  { intros u. rewrite elem_of_nil. set_solver. }
  { apply NoDup_nil_2. }
  split; [done|]. intros u. rewrite Hin, elem_of_nil. simpl. rewrite app_nil_r, elem_of_app.
  split.
  - intros [[]|[Hu|Hu]].
    + destruct previous as [s|]; [|by apply elem_of_nil in Hu]. exists s. auto.
    + destruct current as [s|]; [|by apply elem_of_nil in Hu]. exists s. auto.
  - intros (s & [-> | ->] & Hu); auto.
Qed.

(** ** Labels *)

Lemma length_append (s t : string) :
  String.length (s +:+ t) = (String.length s + String.length t)%nat.
Proof. induction s as [|a s IH]; simpl; [done | by rewrite IH]. Qed.

Lemma append_inj_r (s1 s2 t : string) : s1 +:+ t = s2 +:+ t → s1 = s2.
Proof.
  revert s2. induction s1 as [|a s1 IH]; intros [|b s2] Heq; simpl in *.
  - done.
  - apply (f_equal String.length) in Heq.
    rewrite !length_append in Heq. simpl in Heq. lia.
  - apply (f_equal String.length) in Heq.
    rewrite !length_append in Heq. simpl in Heq. lia.
  - injection Heq as -> Heq. f_equal. by apply IH.
Qed.

Lemma append_not_self (s t : string) : t ≠ EmptyString → s ≠ s +:+ t.
Proof.
  intros Ht Heq. apply (f_equal String.length) in Heq.
  rewrite length_append in Heq. destruct t; [done|]. simpl in Heq. lia.
Qed.

Lemma round_to_double_exact (m : Z) : Z.abs m ≤ 2 ^ 53 → round_to_double m = m.
Proof.
  intros Hm. unfold round_to_double. by destruct (Z.leb_spec (Z.abs m) (2 ^ 53)); [|lia].
Qed.

(** X26. The labels tell the sessions of one configuration name apart, as
    long as the disambiguators are below 2^53, where adding one is exact:
    two sessions whose configurations have the same name and different
    disambiguators in that range have different labels. The session with
    the disambiguator 0 is labelled with the bare name. *)
Theorem label_distinguishes_sessions (s1 s2 : DebugSession.t) (n1 n2 : Z) :
  DebugConfiguration.name (DebugSession.configuration s1)
  = DebugConfiguration.name (DebugSession.configuration s2) →
  DebugConfiguration.__configurationId (DebugSession.configuration s1) = Some n1 →
  DebugConfiguration.__configurationId (DebugSession.configuration s2) = Some n2 →
  - 2 ^ 53 ≤ n1 < 2 ^ 53 → - 2 ^ 53 ≤ n2 < 2 ^ 53 →
  n1 ≠ n2 →
  label s1 ≠ label s2 ∧
  (n1 = 0 → label s1 = DebugConfiguration.name (DebugSession.configuration s1)).
Proof.
  intros Hname H1 H2 Hb1 Hb2 Hne. unfold label. rewrite H1, H2, Hname.
  rewrite !round_to_double_exact by lia.
  destruct (Z.eqb_spec n1 0) as [->|Hn1], (Z.eqb_spec n2 0) as [->|Hn2].
  - done.
  - split; [|done]. by apply append_not_self.
  - split; [|done]. intros Heq. symmetry in Heq. revert Heq. by apply append_not_self.
  - split; [|done]. intros Heq.
    apply (inj (String.app _)) in Heq. apply (inj (String.app _)) in Heq.
    apply append_inj_r in Heq. apply (inj pretty) in Heq. lia.
Qed.

Lemma label_distinguishes_sessions_witness :
  let showMessage := λ _ : Error, Ok tt in
  let m :=
    DebugSessionManager.manager_run Samples.resolves Samples.resolves Samples.creates
      Samples.obliging_adapters showMessage (DebugSessionManager.new Samples.store_a)
      [DebugSessionManager.Start (Samples.node_launch "X");
       DebugSessionManager.Start (Samples.node_launch "X")] in
  let s1 := default Samples.session_a (DebugSessionManager.sessionObjects m !! 0%nat) in
  let s2 := default Samples.session_a (DebugSessionManager.sessionObjects m !! 1%nat) in
  DebugConfiguration.name (DebugSession.configuration s1)
  = DebugConfiguration.name (DebugSession.configuration s2) ∧
  DebugConfiguration.__configurationId (DebugSession.configuration s1) = Some 0 ∧
  DebugConfiguration.__configurationId (DebugSession.configuration s2) = Some 1 ∧
  - 2 ^ 53 ≤ 0 < 2 ^ 53 ∧ - 2 ^ 53 ≤ 1 < 2 ^ 53 ∧
  0 ≠ 1 ∧
  label s2 = "X (2)" ∧
  (label s1 ≠ label s2 ∧
   (0 = 0 → label s1 = DebugConfiguration.name (DebugSession.configuration s1))).
Proof.
  intros showMessage m s1 s2.
  assert (DebugConfiguration.name (DebugSession.configuration s1)
          = DebugConfiguration.name (DebugSession.configuration s2)) as Hname
    by (vm_compute; reflexivity).
  assert (DebugConfiguration.__configurationId (DebugSession.configuration s1) = Some 0)
    as H1 by (vm_compute; reflexivity).
  assert (DebugConfiguration.__configurationId (DebugSession.configuration s2) = Some 1)
    as H2 by (vm_compute; reflexivity).
  assert (- 2 ^ 53 ≤ 0 < 2 ^ 53) as Hb1 by lia.
  assert (- 2 ^ 53 ≤ 1 < 2 ^ 53) as Hb2 by lia.
  assert (0 ≠ 1) as Hne by lia.
  assert (label s2 = "X (2)") as Hl by (vm_compute; reflexivity).
  exact (conj Hname (conj H1 (conj H2 (conj Hb1 (conj Hb2 (conj Hne (conj Hl
    (label_distinguishes_sessions s1 s2 0 1 Hname H1 H2 Hb1 Hb2 Hne)))))))).
Defined.

(** Past that range the sum is rounded: the disambiguators 2^53 - 1 and
    2^53 give one label. *)
Example label_of_large_disambiguators (s1 s2 : DebugSession.t) :
  DebugConfiguration.name (DebugSession.configuration s1)
  = DebugConfiguration.name (DebugSession.configuration s2) →
  DebugConfiguration.__configurationId (DebugSession.configuration s1) = Some (2 ^ 53 - 1) →
  DebugConfiguration.__configurationId (DebugSession.configuration s2) = Some (2 ^ 53) →
  label s1 = label s2.
Proof.
  intros Hname H1 H2. unfold label. rewrite H1, H2, Hname.
  by replace (round_to_double (2 ^ 53 + 1)) with (round_to_double (2 ^ 53 - 1 + 1))
    by (vm_compute; reflexivity).
Qed.

(** ** The file dialog *)

(** X27. The open dialog is never asked to select both files and
    directories. It selects files unless the caller excludes files or asks
    for folders, and directories only when the caller asks for folders and
    excludes files; a caller that asks for folders without excluding files
    gets neither property. [multiSelections] follows [canSelectMany], and
    no property is listed twice. *)
Theorem toOpenDialogOptions_properties
    (fsPath : string → string) (uri : string)
    (props : ElectronFileDialogService.OpenFileDialogProps) :
  let properties :=
    ElectronFileDialogService.properties
      (ElectronFileDialogService.toOpenDialogOptions fsPath uri props) in
  let files := ElectronFileDialogService.canSelectFiles props in
  let folders := ElectronFileDialogService.canSelectFolders props in
  NoDup properties ∧
  ¬ (ElectronFileDialogService.openFile ∈ properties ∧
     ElectronFileDialogService.openDirectory ∈ properties) ∧
  (ElectronFileDialogService.openFile ∈ properties
   ↔ files ≠ Some false ∧ folders ≠ Some true) ∧
  (ElectronFileDialogService.openDirectory ∈ properties
   ↔ folders = Some true ∧ files = Some false) ∧
  (folders = Some true → files ≠ Some false →
   (ElectronFileDialogService.openFile ∉ properties) ∧
   (ElectronFileDialogService.openDirectory ∉ properties)) ∧
  (ElectronFileDialogService.multiSelections ∈ properties
   ↔ ElectronFileDialogService.canSelectMany props = Some true).
Proof.
  intros properties files folders. subst properties files folders.
  unfold ElectronFileDialogService.toOpenDialogOptions. simpl.
  destruct (ElectronFileDialogService.canSelectFiles props) as [[]|],
    (ElectronFileDialogService.canSelectFolders props) as [[]|],
    (ElectronFileDialogService.canSelectMany props) as [[]|]; simpl;
    (split_and!;
     [ repeat (apply NoDup_cons; split;
               [rewrite ?elem_of_cons, ?elem_of_nil; intuition congruence|]);
       apply NoDup_nil_2
     | rewrite ?elem_of_cons, ?elem_of_nil; intuition congruence .. ]).
Qed.

(** ** The tree views *)

Lemma get_app {V} (k : string) (m1 m2 : JsMap.t string V) :
  JsMap.get k (m1 ++ m2)
  = match JsMap.get k m1 with Some v => Some v | None => JsMap.get k m2 end.
Proof.
  induction m1 as [|[k' v'] m1 IH]; simpl; [done|].
  by destruct (decide (k' = k)).
Qed.

Lemma set_absent {V} (k : string) (v : V) (m : JsMap.t string V) :
  JsMap.get k m = None → JsMap.set k v m = m ++ [(k, v)].
Proof.
  induction m as [|[k' v'] m IH]; simpl; [done|].
  destruct (decide (k' = k)); [done|]. intros Hg. by rewrite IH.
Qed.

Lemma fold_set_fresh {V} (ps : list (string * V)) (m : JsMap.t string V) :
  NoDup (map fst ps) → (∀ p, In p ps → JsMap.get (fst p) m = None) →
  fold_left (λ m p, JsMap.set (fst p) (snd p) m) ps m = m ++ ps.
Proof.
  revert m. induction ps as [|[k v] ps IH]; intros m Hnd Hfresh; simpl.
  - by rewrite app_nil_r.
  - apply NoDup_cons in Hnd as [Hk Hnd].
    rewrite set_absent by (apply (Hfresh (k, v)); by left).
    rewrite IH; [by rewrite <- app_assoc | done |].
    intros [k' v'] Hin. pose proof (Hfresh (k', v') (or_intror Hin)) as Hk'.
    simpl in *. rewrite get_app, Hk'. simpl.
    rewrite decide_False; [done|]. intros ->. apply Hk.
    apply list_elem_of_In. change k' with (fst (k', v')). by apply in_map.
Qed.

Lemma item_id_inj (a b : Z) : "item-" +:+ pretty a = "item-" +:+ pretty b → a = b.
Proof. intros Heq. apply (inj (String.app _)) in Heq. by apply (inj pretty) in Heq. Qed.

Lemma item_ids_cons (c : Z) (k : nat) :
  item_ids c (S k) = ("item-" +:+ pretty (c + 1)) :: item_ids (c + 1) k.
Proof.
  unfold item_ids. simpl. rewrite Z.add_0_r. f_equal.
  rewrite <- seq_shift, map_map. apply map_ext. intros j. do 2 f_equal. lia.
Qed.

Lemma length_item_ids c k : length (item_ids c k) = k.
Proof. unfold item_ids. by rewrite length_map, length_seq. Qed.

Lemma In_item_ids c k id :
  In id (item_ids c k) ↔ ∃ n, c < n ≤ c + Z.of_nat k ∧ id = "item-" +:+ pretty n.
Proof.
  unfold item_ids. rewrite in_map_iff. split.
  - intros (j & <- & Hj). apply in_seq in Hj. exists (c + 1 + Z.of_nat j). split; [lia|done].
  - intros (n & Hn & ->). exists (Z.to_nat (n - c - 1)). split.
    + do 2 f_equal. lia.
    + apply in_seq. lia.
Qed.

Lemma NoDup_item_ids c k : NoDup (item_ids c k).
Proof.
  revert c. induction k as [|k IH]; intros c; [apply NoDup_nil_2|].
  rewrite item_ids_cons. apply NoDup_cons. split; [|apply IH].
  rewrite list_elem_of_In, In_item_ids. intros (n & Hn & Heq).
  apply item_id_inj in Heq. lia.
Qed.

Lemma item_ids_fresh {T} (v : TreeViewExtImpl.t T) k id :
  cache_wf v → In id (item_ids (TreeViewExtImpl.idCounter v) k) →
  JsMap.get id (TreeViewExtImpl.cache v) = None.
Proof.
  intros [_ Hwf] Hin. apply get_None_keys. intros Hkey.
  destruct (Hwf id Hkey) as (n & Hn & ->).
  apply In_item_ids in Hin as (n' & Hn' & Heq). apply item_id_inj in Heq. lia.
Qed.

Lemma item_id_nonempty id c k : In id (item_ids c k) → id ≠ EmptyString.
Proof. intros Hin. by apply In_item_ids in Hin as (n & _ & ->). Qed.

Lemma map_combine {A B} (l1 : list A) (l2 : list B) :
  length l1 = length l2 →
  map fst (combine l1 l2) = l1 ∧ map snd (combine l1 l2) = l2.
Proof.
  revert l2. induction l1 as [|x l1 IH]; intros [|y l2] Hlen; simpl in *; try done.
  destruct (IH l2) as [-> ->]; [lia | done].
Qed.

Section TreeViewFacts.

Variable T : Type.
Variable provider_getChildren : option T → Result (option (list T)).
Variable provider_getTreeItem : T → Result TreeViewExtImpl.TreeItem.
Variable settles : nat → T → nat.
Variable decodeURIComponent : string → Result string.

#[local] Abbreviation getChildren :=
  (TreeViewExtImpl.getChildren T provider_getChildren provider_getTreeItem settles
     decodeURIComponent).
#[local] Abbreviation toTreeViewItem :=
  (TreeViewExtImpl.toTreeViewItem T provider_getTreeItem decodeURIComponent).
#[local] Abbreviation completion_order := (TreeViewExtImpl.completion_order T settles).

(** The callbacks always get through their first part, and every id they
    make is item-n for a number [n]. *)
Lemma map_m_remember_total (values : list T) (v : TreeViewExtImpl.t T) :
  ∃ remembered v',
    TreeViewExtImpl.map_m T (TreeViewExtImpl.remember T) values v = (Ok remembered, v') ∧
    map snd remembered = values ∧
    Forall (λ p, fst p ≠ EmptyString) remembered.
Proof.
  revert v. induction values as [|x values IH]; intros v.
  - exists [], v. by split_and!.
  - cbn [TreeViewExtImpl.map_m].
    unfold bind at 1. unfold TreeViewExtImpl.remember at 1.
    unfold bind at 1. unfold TreeViewExtImpl.generateId at 1. cbv zeta.
    unfold bind at 1. unfold modify at 1. unfold ret at 1.
    unfold bind at 1.
    match goal with |- context [TreeViewExtImpl.map_m T _ values ?v1] =>
      destruct (IH v1) as (remembered & v' & -> & Hsnd & Hids) end.
    unfold ret. eexists _, _. split; [done|]. split; [by rewrite <- Hsnd|].
    by constructor.
Qed.

(** While the counter stays below 2^53, the ids are the next numbers. *)
Lemma map_m_remember (values : list T) (v : TreeViewExtImpl.t T) :
  0 ≤ TreeViewExtImpl.idCounter v →
  TreeViewExtImpl.idCounter v + Z.of_nat (length values) ≤ 2 ^ 53 →
  let remembered := combine (item_ids (TreeViewExtImpl.idCounter v) (length values)) values in
  TreeViewExtImpl.map_m T (TreeViewExtImpl.remember T) values v
  = (Ok remembered,
     {| TreeViewExtImpl.idCounter := TreeViewExtImpl.idCounter v + Z.of_nat (length values);
        TreeViewExtImpl.cache :=
          fold_left (λ m p, JsMap.set (fst p) (snd p) m) remembered
            (TreeViewExtImpl.cache v) |}).
Proof.
  revert v. induction values as [|x values IH]; intros v Hc Hb.
  - simpl. unfold ret. rewrite Z.add_0_r. by destruct v.
  - cbn [length] in Hb.
    cbn [TreeViewExtImpl.map_m length]. rewrite item_ids_cons. cbn [combine fold_left].
    unfold bind at 1. unfold TreeViewExtImpl.remember at 1.
    unfold bind at 1. unfold TreeViewExtImpl.generateId at 1. cbv zeta.
    rewrite round_to_double_exact by lia.
    unfold bind at 1. unfold modify at 1. unfold ret at 1.
    unfold bind at 1.
    rewrite IH by (cbn [TreeViewExtImpl.idCounter]; lia).
    cbn [TreeViewExtImpl.idCounter TreeViewExtImpl.cache].
    unfold ret. cbn [fst snd]. do 2 f_equal. lia.
Qed.

Lemma getChildren_unfold itemId v :
  getChildren itemId v
  = match provider_getChildren (JsMap.get itemId (TreeViewExtImpl.cache v)) with
    | Throw e => (Throw e, v)
    | Ok None => (Ok None, v)
    | Ok (Some values) =>
        match TreeViewExtImpl.map_m T (TreeViewExtImpl.remember T) values v with
        | (Ok remembered, v') =>
            (match TreeViewExtImpl.all (map toTreeViewItem (completion_order remembered)) with
             | Ok treeItems => Ok (Some treeItems)
             | Throw e => Throw e
             end, v')
        | (Throw e, v') => (Throw e, v')
        end
    end.
Proof.
  unfold TreeViewExtImpl.getChildren. unfold bind at 1. unfold gets at 1.
  unfold bind at 1. unfold lift at 1.
  destruct (provider_getChildren _) as [[values|]|e]; [|done|done].
  unfold bind at 1.
  destruct (TreeViewExtImpl.map_m T _ values v) as [[remembered|e] v']; [|done].
  unfold bind, lift, ret. by destruct (TreeViewExtImpl.all _).
Qed.

Lemma getChildren_cases itemId v values :
  0 ≤ TreeViewExtImpl.idCounter v →
  TreeViewExtImpl.idCounter v + Z.of_nat (length values) ≤ 2 ^ 53 →
  provider_getChildren (JsMap.get itemId (TreeViewExtImpl.cache v)) = Ok (Some values) →
  let remembered :=
    combine (item_ids (TreeViewExtImpl.idCounter v) (length values)) values in
  getChildren itemId v
  = (match TreeViewExtImpl.all (map toTreeViewItem (completion_order remembered)) with
     | Ok treeItems => Ok (Some treeItems)
     | Throw e => Throw e
     end,
     {| TreeViewExtImpl.idCounter :=
          TreeViewExtImpl.idCounter v + Z.of_nat (length values);
        TreeViewExtImpl.cache :=
          fold_left (λ m p, JsMap.set (fst p) (snd p) m) remembered
            (TreeViewExtImpl.cache v) |}).
Proof.
  intros Hc Hb Hp. cbv zeta. by rewrite getChildren_unfold, Hp, map_m_remember.
Qed.

Lemma cache_after_remember (values : list T) (v : TreeViewExtImpl.t T) :
  cache_wf v →
  let remembered := combine (item_ids (TreeViewExtImpl.idCounter v) (length values)) values in
  fold_left (λ m p, JsMap.set (fst p) (snd p) m) remembered (TreeViewExtImpl.cache v)
  = TreeViewExtImpl.cache v ++ remembered ∧
  map fst remembered = item_ids (TreeViewExtImpl.idCounter v) (length values) ∧
  map snd remembered = values.
Proof.
  intros Hwf remembered.
  destruct (map_combine (item_ids (TreeViewExtImpl.idCounter v) (length values)) values)
    as [Hfst Hsnd]; [by rewrite length_item_ids|].
  fold remembered in Hfst, Hsnd.
  split_and!; try done. apply fold_set_fresh.
  - rewrite Hfst. apply NoDup_item_ids.
  - intros p Hp. apply (item_ids_fresh v (length values)); [done|].
    rewrite <- Hfst. by apply in_map.
Qed.

(** The callbacks are resumed in some order, each of them once. *)
Lemma resume_after_Permutation {A} (x : nat * A) (resumed : list (nat * A)) :
  Permutation (TreeViewExtImpl.resume_after x resumed) (x :: resumed).
Proof.
  induction resumed as [|y resumed IH]; simpl; [done|].
  destruct (_ <? _)%nat; [done|].
  rewrite IH. apply perm_swap.
Qed.

Lemma fold_resume_after_Permutation {A} (l resumed : list (nat * A)) :
  Permutation (fold_left (λ resumed x, TreeViewExtImpl.resume_after x resumed) l resumed)
    (resumed ++ l).
Proof.
  revert resumed. induction l as [|x l IH]; intros resumed; simpl.
  - by rewrite app_nil_r.
  - rewrite IH, resume_after_Permutation. apply Permutation_middle.
Qed.

Lemma map_snd_imap {A B} (g : nat → A → B) (l : list A) :
  map snd (imap (λ k p, (g k p, p)) l) = l.
Proof.
  revert g. induction l as [|x l IH]; intros g; [done|].
  rewrite imap_cons. simpl. f_equal. apply (IH (g ∘ S)).
Qed.

Lemma completion_order_Permutation (remembered : list (string * T)) :
  Permutation (completion_order remembered) remembered.
Proof.
  unfold TreeViewExtImpl.completion_order.
  rewrite fold_resume_after_Permutation. simpl. by rewrite map_snd_imap.
Qed.

Lemma all_ok {A} (l : list (Result A)) (xs : list A) :
  TreeViewExtImpl.all l = Ok xs → Forall2 (λ r x, r = Ok x) l xs.
Proof.
  revert xs. induction l as [|[x|e] l IH]; intros xs; simpl.
  - intros [= <-]. constructor.
  - destruct (TreeViewExtImpl.all l) as [ys|e]; [|done]. intros [= <-].
    constructor; [done | by apply IH].
  - done.
Qed.

Lemma toTreeViewItem_ok (id : string) (x : T) (item : TreeViewExtImpl.TreeViewItem) :
  toTreeViewItem (id, x) = Ok item →
  TreeViewExtImpl.id item = id ∧
  ∃ treeItem,
    provider_getTreeItem x = Ok treeItem ∧
    TreeViewExtImpl.label_of decodeURIComponent id treeItem
    = Ok (TreeViewExtImpl.itemLabel item) ∧
    TreeViewExtImpl.itemTooltip item = TreeViewExtImpl.tooltip treeItem ∧
    TreeViewExtImpl.itemCollapsibleState item = TreeViewExtImpl.collapsibleState treeItem.
Proof.
  unfold TreeViewExtImpl.toTreeViewItem.
  destruct (provider_getTreeItem x) as [treeItem|]; [|done].
  destruct (TreeViewExtImpl.label_of _ _ _) as [l|] eqn:Hl; [|done].
  intros [= <-]. split; [done|]. by exists treeItem.
Qed.

Lemma items_of_remembered (remembered : list (string * T))
    (items : list TreeViewExtImpl.TreeViewItem) :
  TreeViewExtImpl.all (map toTreeViewItem remembered) = Ok items →
  Forall2 (λ p item, toTreeViewItem p = Ok item) remembered items.
Proof. intros Hall. apply all_ok in Hall. by apply Forall2_fmap_l in Hall. Qed.

Lemma ids_of_items (resumed : list (string * T))
    (items : list TreeViewExtImpl.TreeViewItem) :
  Forall2 (λ p item, toTreeViewItem p = Ok item) resumed items →
  map TreeViewExtImpl.id items = map fst resumed.
Proof.
  induction 1 as [|[id x] item rest items Hitem _ IH]; [done|].
  simpl. f_equal; [|done]. by apply toTreeViewItem_ok in Hitem as [-> _].
Qed.

(** X28. A call of [getChildren] for which the provider returns [k]
    children hands out the [k] ids that follow the counter, as long as the
    counter stays within 2^53, whether or not the tree items resolve
    afterwards: the ids are pairwise distinct, none of them was in the
    cache before, they are appended to the cache in order while every older
    entry stays as it was, and the items returned carry them, each id once,
    in the order in which the tree items have settled. *)
Theorem getChildren_hands_out_fresh_ids
    (itemId : string) (v : TreeViewExtImpl.t T) (values : list T) :
  cache_wf v →
  TreeViewExtImpl.idCounter v + Z.of_nat (length values) ≤ 2 ^ 53 →
  provider_getChildren (JsMap.get itemId (TreeViewExtImpl.cache v)) = Ok (Some values) →
  let v' := snd (getChildren itemId v) in
  let ids := item_ids (TreeViewExtImpl.idCounter v) (length values) in
  TreeViewExtImpl.idCounter v' = TreeViewExtImpl.idCounter v + Z.of_nat (length values) ∧
  JsMap.keys (TreeViewExtImpl.cache v') = JsMap.keys (TreeViewExtImpl.cache v) ++ ids ∧
  NoDup ids ∧
  (∀ id, In id ids → JsMap.get id (TreeViewExtImpl.cache v) = None) ∧
  (∀ id x, JsMap.get id (TreeViewExtImpl.cache v) = Some x →
           JsMap.get id (TreeViewExtImpl.cache v') = Some x) ∧
  cache_wf v' ∧
  (∀ items, fst (getChildren itemId v) = Ok (Some items) →
            Permutation (map TreeViewExtImpl.id items) ids ∧
            map TreeViewExtImpl.id items
            = map fst (completion_order (combine ids values))).
Proof.
  intros Hwf Hb Hp v' ids. subst v'.
  rewrite (getChildren_cases itemId v values (proj1 Hwf) Hb Hp). cbv zeta.
  destruct (cache_after_remember values v Hwf) as (Hcache & Hfst & Hsnd).
  cbn [snd fst TreeViewExtImpl.idCounter TreeViewExtImpl.cache]. rewrite Hcache.
  split_and!.
  - done.
  - unfold JsMap.keys. by rewrite map_app, Hfst.
  - apply NoDup_item_ids.
  - intros id Hid. by apply (item_ids_fresh v (length values)).
  - intros id x Hg. by rewrite get_app, Hg.
  - destruct Hwf as [Hc Hwf]. split; simpl; [lia|].
    intros id. unfold JsMap.keys. rewrite map_app, Hfst, in_app_iff. intros [Hold|Hnew].
    + destruct (Hwf id Hold) as (n & Hn & ->). exists n. split; [lia | done].
    + apply In_item_ids in Hnew as (n & Hn & ->). exists n. split; [lia | done].
  - intros items Hitems.
    destruct (TreeViewExtImpl.all _) as [treeItems|e] eqn:Hall; [|done].
    injection Hitems as <-. apply items_of_remembered, ids_of_items in Hall.
    rewrite Hall. split; [|done]. subst ids.
    etransitivity; [apply Permutation_map, completion_order_Permutation|].
    by rewrite Hfst.
Qed.

Lemma Forall2_In_impl {A B} (P Q : A → B → Prop) (l : list A) (k : list B) :
  Forall2 P l k → (∀ x y, In x l → P x y → Q x y) → Forall2 Q l k.
Proof.
  induction 1 as [|x y l k Hxy _ IH]; intros Himpl; constructor.
  - apply Himpl; [by left | done].
  - apply IH. intros x' y' Hin. apply Himpl. by right.
Qed.

(** X29. The ids of the items that [getChildren] returns lead back to the
    elements they were made from, as long as the counter stays within
    2^53: the items are made from the elements of the provider, each
    element once, in the order in which the tree items have settled; each
    item is cached under its id as its element, so a later call with that
    id asks the provider for the children of this element; the tooltip and
    the collapsible state are those of the element's tree item. In the
    cache, the ids handed out stand for the elements in the order of the
    provider. *)
Theorem getChildren_round_trip
    (itemId : string) (v : TreeViewExtImpl.t T)
    (items : list TreeViewExtImpl.TreeViewItem) :
  cache_wf v →
  fst (getChildren itemId v) = Ok (Some items) →
  TreeViewExtImpl.idCounter v + Z.of_nat (length items) ≤ 2 ^ 53 →
  let v' := snd (getChildren itemId v) in
  ∃ values,
    provider_getChildren (JsMap.get itemId (TreeViewExtImpl.cache v)) = Ok (Some values) ∧
    Forall2 (λ id value, JsMap.get id (TreeViewExtImpl.cache v') = Some value)
      (item_ids (TreeViewExtImpl.idCounter v) (length values)) values ∧
    ∃ resumed,
      Permutation resumed values ∧
      Forall2
        (λ item value,
           JsMap.get (TreeViewExtImpl.id item) (TreeViewExtImpl.cache v') = Some value ∧
           ∃ treeItem,
             provider_getTreeItem value = Ok treeItem ∧
             TreeViewExtImpl.itemTooltip item = TreeViewExtImpl.tooltip treeItem ∧
             TreeViewExtImpl.itemCollapsibleState item
             = TreeViewExtImpl.collapsibleState treeItem)
        items resumed.
Proof.
  intros Hwf Hitems Hb v'. subst v'.
  destruct (provider_getChildren (JsMap.get itemId (TreeViewExtImpl.cache v)))
    as [[values|]|e] eqn:Hp;
    [| by rewrite getChildren_unfold, Hp in Hitems
     | by rewrite getChildren_unfold, Hp in Hitems].
  assert (length items = length values) as Hlen.
  { rewrite getChildren_unfold, Hp in Hitems.
    destruct (map_m_remember_total values v) as (remembered & v1 & Hrun & Hsnd & _).
    rewrite Hrun in Hitems. cbn [fst] in Hitems.
    destruct (TreeViewExtImpl.all _) as [treeItems|e] eqn:Hall; [|done].
    injection Hitems as <-. apply items_of_remembered, Forall2_length in Hall.
    rewrite <- Hall, (Permutation_length (completion_order_Permutation remembered)).
    by rewrite <- Hsnd, length_map. }
  rewrite Hlen in Hb. revert Hitems.
  rewrite (getChildren_cases itemId v values (proj1 Hwf) Hb Hp). cbv zeta.
  destruct (cache_after_remember values v Hwf) as (Hcache & Hfst & Hsnd).
  cbn [snd fst TreeViewExtImpl.cache]. rewrite Hcache.
  destruct (TreeViewExtImpl.all _) as [treeItems|e] eqn:Hall; [|done].
  intros [= <-]. exists values. split; [done|].
  apply items_of_remembered in Hall.
  set (remembered := combine _ values) in *.
  assert (∀ p, In p remembered →
            JsMap.get (fst p) (TreeViewExtImpl.cache v ++ remembered) = Some (snd p))
    as Hget.
  { intros [id x] Hin. simpl. rewrite get_app.
    rewrite (item_ids_fresh v (length values) id Hwf)
      by (rewrite <- Hfst; by apply (in_map fst) in Hin).
    apply In_get; [|done]. unfold JsMap.keys. rewrite Hfst. apply NoDup_item_ids. }
  split.
  - rewrite <- Hfst, <- Hsnd. apply Forall2_fmap_l, Forall2_fmap_r.
    apply Forall_Forall2_diag, List.Forall_forall. intros p Hin. by apply Hget.
  - exists (map snd (completion_order remembered)). split.
    + rewrite <- Hsnd. apply Permutation_map, completion_order_Permutation.
    + apply Forall2_fmap_r, Forall2_flip.
      apply (Forall2_In_impl _ _ _ _ Hall). intros [id x] item Hin Hitem.
      apply toTreeViewItem_ok in Hitem as (-> & treeItem & Hti & _ & Htip & Hstate).
      split; [|by exists treeItem].
      apply (Hget (id, x)).
      by apply (Permutation_in _ (completion_order_Permutation remembered)).
Qed.

Lemma label_of_nonempty (id : string) (treeItem : TreeViewExtImpl.TreeItem) (l : string) :
  id ≠ EmptyString →
  TreeViewExtImpl.label_of decodeURIComponent id treeItem = Ok l → l ≠ EmptyString.
Proof.
  intros Hid. unfold TreeViewExtImpl.label_of.
  assert (match TreeViewExtImpl.resourceUri treeItem with
          | Some path =>
              match decodeURIComponent path with
              | Ok decoded =>
                  Ok match TreeViewExtImpl.after_last_slash decoded with
                     | EmptyString => id
                     | String a s => String a s
                     end
              | Throw e => Throw e
              end
          | None => Ok id
          end = Ok l → l ≠ EmptyString) as Hrest.
  { destruct (TreeViewExtImpl.resourceUri treeItem) as [path|]; [|by intros [= <-]].
    destruct (decodeURIComponent path) as [decoded|]; [|done].
    destruct (TreeViewExtImpl.after_last_slash decoded); by intros [= <-]. }
  destruct (TreeViewExtImpl.label treeItem) as [[|a s]|]; try done. by intros [= <-].
Qed.

(** X30. No item that [getChildren] returns is without a label or an id:
    where the tree item has no label and its resource gives none either
    (there is no resource, or its path ends with a slash), the id of the
    item stands in, and an id is never empty. *)
Theorem getChildren_labels_nonempty
    (itemId : string) (v : TreeViewExtImpl.t T)
    (items : list TreeViewExtImpl.TreeViewItem) :
  fst (getChildren itemId v) = Ok (Some items) →
  Forall (λ item, TreeViewExtImpl.itemLabel item ≠ EmptyString ∧
                  TreeViewExtImpl.id item ≠ EmptyString) items.
Proof.
  rewrite getChildren_unfold.
  destruct (provider_getChildren _) as [[values|]|e]; [|done|done].
  destruct (map_m_remember_total values v) as (remembered & v1 & -> & _ & Hids).
  cbn [fst].
  destruct (TreeViewExtImpl.all _) as [treeItems|e] eqn:Hall; [|done].
  intros [= <-]. apply items_of_remembered in Hall.
  assert (Forall2 (λ (_ : string * T) item,
                     TreeViewExtImpl.itemLabel item ≠ EmptyString ∧
                     TreeViewExtImpl.id item ≠ EmptyString)
            (completion_order remembered) treeItems) as Hnonempty.
  { apply (Forall2_In_impl _ _ _ _ Hall). intros [id x] item Hin Hitem.
    apply (Permutation_in _ (completion_order_Permutation remembered)) in Hin.
    rewrite List.Forall_forall in Hids. apply Hids in Hin. simpl in Hin.
    apply toTreeViewItem_ok in Hitem as (-> & treeItem & _ & Hl & _).
    split; [by eapply label_of_nonempty | done]. }
  eapply Forall2_Forall_r; [exact Hnonempty|]. by apply Forall_true.
Qed.

End TreeViewFacts.

Lemma cache_wf_new {T} : cache_wf (TreeViewExtImpl.new T).
Proof. split; [done | intros id []]. Qed.

Lemma getChildren_hands_out_fresh_ids_witness :
  let v := TreeViewExtImpl.new string in
  let values := ["src"; "README.md"] in
  let call :=
    TreeViewExtImpl.getChildren string MoreSamples.files_getChildren
      MoreSamples.files_getTreeItem MoreSamples.src_takes_a_tick MoreSamples.plain_path
      "root" v in
  let v' := snd call in
  let ids := item_ids (TreeViewExtImpl.idCounter v) (length values) in
  cache_wf v ∧
  TreeViewExtImpl.idCounter v + Z.of_nat (length values) ≤ 2 ^ 53 ∧
  MoreSamples.files_getChildren (JsMap.get "root" (TreeViewExtImpl.cache v))
  = Ok (Some values) ∧
  ids = ["item-1"; "item-2"] ∧
  (TreeViewExtImpl.idCounter v' = TreeViewExtImpl.idCounter v + Z.of_nat (length values) ∧
   JsMap.keys (TreeViewExtImpl.cache v') = JsMap.keys (TreeViewExtImpl.cache v) ++ ids ∧
   NoDup ids ∧
   (∀ id, In id ids → JsMap.get id (TreeViewExtImpl.cache v) = None) ∧
   (∀ id x, JsMap.get id (TreeViewExtImpl.cache v) = Some x →
            JsMap.get id (TreeViewExtImpl.cache v') = Some x) ∧
   cache_wf v' ∧
   (∀ items,
      fst call = Ok (Some items) →
      Permutation (map TreeViewExtImpl.id items) ids ∧
      map TreeViewExtImpl.id items
      = map fst (TreeViewExtImpl.completion_order string MoreSamples.src_takes_a_tick
                   (combine ids values)))).
Proof.
  intros v values call v' ids.
  assert (cache_wf v) as Hwf by apply cache_wf_new.
  assert (TreeViewExtImpl.idCounter v + Z.of_nat (length values) ≤ 2 ^ 53) as Hb
    by (vm_compute; discriminate).
  assert (ids = ["item-1"; "item-2"]) as Hids by (vm_compute; reflexivity).
  exact (conj Hwf (conj Hb (conj eq_refl (conj Hids
    (getChildren_hands_out_fresh_ids string MoreSamples.files_getChildren
       MoreSamples.files_getTreeItem MoreSamples.src_takes_a_tick MoreSamples.plain_path
       "root" v values Hwf Hb eq_refl))))).
Defined.

Lemma getChildren_round_trip_witness :
  let v := TreeViewExtImpl.new string in
  let call :=
    TreeViewExtImpl.getChildren string MoreSamples.files_getChildren
      MoreSamples.files_getTreeItem MoreSamples.src_takes_a_tick MoreSamples.plain_path
      "root" v in
  let items := default [] (match fst call with Ok o => o | Throw _ => None end) in
  cache_wf v ∧
  fst call = Ok (Some items) ∧
  TreeViewExtImpl.idCounter v + Z.of_nat (length items) ≤ 2 ^ 53 ∧
  map TreeViewExtImpl.itemLabel items = ["README.md"; "src"] ∧
  map TreeViewExtImpl.id items = ["item-2"; "item-1"] ∧
  ∃ values,
    MoreSamples.files_getChildren (JsMap.get "root" (TreeViewExtImpl.cache v))
    = Ok (Some values) ∧
    Forall2 (λ id value, JsMap.get id (TreeViewExtImpl.cache (snd call)) = Some value)
      (item_ids (TreeViewExtImpl.idCounter v) (length values)) values ∧
    ∃ resumed,
      Permutation resumed values ∧
      Forall2
        (λ item value,
           JsMap.get (TreeViewExtImpl.id item) (TreeViewExtImpl.cache (snd call))
           = Some value ∧
           ∃ treeItem,
             MoreSamples.files_getTreeItem value = Ok treeItem ∧
             TreeViewExtImpl.itemTooltip item = TreeViewExtImpl.tooltip treeItem ∧
             TreeViewExtImpl.itemCollapsibleState item
             = TreeViewExtImpl.collapsibleState treeItem)
        items resumed.
Proof.
  intros v call items.
  assert (cache_wf v) as Hwf by apply cache_wf_new.
  assert (fst call = Ok (Some items)) as Hcall by (vm_compute; reflexivity).
  assert (TreeViewExtImpl.idCounter v + Z.of_nat (length items) ≤ 2 ^ 53) as Hb
    by (vm_compute; discriminate).
  assert (map TreeViewExtImpl.itemLabel items = ["README.md"; "src"]) as Hl
    by (vm_compute; reflexivity).
  assert (map TreeViewExtImpl.id items = ["item-2"; "item-1"]) as Hi
    by (vm_compute; reflexivity).
  exact (conj Hwf (conj Hcall (conj Hb (conj Hl (conj Hi
    (getChildren_round_trip string MoreSamples.files_getChildren
       MoreSamples.files_getTreeItem MoreSamples.src_takes_a_tick MoreSamples.plain_path
       "root" v items Hwf Hcall Hb)))))).
Defined.

Lemma getChildren_labels_nonempty_witness :
  let unnamed : string → Result TreeViewExtImpl.TreeItem :=
    λ element,
      Ok {| TreeViewExtImpl.label := Some EmptyString;
            TreeViewExtImpl.resourceUri := Some ("/workspace/" +:+ element +:+ "/");
            TreeViewExtImpl.iconPath := None;
            TreeViewExtImpl.tooltip := None;
            TreeViewExtImpl.collapsibleState := None |} in
  let call :=
    TreeViewExtImpl.getChildren string MoreSamples.files_getChildren unnamed
      MoreSamples.at_once MoreSamples.plain_path "root" (TreeViewExtImpl.new string) in
  let items := default [] (match fst call with Ok o => o | Throw _ => None end) in
  fst call = Ok (Some items) ∧
  map TreeViewExtImpl.itemLabel items = ["item-1"; "item-2"] ∧
  Forall (λ item, TreeViewExtImpl.itemLabel item ≠ EmptyString ∧
                  TreeViewExtImpl.id item ≠ EmptyString) items.
Proof.
  intros unnamed call items.
  assert (fst call = Ok (Some items)) as Hcall by (vm_compute; reflexivity).
  assert (map TreeViewExtImpl.itemLabel items = ["item-1"; "item-2"]) as Hl
    by (vm_compute; reflexivity).
  exact (conj Hcall (conj Hl
    (getChildren_labels_nonempty string MoreSamples.files_getChildren unnamed
       MoreSamples.at_once MoreSamples.plain_path "root" (TreeViewExtImpl.new string)
       items Hcall))).
Defined.
